(** * Shallow embedding of [playground/engine.py]

    The orchestration layer of the playground renderer: the ray pack, the
    registry of surface primitives and materials, and the progressive
    multi-pass engine.  Python objects become records, methods become
    functions that take the receiver and return its successor, raised
    exceptions become the [Raise] branch of [result].

    Numbers.  Python integers are [Z].  Tensor entries are exact rationals
    ([Q], compared with [==]): the development checks the arithmetic and the
    control flow the engine writes down, not the rounding of the device.
    Functions that live outside [engine.py] (the tracer, the denoiser, the
    mesh loaders, [torch.pow], the camera models) are fields of the
    [Collaborators] class. *)

From Stdlib Require Import ZArith QArith Qround Qminmax Bool Lia Ascii.
From stdpp Require Import base gmap strings list pretty sorting.

Open Scope Z_scope.

(** ** Exceptions *)

Inductive PyError : Type :=
| AssertionError (msg : string)
| KeyError (key : string)
| ValueError (msg : string)
| IndexError (msg : string)
| AttributeError (msg : string)
| RuntimeError (msg : string).

Inductive result (A : Type) : Type :=
| Ok (a : A)
| Raise (e : PyError).

Arguments Ok {A} a.
Arguments Raise {A} e.

#[global] Instance result_ret : MRet result := fun _ a => Ok a.

#[global] Instance result_bind : MBind result := fun _ _ f m =>
  match m with
  | Ok a => f a
  | Raise e => Raise e
  end.

Definition raises {A} (m : result A) : Prop := exists e, m = Raise e.

Definition is_ok {A} (m : result A) : bool :=
  match m with Ok _ => true | Raise _ => false end.

(** ** Tensors

    A ray tensor carries its shape and its entries in row-major order. *)

Record Tensor : Type := mkTensor { shape : list nat; data : list Q }.

Definition ndim (t : Tensor) : nat := length (shape t).

Definition numel (dims : list nat) : nat := foldr Nat.mul 1%nat dims.

(** [torch.split(t, size, dim=0)] when [size] is an integer: consecutive
    blocks of [size] rows, the last one shorter when [size] does not divide
    the row count; a tensor with no rows gives one empty block.  [n] is the
    number of rows left, [stride] the number of entries in a row. *)
Fixpoint split_rows (fuel : nat) (size n stride : nat) (rest : list nat)
  (d : list Q) : list Tensor :=
  match fuel with
  | O => []
  | S fuel' =>
      let r := Nat.min size n in
      mkTensor (r :: rest) (take (r * stride) d)
        :: (if (n <=? size)%nat then []
            else split_rows fuel' size (n - size) stride rest (drop (r * stride) d))
  end.

Definition torch_split (t : Tensor) (size : Z) : result (list Tensor) :=
  match shape t with
  | [] => Raise (RuntimeError "split expects at least a 1-dimensional tensor")
  | n :: rest =>
      if size <? 0 then Raise (RuntimeError "split expects split_size be non-negative")
      else if size =? 0 then
        (if (n =? 0)%nat then Ok [t]
         else Raise (RuntimeError "split_size can only be 0 if dimension size is 0"))
      else Ok (split_rows (S n) (Z.to_nat size) n (numel rest) rest (data t))
  end.

(** [torch.cat(ts, dim=0)]: the row counts add up, the rest of the shape is
    that of the first tensor; an empty list of tensors is an error. *)
Definition torch_cat (ts : list Tensor) : result Tensor :=
  match ts with
  | [] => Raise (RuntimeError "torch.cat(): expected a non-empty list of Tensors")
  | t0 :: _ =>
      if forallb (fun t => bool_decide (tail (shape t) = tail (shape t0))
                           && negb (bool_decide (shape t = []))) ts
      then Ok (mkTensor (foldr (fun t acc => (hd 0%nat (shape t) + acc)%nat) 0%nat ts
                           :: tail (shape t0))
                        (concat (map data ts)))
      else Raise (RuntimeError "Sizes of tensors must match except in dimension 0")
  end.

(** ** RayPack *)

Module RayPack.

Record t : Type := mk {
  rays_ori : Tensor;
  rays_dir : Tensor;
  pixel_x : option Tensor;
  pixel_y : option Tensor;
  (* one flag per pixel; [None] for camera models that never mask *)
  mask : option (list bool)
}.

Definition only_flat_msg : string := "Only 1D ray packs can be split".

Definition split (self : t) (size : option Z) : result (list t) :=
  match size with
  | None => Ok [self]
  | Some size =>
      if (ndim (rays_ori self) =? 2)%nat && (ndim (rays_dir self) =? 2)%nat then
        rays_orig ← torch_split (rays_ori self) size;
        rays_dir' ← torch_split (rays_dir self) size;
        Ok (zip_with (fun ray_ori ray_dir => mk ray_ori ray_dir None None None)
                     rays_orig rays_dir')
      else Raise (AssertionError only_flat_msg)
  end.

End RayPack.

(** ** Vectors and images

    A vertex or a scale is a triple.  A render buffer of shape
    (batch, height, width, channels) is a list of frames, a frame a list of
    pixels, a pixel a list of channels; the two spatial axes are kept as one
    pixel axis, which no operation of the engine tells apart. *)

Definition Vec3 : Type := (Q * Q * Q)%type.
Abbreviation Pixel := (list Q) (only parsing).
Abbreviation Frame := (list (list Q)) (only parsing).
Abbreviation Image := (list (list (list Q))) (only parsing).

Definition vec3_map2 (f : Q -> Q -> Q) (a b : Vec3) : Vec3 :=
  let '(ax, ay, az) := a in
  let '(bx, by', bz) := b in
  (f ax bx, f ay by', f az bz).

Definition vec3_scale (s : Q) (a : Vec3) : Vec3 :=
  let '(ax, ay, az) := a in ((s * ax)%Q, (s * ay)%Q, (s * az)%Q).

(** [tensor.max()] of a 3-vector. *)
Definition vec3_max (a : Vec3) : Q :=
  let '(ax, ay, az) := a in Qmax (Qmax ax ay) az.

(** [tensor.max(dim=0)[0]] and [tensor.min(dim=0)[0]] of a (V, 3) array; torch
    refuses the reduction over an empty axis. *)
Definition rows_reduce (f : Q -> Q -> Q) (rows : list Vec3) : result Vec3 :=
  match rows with
  | [] => Raise (IndexError "max(): Expected reduction dim 0 to have non-zero size")
  | r :: rows' => Ok (foldl (vec3_map2 f) r rows')
  end.

(** ** Materials *)

(** A texture is either computed texel by texel or read from an asset. *)
Inductive Texture : Type :=
| Procedural (height width channels : nat) (texel : nat -> nat -> nat -> Q)
| Loaded (t : Tensor).

Record PBRMaterial : Type := mkPBRMaterial {
  material_id : Z;
  diffuse_map : option Texture;
  emissive_map : option Texture;
  metallic_roughness_map : option Texture;
  normal_map : option Texture;
  diffuse_factor : list Q;
  emissive_factor : list Q;
  metallic_factor : Q;
  roughness_factor : Q;
  alpha_mode : Z;
  alpha_cutoff : Q;
  transmission_factor : Q;
  ior : Q
}.

(** The material dictionary the mesh loader hands to [register_materials]. *)
Record MaterialDict : Type := mkMaterialDict {
  mat_material_name : string;
  mat_diffuse_map : option Texture;
  mat_emissive_map : option Texture;
  mat_metallic_roughness_map : option Texture;
  mat_normal_map : option Texture;
  mat_diffuse_factor : list Q;
  mat_emissive_factor : list Q;
  mat_metallic_factor : Q;
  mat_roughness_factor : Q;
  mat_alpha_mode : Z;
  mat_alpha_cutoff : Q;
  mat_transmission_factor : Q;
  mat_ior : Q
}.

(** ** OptiX structs *)

Module OptixPlaygroundRenderOptions.
Definition NONE : Z := 0.
Definition SMOOTH_NORMALS : Z := 1.
Definition DISABLE_GAUSSIAN_TRACING : Z := 2.
Definition DISABLE_PBR_TEXTURES : Z := 4.
End OptixPlaygroundRenderOptions.

Inductive OptixPrimitiveTypes : Type := NONE | MIRROR | GLASS | DIFFUSE.

#[global] Instance OptixPrimitiveTypes_eq_dec : EqDecision OptixPrimitiveTypes.
Proof. solve_decision. Defined.

Definition primitive_type_value (p : OptixPrimitiveTypes) : Z :=
  match p with NONE => 0 | MIRROR => 1 | GLASS => 2 | DIFFUSE => 3 end.

(** ** Scale factors

    A scale factor is a float, and a division of floats does not raise: where
    the divisor is zero the quotient is an infinity, and an infinity times
    zero is not a number.  Finite values are kept as exact rationals. *)
Inductive Float : Type :=
| Finite (q : Q)
| PosInf
| NegInf
| NaN.

(** The infinity of the sign of [z]; not a number when [z] is zero. *)
Definition signed_inf (z : Z) : Float :=
  match z with
  | Z0 => NaN
  | Zpos _ => PosInf
  | Zneg _ => NegInf
  end.

Definition float_mul (x y : Float) : Float :=
  match x, y with
  | NaN, _ | _, NaN => NaN
  | Finite a, Finite b => Finite (a * b)
  | Finite a, PosInf | PosInf, Finite a => signed_inf (Qnum a)
  | Finite a, NegInf | NegInf, Finite a => signed_inf (- Qnum a)
  | PosInf, PosInf | NegInf, NegInf => PosInf
  | PosInf, NegInf | NegInf, PosInf => NegInf
  end.

(** [1.0 / x] for a tensor entry [x]: the extents this is applied to are
    differences [max - min], whose zero is the positive one. *)
Definition float_inv (x : Q) : Float :=
  if Qeq_bool x 0 then PosInf else Finite (1 / x).

(** Modelled from the spec: [ObjectTransform] of
    [playground/utils/kaolin_future/transform.py] is not part of the sources
    at hand.  The spec gives a primitive "an owned affine transform
    (translation, rotation, non-uniform scale)", starting as the identity, and
    describes [scale] as a rescaling that composes with the ones before it. *)
Record ObjectTransform : Type := mkObjectTransform {
  transform_device : string;
  translation : Vec3;
  rotation : Vec3;
  scale_factors : Float * Float * Float
}.

Definition identity_transform (device : string) : ObjectTransform :=
  mkObjectTransform device (0, 0, 0)%Q (0, 0, 0)%Q (Finite 1, Finite 1, Finite 1).

Definition transform_scale (s : Float) (tr : ObjectTransform) : ObjectTransform :=
  let '(x, y, z) := scale_factors tr in
  mkObjectTransform (transform_device tr) (translation tr) (rotation tr)
                    (float_mul s x, float_mul s y, float_mul s z).

Definition Triangle : Type := (Z * Z * Z)%type.

(** The surface mesh the loaders return (kaolin's [SurfaceMesh]). *)
Record Mesh : Type := mkMesh {
  mesh_vertices : list Vec3;
  mesh_faces : list Triangle;
  mesh_vertex_normals : list Vec3;
  mesh_vertex_tangents : option (list Vec3);
  mesh_face_uvs : list (list (Q * Q));
  mesh_material_assignments : list Z
}.

Record OptixPrimitive : Type := mkOptixPrimitive {
  geometry_type : option string;
  vertices : list Vec3;
  triangles : list Triangle;
  vertex_normals : list Vec3;
  has_tangents : list bool;
  vertex_tangents : list Vec3;
  material_uv : option (list (list (Q * Q)));
  prim_material_id : option (list Z);
  primitive_type : option OptixPrimitiveTypes;
  primitive_type_tensor : list Z;
  reflectance_scatter : list Q;
  refractive_index : option Q;
  refractive_index_tensor : list Q;
  transform : option ObjectTransform
}.

(** ** The tracer, seen from the engine

    The native tracer is a collaborator.  Its state, as far as the engine can
    tell, is the sequence of acceleration-structure builds it was asked for;
    the registry and the engine share the one tracer object, so the functions
    below take it and return it next to their receiver. *)

Record MeshAccBuild : Type := mkMeshAccBuild {
  build_mesh_vertices : list Vec3;
  build_mesh_faces : list Triangle;
  build_rebuild : bool;
  build_allow_update : bool
}.

Record Tracer : Type := mkTracer {
  mesh_acc_builds : list MeshAccBuild;
  gs_acc_builds : nat
}.

Definition build_mesh_acc (tr : Tracer) (vs : list Vec3) (fs : list Triangle)
  (rebuild allow_update : bool) : Tracer :=
  mkTracer (mesh_acc_builds tr ++ [mkMeshAccBuild vs fs rebuild allow_update])
           (gs_acc_builds tr).

Definition build_gs_acc (tr : Tracer) : Tracer :=
  mkTracer (mesh_acc_builds tr) (S (gs_acc_builds tr)).

(** Number of mesh acceleration-structure builds so far. *)
Definition rebuild_count (tr : Tracer) : nat := length (mesh_acc_builds tr).

(** ** The volumetric model, the camera and the accumulation controllers *)

Inductive Background : Type :=
| BackgroundColor (color : list Q)
| OtherBackground.

Record MixtureOfGaussians : Type := mkMog {
  mog_background : Background;
  mog_positions : list Vec3;
  mog_device : string
}.

(** kaolin's [Camera]: what the engine reads of it. *)
Record Camera : Type := mkCamera {
  camera_device : string;
  camera_width : nat;
  camera_height : nat;
  camera_view_matrix : list Q;
  camera_R : list Q
}.

(** [camera.cuda()]: the same camera, placed on the CUDA device. *)
Definition camera_cuda (c : Camera) : Camera :=
  mkCamera "cuda" (camera_width c) (camera_height c) (camera_view_matrix c) (camera_R c).

(** Modelled from the spec: the classes [DepthOfField] and [SPP] of
    [playground/utils] are not part of the sources at hand.  The spec lists
    what each controller exposes: "a query for remaining accumulation budget,
    an accumulated-sample counter, a configured target count and batch size, a
    reset operation, and a callable producing a jitter/offset".  The counters
    and targets are the fields the engine reads; the query, the reset and the
    callable are fields of [Collaborators]. *)
Record DepthOfField : Type := mkDepthOfField {
  dof_aperture_size : Q;
  dof_focus_z : Q;
  dof_spp : Z;
  dof_spp_accumulated_for_frame : Z
}.

Record SPP : Type := mkSPP {
  spp_mode : string;
  spp_spp : Z;
  spp_batch_size : Z;
  spp_spp_accumulated_for_frame : Z
}.

(** What a hybrid trace is called with, and what it returns. *)
Record StackedFields : Type := mkStackedFields {
  st_vertices : list Vec3;
  st_triangles : list Triangle;
  st_vertex_normals : list Vec3;
  st_has_tangents : list bool;
  st_vertex_tangents : list Vec3;
  st_material_uv : list (list (Q * Q));
  st_material_id : list Z;
  st_primitive_type_tensor : list Z;
  st_reflectance_scatter : list Q;
  st_refractive_index_tensor : list Q
}.

Record RenderPlaygroundArgs : Type := mkRenderPlaygroundArgs {
  arg_gaussians : MixtureOfGaussians;
  arg_ray_o : Tensor;
  arg_ray_d : Tensor;
  arg_playground_opts : Z;
  arg_fields : StackedFields;
  arg_frame_id : Z;
  arg_materials : list PBRMaterial;
  arg_is_sync_materials : bool;
  arg_background_color : list Q;
  arg_envmap : option Tensor;
  arg_enable_envmap : bool;
  arg_use_envmap_as_background : bool;
  arg_max_pbr_bounces : Z
}.

Record RenderedResults : Type := mkRenderedResults {
  pred_rgb : Image;
  pred_opacity : Image;
  last_ray_d : Tensor
}.

(** ** Collaborators

    Everything the engine calls and does not define. *)
Class Collaborators : Type := {
  (* torch.pow on one entry *)
  tpow : Q -> Q -> Q;
  (* playground.utils.mesh_io *)
  load_mesh : string -> string -> result Mesh;
  load_materials : Mesh -> string -> list MaterialDict;
  load_missing_material_info : string -> list MaterialDict -> string -> list MaterialDict;
  create_procedural_mesh :
    list Vec3 -> list Triangle -> list (list (Q * Q)) -> string -> Mesh;
  (* ObjectTransform.model_matrix and rotation_matrix, applied to points and
     to directions (the latter renormalised) *)
  transform_points : ObjectTransform -> list Vec3 -> list Vec3;
  transform_directions : ObjectTransform -> list Vec3 -> list Vec3;
  (* Tracer and MixtureOfGaussians *)
  render_playground : Tracer -> RenderPlaygroundArgs -> RenderedResults;
  mog_trace : MixtureOfGaussians -> Tensor -> Tensor -> Image * Image;
  mog_background_call :
    MixtureOfGaussians -> Tensor -> Image -> Image -> Image * Image;
  denoise : Image -> Image;
  (* accumulation controllers *)
  spp_has_more_to_accumulate : SPP -> bool;
  spp_reset_accumulation : SPP -> SPP;
  spp_call : SPP -> nat -> nat -> list (Q * Q) * SPP;
  dof_has_more_to_accumulate : DepthOfField -> bool;
  dof_reset_accumulation : DepthOfField -> DepthOfField;
  dof_call : DepthOfField -> list Q -> RayPack.t -> Tensor * Tensor * DepthOfField;
  (* kaolin ray generation: pixel grid (y, x), pinhole and fisheye rays *)
  generate_centered_pixel_coords : nat -> nat -> string -> list Q * list Q;
  generate_pinhole_rays : Camera -> list Q -> list Q -> Tensor * Tensor;
  generate_fisheye_rays : Camera -> list Q -> list Q -> Tensor * Tensor * list bool
}.

(** ** Insertion-ordered dictionaries

    [Primitives.objects] is iterated in insertion order when the buffers are
    stacked, so it is kept as an association list without repeated keys. *)

Fixpoint dict_get {V} (k : string) (d : list (string * V)) : option V :=
  match d with
  | [] => None
  | (k', v) :: d' => if decide (k = k') then Some v else dict_get k d'
  end.

Fixpoint dict_set {V} (k : string) (v : V) (d : list (string * V)) : list (string * V) :=
  match d with
  | [] => [(k, v)]
  | (k', v') :: d' =>
      if decide (k = k') then (k, v) :: d' else (k', v') :: dict_set k v d'
  end.

Fixpoint dict_del {V} (k : string) (d : list (string * V)) : list (string * V) :=
  match d with
  | [] => []
  | (k', v') :: d' => if decide (k = k') then d' else (k', v') :: dict_del k d'
  end.

Definition dict_values {V} (d : list (string * V)) : list V := map snd d.

Definition Qgtb (a b : Q) : bool := negb (Qle_bool a b).

(** [t[idx]] for an index tensor: negative indices count from the end. *)
Definition index_select (t : list Z) (idx : Z) : result Z :=
  let n := Z.of_nat (length t) in
  if (0 <=? idx) && (idx <? n) then
    match t !! Z.to_nat idx with Some v => Ok v | None => Raise (IndexError "index out of range") end
  else if (- n <=? idx) && (idx <? 0) then
    match t !! Z.to_nat (n + idx) with Some v => Ok v | None => Raise (IndexError "index out of range") end
  else Raise (IndexError "index out of range").

Fixpoint mapM {A B} (f : A -> result B) (l : list A) : result (list B) :=
  match l with
  | [] => Ok []
  | a :: l' => b ← f a; bs ← mapM f l'; Ok (b :: bs)
  end.

(** The conversion of a float to an integer dtype: towards zero. *)
Definition trunc_to_int (x : Q) : Z := Z.quot (Qnum x) (Z.pos (Qden x)).

(** ** OptixPrimitive methods *)

Module OptixPrimitiveM.

(** [torch.cumsum] of [[0] + counts[:-1]]. *)
Fixpoint offsets_from (acc : Z) (counts : list nat) : list Z :=
  match counts with
  | [] => []
  | c :: counts' => acc :: offsets_from (acc + Z.of_nat c) counts'
  end.

Definition shift_triangle (offset : Z) (tri : Triangle) : Triangle :=
  let '(a, b, c) := tri in (a + offset, b + offset, c + offset).

Definition stack (primitives : list OptixPrimitive) : result StackedFields :=
  match primitives with
  | [] => Raise (IndexError "list index out of range")
  | _ =>
      let v_offset := offsets_from 0 (map (fun p => length (vertices p)) primitives) in
      let uvs := omap material_uv primitives in
      let ids := omap prim_material_id primitives in
      if bool_decide (uvs = []) || bool_decide (ids = []) then
        Raise (RuntimeError "torch.cat(): expected a non-empty list of Tensors")
      else
        Ok (mkStackedFields
              (concat (map vertices primitives))
              (concat (zip_with (fun p offset => map (shift_triangle offset) (triangles p))
                                primitives v_offset))
              (concat (map vertex_normals primitives))
              (concat (map has_tangents primitives))
              (concat (map vertex_tangents primitives))
              (concat uvs)
              (concat ids)
              (concat (map primitive_type_tensor primitives))
              (concat (map reflectance_scatter primitives))
              (concat (map refractive_index_tensor primitives)))
  end.

Definition apply_transform `{Collaborators} (self : OptixPrimitive) : result OptixPrimitive :=
  match transform self with
  | None => Raise (AttributeError "'NoneType' object has no attribute 'model_matrix'")
  | Some tr =>
      let transformed_verts := transform_points tr (vertices self) in
      let transformed_normals := transform_directions tr (vertex_normals self) in
      let transformed_tangents := transform_directions tr (vertex_tangents self) in
      Ok (mkOptixPrimitive None transformed_verts (triangles self) transformed_normals
            (has_tangents self) transformed_tangents (material_uv self)
            (prim_material_id self) (primitive_type self) (primitive_type_tensor self)
            (reflectance_scatter self) (refractive_index self)
            (refractive_index_tensor self)
            (Some (identity_transform (transform_device tr))))
  end.

End OptixPrimitiveM.

(** ** Primitives: the registry of surface primitives and materials *)

Module Primitives.

Definition SUPPORTED_MESH_EXTENSIONS : list string := [".obj"; ".glb"]%string.
Definition DEFAULT_REFRACTIVE_INDEX : Q := 133 # 100.
Definition SCALE_OF_NEW_MESH_TO_SMALL_SCENE : Q := 1 # 2.

Record state : Type := mk {
  assets : gmap string (option string);
  enabled : bool;
  objects : list (string * OptixPrimitive);
  use_smooth_normals : bool;
  disable_gaussian_tracing : bool;
  disable_pbr_textures : bool;
  force_white_bg : bool;
  enable_envmap : bool;
  use_envmap_as_background : bool;
  scene_scale : Vec3;
  stacked_fields : option StackedFields;
  dirty : bool;
  instance_counter : gmap string Z;
  registered_materials : gmap string PBRMaterial
}.

Definition set_objects (v : list (string * OptixPrimitive)) (s : state) : state :=
  mk (assets s) (enabled s) v (use_smooth_normals s) (disable_gaussian_tracing s)
     (disable_pbr_textures s) (force_white_bg s) (enable_envmap s)
     (use_envmap_as_background s) (scene_scale s) (stacked_fields s) (dirty s)
     (instance_counter s) (registered_materials s).

Definition set_stacked_fields (v : option StackedFields) (s : state) : state :=
  mk (assets s) (enabled s) (objects s) (use_smooth_normals s) (disable_gaussian_tracing s)
     (disable_pbr_textures s) (force_white_bg s) (enable_envmap s)
     (use_envmap_as_background s) (scene_scale s) v (dirty s)
     (instance_counter s) (registered_materials s).

Definition set_dirty (v : bool) (s : state) : state :=
  mk (assets s) (enabled s) (objects s) (use_smooth_normals s) (disable_gaussian_tracing s)
     (disable_pbr_textures s) (force_white_bg s) (enable_envmap s)
     (use_envmap_as_background s) (scene_scale s) (stacked_fields s) v
     (instance_counter s) (registered_materials s).

Definition set_instance_counter (v : gmap string Z) (s : state) : state :=
  mk (assets s) (enabled s) (objects s) (use_smooth_normals s) (disable_gaussian_tracing s)
     (disable_pbr_textures s) (force_white_bg s) (enable_envmap s)
     (use_envmap_as_background s) (scene_scale s) (stacked_fields s) (dirty s)
     v (registered_materials s).

Definition set_registered_materials (v : gmap string PBRMaterial) (s : state) : state :=
  mk (assets s) (enabled s) (objects s) (use_smooth_normals s) (disable_gaussian_tracing s)
     (disable_pbr_textures s) (force_white_bg s) (enable_envmap s)
     (use_envmap_as_background s) (scene_scale s) (stacked_fields s) (dirty s)
     (instance_counter s) v.

Definition checkboard_res : nat := 512.
Definition checkboard_square : nat := 20.

(** The loops of [register_default_materials]: texel (y, x) is lightened when
    some pair (i, j) of the two ranges covers it; every write stores 0.5, so
    the order of the writes does not show. *)
Definition checkboard_texel (y x c : nat) : Q :=
  let cells := seq 0 (checkboard_res / checkboard_square) in
  let covered :=
    existsb (fun i => existsb (fun j =>
      let start_x := ((2 * i + j mod 2) * checkboard_square)%nat in
      let end_x := Nat.min ((2 * i + 1 + j mod 2) * checkboard_square) checkboard_res in
      let start_y := (j * checkboard_square)%nat in
      let end_y := Nat.min ((j + 1) * checkboard_square) checkboard_res in
      (start_y <=? y)%nat && (y <? end_y)%nat && (start_x <=? x)%nat && (x <? end_x)%nat)
      cells) cells in
  if (c <? 3)%nat && covered then 1 # 2
  else nth c [1 # 4; 1 # 4; 1 # 4; 1]%Q 0%Q.

Definition register_default_materials (device : string) : gmap string PBRMaterial :=
  let checkboard_texture :=
    Procedural checkboard_res checkboard_res 4 checkboard_texel in
  <["checkboard"%string :=
      mkPBRMaterial 1 (Some checkboard_texture) None None None
        [1; 1; 1; 1]%Q [0; 0; 0]%Q 0 0 0 (1 # 2) 0 1]>
  (<["solid"%string :=
      mkPBRMaterial 0
        (Some (Procedural 2 2 4
                 (fun _ _ c => nth c [130 # 255; 193 # 255; 255 # 255; 1]%Q 0%Q)))
        None None None
        [1; 1; 1; 1]%Q [0; 0; 0]%Q 0 0 0 (1 # 2) 0 1]> ∅).

(** [__init__].  [assets] is what [register_available_assets] finds in the
    assets folder, with the procedural ["Quad"] added. *)
Definition init (assets : gmap string (option string))
  (enable_envmap use_envmap_as_background : bool) (scene_scale : option Vec3) : state :=
  mk (<["Quad"%string := None]> assets) true [] true false false false
     enable_envmap use_envmap_as_background
     (match scene_scale with None => (1, 1, 1)%Q | Some s => s end)
     None true ∅ (register_default_materials "cuda").

Definition set_mesh_scale_to_scene (self : state) (mesh : Mesh)
  (transform : ObjectTransform) : result ObjectTransform :=
  hi ← rows_reduce Qmax (mesh_vertices mesh);
  lo ← rows_reduce Qmin (mesh_vertices mesh);
  let mesh_scale := vec3_map2 Qminus hi lo in
  let transform := transform_scale (float_inv (vec3_max mesh_scale)) transform in
  if Qgtb (vec3_max (scene_scale self)) 5 then Ok transform
  else
    let adjusted_scale := vec3_scale SCALE_OF_NEW_MESH_TO_SMALL_SCENE (scene_scale self) in
    let largest_axis_scale := vec3_max adjusted_scale in
    Ok (transform_scale (Finite largest_axis_scale) transform).

(** One turn of the loop of [register_materials]. *)
Definition register_material (model_name : string)
  (reg : gmap string PBRMaterial) (mat : MaterialDict) : gmap string PBRMaterial * Z :=
  let material_name := (model_name +:+ "$" +:+ mat_material_name mat)%string in
  match reg !! material_name with
  | Some known => (reg, material_id known)
  | None =>
      let fresh :=
        mkPBRMaterial (Z.of_nat (size reg))
          (mat_diffuse_map mat) (mat_emissive_map mat)
          (mat_metallic_roughness_map mat) (mat_normal_map mat)
          (mat_diffuse_factor mat) (mat_emissive_factor mat)
          (mat_metallic_factor mat) (mat_roughness_factor mat)
          (mat_alpha_mode mat) (mat_alpha_cutoff mat)
          (mat_transmission_factor mat) (mat_ior mat) in
      (<[material_name := fresh]> reg, material_id fresh)
  end.

Fixpoint register_materials_loop (model_name : string)
  (reg : gmap string PBRMaterial) (materials : list MaterialDict)
  : gmap string PBRMaterial * list Z :=
  match materials with
  | [] => (reg, [])
  | mat :: materials' =>
      let '(reg1, mat_id) := register_material model_name reg mat in
      let '(reg2, ids) := register_materials_loop model_name reg1 materials' in
      (reg2, mat_id :: ids)
  end.

Definition register_materials (self : state) (materials : list MaterialDict)
  (model_name : string) : state * list Z :=
  let '(reg, mat_idx_to_mat_id) :=
    register_materials_loop model_name (registered_materials self) materials in
  (set_registered_materials reg self, mat_idx_to_mat_id).

Definition create_geometry `{Collaborators} (self : state) (geometry_type device : string)
  : result (Mesh * state) :=
  '(mesh, self) ←
    (if decide (geometry_type = "Quad"%string) then
       let MS : Q := 1%Q in
       let MZ : Q := (5 # 2)%Q in
       let v0 := (- MS, - MS, MZ)%Q in
       let v1 := (- MS, MS, MZ)%Q in
       let v2 := (MS, - MS, MZ)%Q in
       let v3 := (MS, MS, MZ)%Q in
       let faces := [(0, 1, 2); (2, 1, 3)] in
       let uv0 := (0, 0)%Q in
       let uv1 := (0, 1)%Q in
       let uv2 := (1, 0)%Q in
       let uv3 := (1, 1)%Q in
       Ok (create_procedural_mesh [v0; v1; v2; v3] faces
             [[uv0; uv1; uv2]; [uv2; uv1; uv3]] device, self)
     else
       match assets self !! geometry_type with
       | None => Raise (KeyError geometry_type)
       | Some mesh_path =>
           let mesh_path := default "None"%string mesh_path in
           mesh ← load_mesh mesh_path device;
           let materials := load_materials mesh device in
           if (0 <? length materials)%nat then
             let materials := load_missing_material_info mesh_path materials device in
             let '(self, material_index_mapping) :=
               register_materials self materials geometry_type in
             assignments ← mapM (index_select material_index_mapping)
                                (mesh_material_assignments mesh);
             Ok (mkMesh (mesh_vertices mesh) (mesh_faces mesh) (mesh_vertex_normals mesh)
                        (mesh_vertex_tangents mesh) (mesh_face_uvs mesh) assignments, self)
           else Ok (mesh, self)
       end);
  Ok (mkMesh (mesh_vertices mesh) (mesh_faces mesh) (mesh_vertex_normals mesh)
             (mesh_vertex_tangents mesh) (mesh_face_uvs mesh)
             (map (Z.max 0) (mesh_material_assignments mesh)), self).

Definition add_primitive `{Collaborators} (self : state) (geometry_type : string)
  (primitive_type : OptixPrimitiveTypes) (device : string) : result state :=
  let count :=
    match instance_counter self !! geometry_type with
    | None => 1
    | Some c => c + 1
    end in
  let self := set_instance_counter (<[geometry_type := count]> (instance_counter self)) self in
  let name := (geometry_type +:+ " " +:+ pretty count)%string in
  '(mesh, self) ← create_geometry self geometry_type device;
  let num_verts := length (mesh_vertices mesh) in
  let num_faces := length (mesh_faces mesh) in
  let has_tangents :=
    match mesh_vertex_tangents mesh with
    | Some _ => replicate num_verts true
    | None => replicate num_verts false
    end in
  transform ← set_mesh_scale_to_scene self mesh (identity_transform device);
  let prim_type_tensor := replicate num_faces (primitive_type_value primitive_type) in
  let reflectance_scatter := replicate num_faces 0%Q in
  let refractive_index := DEFAULT_REFRACTIVE_INDEX in
  (* [mesh.faces.new_full] keeps the integer dtype of the faces: the fill value
     is truncated there, and [.float()] below converts what is left of it *)
  let refractive_index_tensor :=
    replicate num_faces (inject_Z (trunc_to_int refractive_index)) in
  tangents ←
    match mesh_vertex_tangents mesh with
    | Some tg => Ok tg
    | None => Raise (AttributeError "'NoneType' object has no attribute 'float'")
    end;
  Ok (set_objects
        (dict_set name
           (mkOptixPrimitive (Some geometry_type) (mesh_vertices mesh) (mesh_faces mesh)
              (mesh_vertex_normals mesh) has_tangents tangents
              (Some (mesh_face_uvs mesh))
              (Some (mesh_material_assignments mesh))
              (Some primitive_type) prim_type_tensor reflectance_scatter
              (Some refractive_index) refractive_index_tensor (Some transform))
           (objects self))
        self).

Definition is_visible (p : OptixPrimitive) : bool :=
  negb (bool_decide (primitive_type p = Some NONE)).

Definition has_visible_objects (self : state) : bool :=
  (0 <? length (filter (fun p => is_visible p = true) (dict_values (objects self))))%nat.

Definition rederive_face_tensors (obj : OptixPrimitive) : result OptixPrimitive :=
  let num_faces := length (triangles obj) in
  match primitive_type obj, refractive_index obj with
  | None, _ => Raise (AttributeError "'NoneType' object has no attribute 'value'")
  | Some ty, None => Raise (RuntimeError "new_full(): fill_value must be a number")
  | Some ty, Some ri =>
      Ok (mkOptixPrimitive (geometry_type obj) (vertices obj) (triangles obj)
            (vertex_normals obj) (has_tangents obj) (vertex_tangents obj)
            (material_uv obj) (prim_material_id obj) (primitive_type obj)
            (replicate num_faces (primitive_type_value ty))
            (reflectance_scatter obj) (refractive_index obj)
            (replicate num_faces ri) (transform obj))
  end.

Definition recompute_stacked_buffers `{Collaborators} (self : state) : result state :=
  objs ← mapM OptixPrimitiveM.apply_transform (dict_values (objects self));
  objs ← mapM rederive_face_tensors objs;
  let self := set_stacked_fields None self in
  if has_visible_objects self then
    fields ← OptixPrimitiveM.stack (filter (fun p => is_visible p = true) objs);
    Ok (set_stacked_fields (Some fields) self)
  else Ok self.

Definition placeholder_vertices : list Vec3 := replicate 3 (0, 0, 0)%Q.
Definition placeholder_faces : list Triangle := [(0, 0, 0)].

Definition rebuild_bvh_if_needed `{Collaborators} (self : state) (tracer : Tracer)
  (force rebuild : bool) : result (state * Tracer) :=
  '(self, tracer) ←
    (if dirty self || force then
       if has_visible_objects self then
         self ← recompute_stacked_buffers self;
         match stacked_fields self with
         | None => Raise (AttributeError "'NoneType' object has no attribute 'vertices'")
         | Some fields =>
             Ok (self, build_mesh_acc tracer (st_vertices fields) (st_triangles fields)
                         rebuild true)
         end
       else
         Ok (self, build_mesh_acc tracer placeholder_vertices placeholder_faces true true)
     else Ok (self, tracer));
  Ok (set_dirty false self, tracer).

Definition remove_primitive `{Collaborators} (self : state) (tracer : Tracer)
  (name : string) : result (state * Tracer) :=
  match dict_get name (objects self) with
  | None => Raise (KeyError name)
  | Some _ =>
      let self := set_objects (dict_del name (objects self)) self in
      rebuild_bvh_if_needed self tracer true true
  end.

Definition duplicate_primitive `{Collaborators} (self : state) (tracer : Tracer)
  (name : string) : result (state * Tracer) :=
  match dict_get name (objects self) with
  | None => Raise (KeyError name)
  | Some prim =>
      let geometry_type := default "None"%string (geometry_type prim) in
      match instance_counter self !! geometry_type with
      | None => Raise (KeyError geometry_type)
      | Some c =>
          let self :=
            set_instance_counter (<[geometry_type := c + 1]> (instance_counter self)) self in
          let name := (geometry_type +:+ " " +:+ pretty (c + 1))%string in
          let self := set_objects (dict_set name prim (objects self)) self in
          rebuild_bvh_if_needed self tracer true true
      end
  end.

End Primitives.

(** ** Operations on render buffers *)

Definition image_map (f : Q -> Q) (img : Image) : Image := map (map (map f)) img.

Fixpoint mapM2 {A B C} (f : A -> B -> result C) (la : list A) (lb : list B)
  : result (list C) :=
  match la, lb with
  | a :: la', b :: lb' => c ← f a b; cs ← mapM2 f la' lb'; Ok (c :: cs)
  | _, _ => Ok []
  end.

(** One axis of torch's broadcasting: equal sizes pair up, a size of one is
    repeated, anything else is a shape error. *)
Definition bzip {A B C} (f : A -> B -> result C) (la : list A) (lb : list B)
  : result (list C) :=
  if (length la =? length lb)%nat then mapM2 f la lb
  else match la, lb with
       | [a], _ => mapM (f a) lb
       | _, [b] => mapM (fun a => f a b) la
       | _, _ => Raise (RuntimeError "The size of tensor a must match the size of tensor b")
       end.

Definition image_zip (f : Q -> Q -> Q) (a b : Image) : result Image :=
  bzip (bzip (bzip (fun x y => Ok (f x y)))) a b.

Definition frame_add (a b : Frame) : Frame := zip_with (zip_with Qplus) a b.

(** [t.sum(dim=0).unsqueeze(0)] and [t.mean(dim=0).unsqueeze(0)]; a batch
    without frames has no pixels here. *)
Definition image_sum0 (img : Image) : Image :=
  match img with
  | [] => [[]]
  | f :: fs => [foldl frame_add f fs]
  end.

Definition image_mean0 (img : Image) : Image :=
  image_map (fun x => x / inject_Z (Z.of_nat (length img)))%Q (image_sum0 img).

(** [torch.clamp(x, lo, hi)]. *)
Definition clamp (lo hi x : Q) : Q := Qmin (Qmax x lo) hi.

Definition zero_pixel (px : Pixel) : Pixel := map (fun _ => 0%Q) px.

(** [t[mask] = 0.0] for a mask of shape (1, pixels): the leading axes of the
    tensor must have exactly that shape. *)
Definition masked_zero (mask : list bool) (img : Image) : result Image :=
  match img with
  | [frame] =>
      if (length frame =? length mask)%nat then
        Ok [zip_with (fun (m : bool) px => if m then zero_pixel px else px) mask frame]
      else Raise (IndexError "The shape of the mask does not match the shape of the indexed tensor")
  | _ => Raise (IndexError "The shape of the mask does not match the shape of the indexed tensor")
  end.

Fixpoint Qlist_eqb (a b : list Q) : bool :=
  match a, b with
  | [], [] => true
  | x :: a', y :: b' => Qeq_bool x y && Qlist_eqb a' b'
  | _, _ => false
  end.

(** [torch.round]: to the nearest integer, halves to the even one. *)
Definition round_half_even (x : Q) : Z :=
  let f := Qfloor x in
  let r := (x - inject_Z f)%Q in
  match (r ?= 1 # 2)%Q with
  | Lt => f
  | Gt => f + 1
  | Eq => if Z.even f then f else f + 1
  end.

(** [t.reshape(dims)]. *)
Definition reshape (dims : list nat) (t : Tensor) : result Tensor :=
  if (length (data t) =? numel dims)%nat then Ok (mkTensor dims (data t))
  else Raise (RuntimeError "shape is invalid for input size").

(** ** The store of render buffers

    The buffers a pass returns are the objects the engine caches and later
    overwrites under the mask, so they live in a store and are named by their
    position in it. *)

Abbreviation Ref := nat (only parsing).
Abbreviation Heap := (list Image) (only parsing).

Definition alloc (h : Heap) (img : Image) : Ref * Heap := (length h, h ++ [img]).

Definition read (h : Heap) (r : Ref) : result Image :=
  match h !! r with
  | Some img => Ok img
  | None => Raise (RuntimeError "dangling buffer")
  end.

Definition masked_zero_at (mask : list bool) (h : Heap) (r : Ref) : result Heap :=
  img ← read h r;
  img' ← masked_zero mask img;
  Ok (<[r := img']> h).

(** ** Engine3DGRUT *)

Module Engine3DGRUT.

Definition AVAILABLE_CAMERAS : list string := ["Pinhole"; "Fisheye"]%string.
Definition ANTIALIASING_MODES : list string :=
  ["4x MSAA"; "8x MSAA"; "16x MSAA"; "Quasi-Random (Sobol)"]%string.

(** [last_state]: the keys ["camera"], ["rgb"] and ["opacity"] start as [None];
    ["rgb_buffer"] and ["canvas_size"] are absent until a pass is cached. *)
Record LastState : Type := mkLastState {
  ls_camera : option (list Q);
  ls_rgb : option Ref;
  ls_opacity : option Ref;
  ls_rgb_buffer : option Ref;
  ls_canvas_size : option (nat * nat)
}.

(** The dictionary a pass works on and returns. *)
Record RenderBuffers : Type := mkRenderBuffers {
  rb_rgb : Ref;
  rb_opacity : option Ref;
  rb_rgb_buffer : option Ref
}.

Record state : Type := mk {
  scene_mog : MixtureOfGaussians;
  scene_name : string;
  tracer : Tracer;
  envmap : option Tensor;
  frame_id : Z;
  camera_type : string;
  camera_fov : Q;
  use_depth_of_field : bool;
  depth_of_field : DepthOfField;
  use_spp : bool;
  antialiasing_mode : string;
  spp : SPP;
  gamma_correction : Q;
  max_pbr_bounces : Z;
  use_optix_denoiser : bool;
  primitives : Primitives.state;
  last_state : LastState;
  is_materials_dirty : bool;
  heap : Heap
}.

Definition set_tracer (v : Tracer) (s : state) : state :=
  mk (scene_mog s) (scene_name s) v (envmap s) (frame_id s) (camera_type s) (camera_fov s)
     (use_depth_of_field s) (depth_of_field s) (use_spp s) (antialiasing_mode s) (spp s)
     (gamma_correction s) (max_pbr_bounces s) (use_optix_denoiser s) (primitives s)
     (last_state s) (is_materials_dirty s) (heap s).

Definition set_frame_id (v : Z) (s : state) : state :=
  mk (scene_mog s) (scene_name s) (tracer s) (envmap s) v (camera_type s) (camera_fov s)
     (use_depth_of_field s) (depth_of_field s) (use_spp s) (antialiasing_mode s) (spp s)
     (gamma_correction s) (max_pbr_bounces s) (use_optix_denoiser s) (primitives s)
     (last_state s) (is_materials_dirty s) (heap s).

Definition set_depth_of_field (v : DepthOfField) (s : state) : state :=
  mk (scene_mog s) (scene_name s) (tracer s) (envmap s) (frame_id s) (camera_type s)
     (camera_fov s) (use_depth_of_field s) v (use_spp s) (antialiasing_mode s) (spp s)
     (gamma_correction s) (max_pbr_bounces s) (use_optix_denoiser s) (primitives s)
     (last_state s) (is_materials_dirty s) (heap s).

Definition set_spp (v : SPP) (s : state) : state :=
  mk (scene_mog s) (scene_name s) (tracer s) (envmap s) (frame_id s) (camera_type s)
     (camera_fov s) (use_depth_of_field s) (depth_of_field s) (use_spp s)
     (antialiasing_mode s) v (gamma_correction s) (max_pbr_bounces s)
     (use_optix_denoiser s) (primitives s) (last_state s) (is_materials_dirty s) (heap s).

Definition set_primitives (v : Primitives.state) (s : state) : state :=
  mk (scene_mog s) (scene_name s) (tracer s) (envmap s) (frame_id s) (camera_type s)
     (camera_fov s) (use_depth_of_field s) (depth_of_field s) (use_spp s)
     (antialiasing_mode s) (spp s) (gamma_correction s) (max_pbr_bounces s)
     (use_optix_denoiser s) v (last_state s) (is_materials_dirty s) (heap s).

Definition set_last_state (v : LastState) (s : state) : state :=
  mk (scene_mog s) (scene_name s) (tracer s) (envmap s) (frame_id s) (camera_type s)
     (camera_fov s) (use_depth_of_field s) (depth_of_field s) (use_spp s)
     (antialiasing_mode s) (spp s) (gamma_correction s) (max_pbr_bounces s)
     (use_optix_denoiser s) (primitives s) v (is_materials_dirty s) (heap s).

Definition set_is_materials_dirty (v : bool) (s : state) : state :=
  mk (scene_mog s) (scene_name s) (tracer s) (envmap s) (frame_id s) (camera_type s)
     (camera_fov s) (use_depth_of_field s) (depth_of_field s) (use_spp s)
     (antialiasing_mode s) (spp s) (gamma_correction s) (max_pbr_bounces s)
     (use_optix_denoiser s) (primitives s) (last_state s) v (heap s).

Definition set_heap (v : Heap) (s : state) : state :=
  mk (scene_mog s) (scene_name s) (tracer s) (envmap s) (frame_id s) (camera_type s)
     (camera_fov s) (use_depth_of_field s) (depth_of_field s) (use_spp s)
     (antialiasing_mode s) (spp s) (gamma_correction s) (max_pbr_bounces s)
     (use_optix_denoiser s) (primitives s) (last_state s) (is_materials_dirty s) v.

(** Allocate a fresh buffer in the engine's store. *)
Definition new_buffer (img : Image) (s : state) : Ref * state :=
  let '(r, h) := alloc (heap s) img in (r, set_heap h s).

Definition _accumulate_to_buffer `{Collaborators} (prev_frames new_frame : Image)
  (num_frames_accumulated : Z) (gamma : Q) (batch_size : Z) : result Image :=
  let prev_frames := image_map (fun x => tpow x gamma) prev_frames in
  summed ← image_zip Qplus
             (image_map (fun x => x * inject_Z num_frames_accumulated)%Q prev_frames)
             new_frame;
  let buffer :=
    image_map (fun x => x / inject_Z (num_frames_accumulated + batch_size))%Q summed in
  let buffer := image_map (fun x => tpow x (1 / gamma)%Q) buffer in
  Ok buffer.

(** The update of the frame counter at the end of a hybrid trace. *)
Definition advance_frame_id (frame_id batch_size : Z) : Z :=
  if frame_id <=? 2 ^ 31 - 1 then frame_id + batch_size else 0.

Definition material_id_le (a b : PBRMaterial) : Prop := material_id a <= material_id b.

#[global] Instance material_id_le_dec a b : Decision (material_id_le a b).
Proof. unfold material_id_le. apply _. Defined.

(** [sorted(registered_materials.values(), key=lambda mat: mat.material_id)]. *)
Definition sorted_materials (reg : gmap string PBRMaterial) : list PBRMaterial :=
  merge_sort material_id_le (snd <$> map_to_list reg).

Definition identity_poses : Tensor :=
  mkTensor [3; 4]%nat [1; 0; 0; 0; 0; 1; 0; 0; 0; 0; 1; 0]%Q.

Definition _render_playground_hybrid `{Collaborators} (self : state)
  (rays_o rays_d : Tensor) : result (state * RenderedResults) :=
  let mog := scene_mog self in
  let playground_render_opts := 0 in
  let playground_render_opts :=
    if Primitives.use_smooth_normals (primitives self)
    then Z.lor playground_render_opts OptixPlaygroundRenderOptions.SMOOTH_NORMALS
    else playground_render_opts in
  let playground_render_opts :=
    if Primitives.disable_gaussian_tracing (primitives self)
    then Z.lor playground_render_opts OptixPlaygroundRenderOptions.DISABLE_GAUSSIAN_TRACING
    else playground_render_opts in
  let playground_render_opts :=
    if Primitives.disable_pbr_textures (primitives self)
    then Z.lor playground_render_opts OptixPlaygroundRenderOptions.DISABLE_PBR_TEXTURES
    else playground_render_opts in
  '(prims, tr) ← Primitives.rebuild_bvh_if_needed (primitives self) (tracer self) false true;
  let self := set_tracer tr (set_primitives prims self) in
  let '(background_color, envmap) :=
    if Primitives.force_white_bg prims then ([1; 1; 1]%Q, None)
    else match mog_background mog with
         | BackgroundColor color => (color, envmap self)
         | OtherBackground => ([0; 0; 0]%Q, envmap self)
         end in
  fields ←
    match Primitives.stacked_fields prims with
    | Some fields => Ok fields
    | None => Raise (AttributeError "'NoneType' object has no attribute 'triangles'")
    end;
  let rendered_results :=
    render_playground tr
      (mkRenderPlaygroundArgs mog rays_o rays_d playground_render_opts fields
         (frame_id self)
         (sorted_materials (Primitives.registered_materials prims))
         (is_materials_dirty self) background_color envmap
         (Primitives.enable_envmap prims) (Primitives.use_envmap_as_background prims)
         (max_pbr_bounces self)) in
  let rgb := pred_rgb rendered_results in
  let opacity := pred_opacity rendered_results in
  rgb ←
    (if bool_decide (envmap = None) || negb (Primitives.use_envmap_as_background prims) then
       if Primitives.force_white_bg prims then
         image_zip Qplus rgb (image_map (fun x => 1 - x)%Q opacity)
       else
         Ok (mog_background_call mog (last_ray_d rendered_results) rgb opacity).1
     else Ok rgb);
  (* Mark materials as uploaded *)
  let self := set_is_materials_dirty false self in
  (* Advance frame id and avoid int32 overflow *)
  let self := set_frame_id (advance_frame_id (frame_id self) (spp_batch_size (spp self))) self in
  let rgb := image_map (clamp 0 1) rgb in
  Ok (self, mkRenderedResults rgb (pred_opacity rendered_results)
              (last_ray_d rendered_results)).


(** The trace of one batch of rays: the volumetric model alone when no surface
    primitive is enabled and visible, the hybrid trace otherwise. *)
Definition trace_rays `{Collaborators} (self : state) (rays_o rays_d : Tensor)
  : result (state * Image * Image) :=
  if negb (Primitives.enabled (primitives self))
     || negb (Primitives.has_visible_objects (primitives self)) then
    let '(rgb, opacity) := mog_trace (scene_mog self) rays_o rays_d in
    Ok (self, rgb, opacity)
  else
    '(self, rr) ← _render_playground_hybrid self rays_o rays_d;
    Ok (self, pred_rgb rr, pred_opacity rr).

Definition no_opacity : PyError :=
  RuntimeError "unsupported operand: the opacity buffer is None".

Definition read_opacity (h : Heap) (r : option Ref) : result Image :=
  match r with
  | Some r => read h r
  | None => Raise no_opacity
  end.

Definition _render_depth_of_field_buffer `{Collaborators} (self : state)
  (rb : RenderBuffers) (camera : Camera) (rays : RayPack.t)
  : result (state * RenderBuffers) :=
  if use_depth_of_field self && dof_has_more_to_accumulate (depth_of_field self) then
    (* Store current spp index *)
    let i := dof_spp_accumulated_for_frame (depth_of_field self) in
    let extrinsics_R := camera_R camera in
    let '(dof_rays_ori, dof_rays_dir, dof) :=
      dof_call (depth_of_field self) extrinsics_R rays in
    let self := set_depth_of_field dof self in
    '(self, dof_rgb, dof_opacity) ← trace_rays self dof_rays_ori dof_rays_dir;
    prev_rgb ← read (heap self) (rb_rgb rb);
    rgb ← _accumulate_to_buffer prev_rgb dof_rgb i (gamma_correction self) 1;
    let '(rgb_ref, self) := new_buffer rgb self in
    prev_opacity ← read_opacity (heap self) (rb_opacity rb);
    summed ← image_zip Qplus
               (image_map (fun x => x * inject_Z i)%Q prev_opacity) dof_opacity;
    let opacity := image_map (fun x => x / inject_Z (i + 1))%Q summed in
    let '(opacity_ref, self) := new_buffer opacity self in
    Ok (self, mkRenderBuffers rgb_ref (Some opacity_ref) (rb_rgb_buffer rb))
  else Ok (self, rb).

Definition _render_spp_buffer `{Collaborators} (self : state) (rb : RenderBuffers)
  (rays : RayPack.t) : result (state * RenderBuffers) :=
  if use_spp self && spp_has_more_to_accumulate (spp self) then
    (* Store current spp index *)
    let i := spp_spp_accumulated_for_frame (spp self) in
    '(self, spp_rgb, spp_opacity) ←
      trace_rays self (RayPack.rays_ori rays) (RayPack.rays_dir rays);
    let batch_rgb := image_sum0 spp_rgb in
    prev_rgb ← read (heap self) (rb_rgb rb);
    rgb ← _accumulate_to_buffer prev_rgb batch_rgb i (gamma_correction self)
            (spp_batch_size (spp self));
    let '(rgb_ref, self) := new_buffer rgb self in
    prev_opacity ← read_opacity (heap self) (rb_opacity rb);
    summed ← image_zip Qplus
               (image_map (fun x => x * inject_Z i)%Q prev_opacity) spp_opacity;
    let opacity :=
      image_map (fun x => x / inject_Z (i + spp_batch_size (spp self)))%Q summed in
    let '(opacity_ref, self) := new_buffer opacity self in
    Ok (self, mkRenderBuffers rgb_ref (Some opacity_ref) (rb_rgb_buffer rb))
  else Ok (self, rb).

Definition add_jitter (pixel_x pixel_y : list Q) (jitter : option (list (Q * Q)))
  : result (list Q * list Q) :=
  match jitter with
  | None => Ok (pixel_x, pixel_y)
  | Some j =>
      if (length j =? length pixel_x)%nat && (length j =? length pixel_y)%nat then
        Ok (zip_with (fun x d => x + d.1)%Q pixel_x j,
            zip_with (fun y d => y + d.2)%Q pixel_y j)
      else Raise (RuntimeError "The size of tensor a must match the size of tensor b")
  end.

Definition rounded_pixels (camera : Camera) (coords : list Q) : Tensor :=
  mkTensor [camera_height camera; camera_width camera]
           (map (fun x => inject_Z (round_half_even (x - (1 # 2)))) coords).

Definition _raygen_pinhole `{Collaborators} (camera : Camera)
  (jitter : option (list (Q * Q))) : result RayPack.t :=
  let '(pixel_y, pixel_x) :=
    generate_centered_pixel_coords (camera_width camera) (camera_height camera)
                                   (camera_device camera) in
  '(pixel_x, pixel_y) ← add_jitter pixel_x pixel_y jitter;
  let '(rays_o, rays_d) := generate_pinhole_rays camera pixel_y pixel_x in
  rays_o ← reshape [1; camera_height camera; camera_width camera; 3]%nat rays_o;
  rays_d ← reshape [1; camera_height camera; camera_width camera; 3]%nat rays_d;
  Ok (RayPack.mk rays_o rays_d
        (Some (rounded_pixels camera pixel_x)) (Some (rounded_pixels camera pixel_y)) None).

Definition _raygen_fisheye `{Collaborators} (camera : Camera)
  (jitter : option (list (Q * Q))) : result RayPack.t :=
  let '(pixel_y, pixel_x) :=
    generate_centered_pixel_coords (camera_width camera) (camera_height camera)
                                   (camera_device camera) in
  '(pixel_x, pixel_y) ← add_jitter pixel_x pixel_y jitter;
  let '(rays_o, rays_d, mask) := generate_fisheye_rays camera pixel_y pixel_x in
  rays_o ← reshape [1; camera_height camera; camera_width camera; 3]%nat rays_o;
  rays_d ← reshape [1; camera_height camera; camera_width camera; 3]%nat rays_d;
  if (length mask =? camera_height camera * camera_width camera)%nat then
    Ok (RayPack.mk rays_o rays_d
          (Some (rounded_pixels camera pixel_x)) (Some (rounded_pixels camera pixel_y))
          (Some mask))
  else Raise (RuntimeError "shape is invalid for input size").

(** The loop of [raygen]: one ray pack per sample of the batch. *)
Fixpoint raygen_loop `{Collaborators} (n : nat) (self : state) (camera : Camera)
  (use_spp : bool) : result (state * list RayPack.t) :=
  match n with
  | O => Ok (self, [])
  | S n' =>
      let '(jitter, self) :=
        if use_spp then
          let '(j, spp') := spp_call (spp self) (camera_height camera) (camera_width camera) in
          (Some j, set_spp spp' self)
        else (None, self) in
      next_rays ←
        (if decide (camera_type self = "Pinhole"%string) then _raygen_pinhole camera jitter
         else if decide (camera_type self = "Fisheye"%string) then _raygen_fisheye camera jitter
         else Raise (ValueError ("Unknown camera type: " +:+ camera_type self)));
      '(self, rays) ← raygen_loop n' self camera use_spp;
      Ok (self, next_rays :: rays)
  end.

Definition raygen `{Collaborators} (self : state) (camera : Camera) (use_spp : bool)
  : result (state * RayPack.t) :=
  let ray_batch_size := if negb use_spp then 1 else spp_batch_size (spp self) in
  '(self, rays) ← raygen_loop (Z.to_nat ray_batch_size) self camera use_spp;
  match rays with
  | [] => Raise (IndexError "list index out of range")
  | r0 :: _ =>
      ori ← torch_cat (map RayPack.rays_ori rays);
      dir ← torch_cat (map RayPack.rays_dir rays);
      Ok (self, RayPack.mk ori dir (RayPack.pixel_x r0) (RayPack.pixel_y r0) (RayPack.mask r0))
  end.

Definition cache_last_state (self : state) (camera : Camera) (renderbuffers : RenderBuffers)
  (canvas_size : nat * nat) : result state :=
  match rb_rgb_buffer renderbuffers with
  | None => Raise (KeyError "rgb_buffer")
  | Some rgb_buffer =>
      Ok (set_last_state
            (mkLastState (Some (camera_view_matrix camera))
                         (Some (rb_rgb renderbuffers))
                         (rb_opacity renderbuffers)
                         (Some rgb_buffer)
                         (Some canvas_size))
            self)
  end.

Definition mask_opacity (mask : list bool) (h : Heap) (r : option Ref) : result Heap :=
  match r with
  | Some r => masked_zero_at mask h r
  | None => Raise (RuntimeError "'NoneType' object does not support item assignment")
  end.

(** [render_pass] up to the denoiser: ray generation, the first pass or one
    accumulation step, the copy of the noisy buffer, denoising. *)
Definition render_pass_buffers `{Collaborators} (self : state) (camera : Camera)
  (is_first_pass : bool) : result (state * RayPack.t * RenderBuffers) :=
  let is_use_spp := negb is_first_pass && negb (use_depth_of_field self) && use_spp self in
  '(self, rays) ← raygen self camera is_use_spp;
  '(self, rb) ←
    (if is_first_pass then
       '(self, rgb, opacity) ←
         trace_rays self (RayPack.rays_ori rays) (RayPack.rays_dir rays);
       let rgb := image_map (fun x => tpow x (1 / gamma_correction self)%Q) rgb in
       let rgb := image_mean0 rgb in
       let opacity := image_mean0 opacity in
       let '(rgb_ref, self) := new_buffer rgb self in
       let '(opacity_ref, self) := new_buffer opacity self in
       let self := set_spp (spp_reset_accumulation (spp self)) self in
       let self := set_depth_of_field (dof_reset_accumulation (depth_of_field self)) self in
       Ok (self, mkRenderBuffers rgb_ref (Some opacity_ref) None)
     else
       (* Render accumulated effects, i.e. depth of field *)
       match ls_rgb_buffer (last_state self) with
       | None => Raise (KeyError "rgb_buffer")
       | Some rgb_buffer =>
           let rb := mkRenderBuffers rgb_buffer (ls_opacity (last_state self)) None in
           if use_depth_of_field self then _render_depth_of_field_buffer self rb camera rays
           else if use_spp self then _render_spp_buffer self rb rays
           else Ok (self, rb)
       end);
  (* Keep a noisy version of the accumulated rgb buffer so we don't repeat
     denoising per frame *)
  let rb := mkRenderBuffers (rb_rgb rb) (rb_opacity rb) (Some (rb_rgb rb)) in
  if use_optix_denoiser self then
    noisy ← read (heap self) (rb_rgb rb);
    let '(denoised_ref, self) := new_buffer (denoise noisy) self in
    Ok (self, rays, mkRenderBuffers denoised_ref (rb_opacity rb) (rb_rgb_buffer rb))
  else Ok (self, rays, rb).

(** The three assignments under the mask, in the order of the source. *)
Definition apply_mask (h : Heap) (rays : RayPack.t) (rb : RenderBuffers) : result Heap :=
  match RayPack.mask rays with
  | Some mask =>
      (* mask is for masking away pixels out of view for, i.e. fisheye *)
      h ← masked_zero_at mask h (rb_rgb rb);
      h ← match rb_rgb_buffer rb with
          | Some r => masked_zero_at mask h r
          | None => Raise (KeyError "rgb_buffer")
          end;
      mask_opacity mask h (rb_opacity rb)
  | None => Ok h
  end.

Definition render_pass `{Collaborators} (self : state) (camera : Camera)
  (is_first_pass : bool) : result (state * RenderBuffers) :=
  (* Rendering 3dgrut requires camera to run on cuda device -- avoid crashing *)
  let camera :=
    if decide (camera_device camera = "cpu"%string) then camera_cuda camera else camera in
  '(self, rays, rb) ← render_pass_buffers self camera is_first_pass;
  h ← apply_mask (heap self) rays rb;
  let self := set_heap h self in
  self ← cache_last_state self camera rb (camera_height camera, camera_width camera);
  Ok (self, rb).

Definition invalidate_materials_on_gpu (self : state) : state :=
  set_is_materials_dirty true self.

Definition rebuild_bvh `{Collaborators} (self : state) : result state :=
  let tr := build_gs_acc (tracer self) in
  '(prims, tr) ← Primitives.rebuild_bvh_if_needed (primitives self) tr false true;
  Ok (set_tracer tr (set_primitives prims self)).

Definition did_camera_change (self : state) (camera : Camera) : bool :=
  match ls_camera (last_state self) with
  | None => false
  | Some cached_camera_matrix =>
      negb (Qlist_eqb cached_camera_matrix (camera_view_matrix camera))
  end.

Definition has_cached_buffers (self : state) : bool :=
  bool_decide (ls_rgb (last_state self) <> None)
  && bool_decide (ls_opacity (last_state self) <> None).

(** Which controller's counter an evaluation read. *)
Inductive CounterRead : Type := ReadDepthOfField | ReadSPP.

(** [has_progressive_effects_to_render], evaluated as Python does, left to
    right with short-circuiting [and] and [or]; the second component lists the
    counters that were read. *)
Definition has_progressive_effects_to_render_reads (self : state)
  : bool * list CounterRead :=
  let '(has_dof_buffers_to_render, reads_dof) :=
    if use_depth_of_field self then
      (dof_spp_accumulated_for_frame (depth_of_field self) <=? dof_spp (depth_of_field self),
       [ReadDepthOfField])
    else (false, []) in
  let '(has_spp_buffers_to_render, reads_spp) :=
    if negb (use_depth_of_field self) then
      if use_spp self then
        (spp_spp_accumulated_for_frame (spp self) <=? spp_spp (spp self), [ReadSPP])
      else (false, [])
    else (false, []) in
  (has_dof_buffers_to_render || has_spp_buffers_to_render, reads_dof ++ reads_spp).

Definition has_progressive_effects_to_render (self : state) : bool :=
  (has_progressive_effects_to_render_reads self).1.

Definition is_dirty (self : state) (camera : Camera) : bool :=
  if is_materials_dirty self then true
  else if did_camera_change self camera then true
  else if negb (has_cached_buffers self) then true
  else false.

(** [render]: the first pass, then accumulating passes while the predicate
    holds; [fuel] bounds the number of turns of the loop. *)
Fixpoint render_loop `{Collaborators} (fuel : nat) (self : state) (camera : Camera)
  (renderbuffers : RenderBuffers) : result (state * RenderBuffers) :=
  if has_progressive_effects_to_render self then
    match fuel with
    | O => Raise (RuntimeError "render: out of fuel")
    | S fuel' =>
        '(self, renderbuffers) ← render_pass self camera false;
        render_loop fuel' self camera renderbuffers
    end
  else Ok (self, renderbuffers).

Definition render `{Collaborators} (fuel : nat) (self : state) (camera : Camera)
  : result (state * RenderBuffers) :=
  '(self, renderbuffers) ← render_pass self camera true;
  render_loop fuel self camera renderbuffers.

(** [__init__], given the model that [load_3dgrt_object] returns, the content
    of the assets folder and the two controllers as their constructors make
    them. *)
Definition init `{Collaborators} (scene_mog : MixtureOfGaussians) (scene_name : string)
  (assets : gmap string (option string)) (depth_of_field : DepthOfField) (spp : SPP)
  : result state :=
  let tracer := mkTracer [] 0 in
  let device := mog_device scene_mog in
  hi ← rows_reduce Qmax (mog_positions scene_mog);
  lo ← rows_reduce Qmin (mog_positions scene_mog);
  let scene_scale := vec3_map2 Qminus hi lo in
  let prims := Primitives.init assets false false (Some scene_scale) in
  prims ← Primitives.add_primitive prims "Sphere" GLASS device;
  let self :=
    mk scene_mog scene_name tracer None 0 "Pinhole" 45 false
       depth_of_field true "4x MSAA" spp
       1 15 true prims (mkLastState None None None None None) false [] in
  rebuild_bvh self.

End Engine3DGRUT.

(** ** A small set of collaborators

    Stand-ins for the native parts, simple enough to run: a tracer that paints
    every ray grey, a denoiser that replaces each pixel of a frame by the mean
    of the frame, controllers that count one sample per call, a fisheye whose
    last column is out of view.  The examples below run the engine on them. *)

Module Simple.

Definition pow_int (x g : Q) : Q := Qpower x (Qfloor g).

Definition procedural_mesh (vs : list Vec3) (fs : list Triangle)
  (uvs : list (list (Q * Q))) (device : string) : Mesh :=
  mkMesh vs fs (replicate (length vs) (0, 0, 1)%Q)
         (Some (replicate (length vs) (1, 0, 0)%Q)) uvs (replicate (length fs) 0).

Definition triangle_mesh : Mesh :=
  procedural_mesh [(0, 0, 0)%Q; (1, 0, 0)%Q; (0, 2, 0)%Q] [(0, 1, 2)]
                  [[(0, 0)%Q; (1, 0)%Q; (0, 1)%Q]] "cuda".

(** The rational a finite factor is; the stand-in has no points at infinity
    and takes any other factor for 0. *)
Definition finite_part (x : Float) : Q :=
  match x with Finite q => q | _ => 0%Q end.

Definition affine (tr : ObjectTransform) (vs : list Vec3) : list Vec3 :=
  let '(sx, sy, sz) := scale_factors tr in
  map (fun v => vec3_map2 Qplus
                  (vec3_map2 Qmult (finite_part sx, finite_part sy, finite_part sz) v)
                  (translation tr)) vs.

Definition grey_image (rays : Tensor) (channels : nat) (v : Q) : Image :=
  replicate (hd 0%nat (shape rays))
            (replicate (numel (tail (shape rays)) / 3) (replicate channels v)).

Definition paint (rays_o rays_d : Tensor) : Image * Image :=
  (grey_image rays_o 3 (1 # 2), grey_image rays_o 1 1%Q).

Definition mean_filter (img : Image) : Image :=
  map (fun frame : Frame =>
         match frame with
         | [] => []
         | px :: rest =>
             let total := foldl (zip_with Qplus) px rest in
             let avg := map (fun x => x / inject_Z (Z.of_nat (length frame)))%Q total in
             map (fun _ => avg) frame
         end) img.

Definition pixel_grid (width height : nat) : list Q * list Q :=
  (flat_map (fun row => replicate width (inject_Z (Z.of_nat row) + (1 # 2))%Q) (seq 0 height),
   flat_map (fun _ => map (fun col => inject_Z (Z.of_nat col) + (1 # 2))%Q (seq 0 width))
            (seq 0 height)).

Definition rays_through (pixel_y pixel_x : list Q) : Tensor * Tensor :=
  (mkTensor [length pixel_x; 3%nat] (flat_map (fun _ => [0; 0; 0]%Q) pixel_x),
   mkTensor [length pixel_x; 3%nat]
            (concat (zip_with (fun x y => [x; y; 1%Q]) pixel_x pixel_y))).

(** Out of view: the last column of the canvas. *)
Definition last_column (camera : Camera) (pixel_x : list Q) : list bool :=
  map (fun x => Qle_bool (inject_Z (Z.of_nat (camera_width camera)) - 1) x) pixel_x.

Definition collaborators : Collaborators := {|
  tpow := pow_int;
  load_mesh := fun _ _ => Ok triangle_mesh;
  load_materials := fun _ _ => [];
  load_missing_material_info := fun _ materials _ => materials;
  create_procedural_mesh := procedural_mesh;
  transform_points := affine;
  transform_directions := fun _ vs => vs;
  render_playground := fun _ args =>
    let '(rgb, opacity) := paint (arg_ray_o args) (arg_ray_d args) in
    mkRenderedResults rgb opacity (arg_ray_d args);
  mog_trace := fun _ => paint;
  mog_background_call := fun _ _ rgb opacity => (rgb, opacity);
  denoise := mean_filter;
  spp_has_more_to_accumulate := fun s => spp_spp_accumulated_for_frame s <=? spp_spp s;
  spp_reset_accumulation := fun s => mkSPP (spp_mode s) (spp_spp s) (spp_batch_size s) 0;
  spp_call := fun s h w =>
    (replicate (h * w) (0, 0)%Q,
     mkSPP (spp_mode s) (spp_spp s) (spp_batch_size s) (spp_spp_accumulated_for_frame s + 1));
  dof_has_more_to_accumulate := fun d => dof_spp_accumulated_for_frame d <=? dof_spp d;
  dof_reset_accumulation := fun d =>
    mkDepthOfField (dof_aperture_size d) (dof_focus_z d) (dof_spp d) 0;
  dof_call := fun d _ rays =>
    (RayPack.rays_ori rays, RayPack.rays_dir rays,
     mkDepthOfField (dof_aperture_size d) (dof_focus_z d) (dof_spp d)
                    (dof_spp_accumulated_for_frame d + 1));
  generate_centered_pixel_coords := fun w h _ => pixel_grid w h;
  generate_pinhole_rays := fun _ => rays_through;
  generate_fisheye_rays := fun camera pixel_y pixel_x =>
    (rays_through pixel_y pixel_x, last_column camera pixel_x)
|}.

End Simple.

(** ** Example scenes *)

Definition example_mog : MixtureOfGaussians :=
  mkMog (BackgroundColor [0; 0; 0]%Q) [(0, 0, 0)%Q; (1, 1, 1)%Q] "cuda".

(** The engine as [__init__] leaves it: one glass primitive, antialiasing on. *)
Definition example_engine : result Engine3DGRUT.state :=
  Engine3DGRUT.init (H := Simple.collaborators) example_mog "scene"
    {[ "Sphere"%string := Some "sphere.obj"%string ]}
    (mkDepthOfField (1 # 100) 1 2 0) (mkSPP "msaa" 4 1 0).

(** The settings a viewer changes between passes. *)
Definition configure (camera_type : string) (use_depth_of_field use_spp denoiser : bool)
  (s : Engine3DGRUT.state) : Engine3DGRUT.state :=
  Engine3DGRUT.mk (Engine3DGRUT.scene_mog s) (Engine3DGRUT.scene_name s)
    (Engine3DGRUT.tracer s) (Engine3DGRUT.envmap s) (Engine3DGRUT.frame_id s)
    camera_type (Engine3DGRUT.camera_fov s) use_depth_of_field
    (Engine3DGRUT.depth_of_field s) use_spp (Engine3DGRUT.antialiasing_mode s)
    (Engine3DGRUT.spp s) (Engine3DGRUT.gamma_correction s)
    (Engine3DGRUT.max_pbr_bounces s) denoiser (Engine3DGRUT.primitives s)
    (Engine3DGRUT.last_state s) (Engine3DGRUT.is_materials_dirty s) (Engine3DGRUT.heap s).

(** A canvas of two pixels side by side. *)
Definition cpu_camera : Camera := mkCamera "cpu" 2 1 [1; 0; 0; 0]%Q [1; 0; 0]%Q.

Definition two_rays : Tensor := mkTensor [1; 1; 2; 3]%nat [0; 0; 0; 0; 0; 0]%Q.

Definition blank_engine : Engine3DGRUT.state :=
  Engine3DGRUT.mk example_mog "scene" (mkTracer [] 0) None 0 "Pinhole" 45 false
    (mkDepthOfField (1 # 100) 1 2 0) true "4x MSAA" (mkSPP "msaa" 4 1 0) 1 15 true
    (Primitives.init ∅ false false None)
    (Engine3DGRUT.mkLastState None None None None None) false [].

(** [example_engine], which does return. *)
Definition started_engine : Engine3DGRUT.state :=
  match example_engine with Ok s => s | Raise _ => blank_engine end.

(** Fisheye camera, both progressive effects off, denoiser on. *)
Definition fisheye_engine : Engine3DGRUT.state :=
  configure "Fisheye" false false true started_engine.

Fixpoint image_eqb (a b : Image) : bool :=
  match a, b with
  | [], [] => true
  | fa :: a', fb :: b' =>
      (fix frame_eqb (x y : Frame) : bool :=
         match x, y with
         | [], [] => true
         | px :: x', py :: y' => Qlist_eqb px py && frame_eqb x' y'
         | _, _ => false
         end) fa fb && image_eqb a' b'
  | _, _ => false
  end.

(** A first pass, then one more pass once nothing is left to accumulate: the
    predicate after the first pass, what either pass displays, whether the two
    displays agree, and what the cached noisy buffer holds after either. *)
Definition converged_run : result (bool * Image * Image * bool * Image * Image) :=
  '(s1, rb1) ← Engine3DGRUT.render_pass (H := Simple.collaborators)
                 fisheye_engine cpu_camera true;
  shown1 ← read (Engine3DGRUT.heap s1) (Engine3DGRUT.rb_rgb rb1);
  noisy1 ← read (Engine3DGRUT.heap s1) (default 0%nat (Engine3DGRUT.rb_rgb_buffer rb1));
  '(s2, rb2) ← Engine3DGRUT.render_pass (H := Simple.collaborators) s1 cpu_camera false;
  shown2 ← read (Engine3DGRUT.heap s2) (Engine3DGRUT.rb_rgb rb2);
  noisy2 ← read (Engine3DGRUT.heap s2) (default 0%nat (Engine3DGRUT.rb_rgb_buffer rb2));
  Ok (Engine3DGRUT.has_progressive_effects_to_render s1,
      image_map Qred shown1, image_map Qred shown2, image_eqb shown1 shown2,
      image_map Qred noisy1, image_map Qred noisy2).

(** ** Vocabulary of the properties *)

Definition is_flat (p : RayPack.t) : Prop :=
  ndim (RayPack.rays_ori p) = 2%nat /\ ndim (RayPack.rays_dir p) = 2%nat.

Definition well_shaped (t : Tensor) : Prop := length (data t) = numel (shape t).

(** The chunk at position [i] of a split of [n] rays by [size]. *)
Definition chunk_of (t : Tensor) (size i : nat) : Tensor :=
  let n := hd 0%nat (shape t) in
  let stride := numel (tail (shape t)) in
  mkTensor (Nat.min size (n - i * size) :: tail (shape t))
           (take (Nat.min size (n - i * size) * stride) (drop (i * size * stride) (data t))).

(** Three rays in a flat pack, split two by two. *)
Definition three_rays : RayPack.t :=
  RayPack.mk (mkTensor [3; 3]%nat [0; 0; 0; 0; 0; 0; 0; 0; 0]%Q)
             (mkTensor [3; 3]%nat [1; 0; 0; 0; 1; 0; 0; 0; 1]%Q)
             None None (Some [false; false; true]).

(** Largest axis extent of the bounding box of the vertices. *)
Definition mesh_extent (vs : list Vec3) : result Q :=
  hi ← rows_reduce Qmax vs;
  lo ← rows_reduce Qmin vs;
  Ok (vec3_max (vec3_map2 Qminus hi lo)).

(** The same float: equal rationals, or the same infinity, or both not a
    number. *)
Definition float_eq (a b : Float) : Prop :=
  match a, b with
  | Finite x, Finite y => (x == y)%Q
  | PosInf, PosInf | NegInf, NegInf | NaN, NaN => True
  | _, _ => False
  end.

Definition factors_eq (a b : Float * Float * Float) : Prop :=
  let '(ax, ay, az) := a in
  let '(bx, by', bz) := b in
  float_eq ax bx /\ float_eq ay by' /\ float_eq az bz.

Definition transform_eq (a b : ObjectTransform) : Prop :=
  transform_device a = transform_device b /\ translation a = translation b /\
  rotation a = rotation b /\ factors_eq (scale_factors a) (scale_factors b).

Definition two_vertex_mesh : Mesh :=
  mkMesh [(0, 0, 0)%Q; (2, 1, 1)%Q] [] [] None [] [].

(** All vertices at one point: a bounding box of extent zero. *)
Definition one_point_mesh : Mesh :=
  mkMesh [(1, 1, 1)%Q; (1, 1, 1)%Q] [] [] None [] [].

Definition unit_scene : Primitives.state :=
  Primitives.init ∅ false false None.

Definition material_key (model_name : string) (mat : MaterialDict) : string :=
  (model_name +:+ "$" +:+ mat_material_name mat)%string.

#[global] Arguments material_key : simpl never.

(** Every id is below the size of the registry and no two keys share one. *)
Definition ids_wf (reg : gmap string PBRMaterial) : Prop :=
  (forall k m, reg !! k = Some m -> 0 <= material_id m < Z.of_nat (size reg)) /\
  (forall k1 k2 m1 m2, reg !! k1 = Some m1 -> reg !! k2 = Some m2 ->
     material_id m1 = material_id m2 -> k1 = k2).

(** Registries the code can build: the defaults, grown by registrations. *)
Inductive registry_reachable : gmap string PBRMaterial -> Prop :=
| reachable_default device :
    registry_reachable (Primitives.register_default_materials device)
| reachable_register reg materials model_name :
    registry_reachable reg ->
    registry_reachable (Primitives.register_materials_loop model_name reg materials).1.

Definition fresh_material (reg : gmap string PBRMaterial) (mat : MaterialDict) : PBRMaterial :=
  mkPBRMaterial (Z.of_nat (size reg))
    (mat_diffuse_map mat) (mat_emissive_map mat)
    (mat_metallic_roughness_map mat) (mat_normal_map mat)
    (mat_diffuse_factor mat) (mat_emissive_factor mat)
    (mat_metallic_factor mat) (mat_roughness_factor mat)
    (mat_alpha_mode mat) (mat_alpha_cutoff mat)
    (mat_transmission_factor mat) (mat_ior mat).

Definition plain_material (name : string) : MaterialDict :=
  mkMaterialDict name None None None None [1; 1; 1; 1]%Q [0; 0; 0]%Q 0 1 0 (1 # 2) 0 1.

(** What [add_primitive] stores: every optional field a rebuild reads is set,
    and the geometry type has a counter. *)
Definition wf_primitive (counter : gmap string Z) (p : OptixPrimitive) : Prop :=
  is_Some (transform p) /\ is_Some (primitive_type p) /\ is_Some (refractive_index p) /\
  is_Some (material_uv p) /\ is_Some (prim_material_id p) /\
  exists g, geometry_type p = Some g /\ is_Some (counter !! g).

Definition registry_wf (self : Primitives.state) : Prop :=
  Forall (wf_primitive (Primitives.instance_counter self))
         (dict_values (Primitives.objects self)).

(** The fields a transformed and re-derived copy shares with its source. *)
Definition same_tags (p q : OptixPrimitive) : Prop :=
  primitive_type q = primitive_type p /\ material_uv q = material_uv p /\
  prim_material_id q = prim_material_id p /\ refractive_index q = refractive_index p.

Definition quad_scene : result (Primitives.state * Tracer) :=
  s ← Primitives.add_primitive (H := Simple.collaborators) unit_scene "Quad" GLASS "cuda";
  Primitives.rebuild_bvh_if_needed (H := Simple.collaborators) s (mkTracer [] 0) false true.

(** Build counts after a mutator and after the [rebuild_bvh_if_needed]
    without [force] that follows it. *)
Definition builds_after
  (mutator : Primitives.state -> Tracer -> result (Primitives.state * Tracer))
  : result (nat * nat * nat) :=
  '(s0, t0) ← quad_scene;
  '(s1, t1) ← mutator s0 t0;
  '(s2, t2) ← Primitives.rebuild_bvh_if_needed (H := Simple.collaborators) s1 t1 false true;
  Ok (rebuild_count t0, rebuild_count t1, rebuild_count t2).

Definition quad_state : Primitives.state :=
  match quad_scene with Ok (s, _) => s | Raise _ => unit_scene end.

Definition quad_tracer : Tracer :=
  match quad_scene with Ok (_, t) => t | Raise _ => mkTracer [] 0 end.





(** The camera [render_pass] works with. *)
Definition on_cuda (camera : Camera) : Camera :=
  if decide (camera_device camera = "cpu"%string) then camera_cuda camera else camera.




Definition or_else {A} (m : result A) (a : A) : A :=
  match m with Ok x => x | Raise _ => a end.

Definition bare_scene : Primitives.state :=
  Primitives.mk ∅ true [] true false false false false false (1, 1, 1)%Q None true ∅ ∅.

(** One glass quad added, before and after the first rebuild. *)
Definition one_quad : Primitives.state :=
  or_else (Primitives.add_primitive (H := Simple.collaborators) bare_scene "Quad" GLASS "cuda")
          bare_scene.

Definition built_quad : Primitives.state * Tracer :=
  or_else (Primitives.rebuild_bvh_if_needed (H := Simple.collaborators) one_quad
             (mkTracer [] 0) false true)
          (bare_scene, mkTracer [] 0).

Definition no_quad : Primitives.state * Tracer :=
  or_else (Primitives.remove_primitive (H := Simple.collaborators) one_quad (mkTracer [] 0)
             "Quad 1")
          (bare_scene, mkTracer [] 0).

Definition next_quad : Primitives.state :=
  or_else (Primitives.add_primitive (H := Simple.collaborators) no_quad.1 "Quad" MIRROR "cuda")
          bare_scene.

(** An engine on the built one-quad scene: pinhole camera, antialiasing and
    denoiser on, nothing cached. *)
Definition bare_engine : Engine3DGRUT.state :=
  Engine3DGRUT.mk example_mog "scene" built_quad.2 None 0 "Pinhole" 45 false
    (mkDepthOfField (1 # 100) 1 2 0) true "4x MSAA" (mkSPP "msaa" 4 1 0) 1 15 true
    built_quad.1 (Engine3DGRUT.mkLastState None None None None None) false [].

(** The same engine drawing two antialiasing samples per pass. *)
Definition batch_engine : Engine3DGRUT.state :=
  Engine3DGRUT.set_spp (mkSPP "msaa" 4 2 0) bare_engine.

(** The same engine once its only primitive is removed. *)
Definition empty_engine : Engine3DGRUT.state :=
  Engine3DGRUT.set_tracer no_quad.2 (Engine3DGRUT.set_primitives no_quad.1 bare_engine).

(** Every index of every triangle lies in [lo, hi). *)
Definition triangles_within (lo hi : Z) (ts : list Triangle) : Prop :=
  Forall (fun tri : Triangle =>
            let '(a, b, c) := tri in lo <= a < hi /\ lo <= b < hi /\ lo <= c < hi) ts.

(** The triangles of a primitive index its own vertices. *)
Definition indexes_own_vertices (p : OptixPrimitive) : Prop :=
  triangles_within 0 (Z.of_nat (length (vertices p))) (triangles p).

Definition total_vertices (ps : list OptixPrimitive) : nat :=
  foldr (fun p acc => (length (vertices p) + acc)%nat) 0%nat ps.

Definition total_triangles (ps : list OptixPrimitive) : nat :=
  foldr (fun p acc => (length (triangles p) + acc)%nat) 0%nat ps.

(** The vertex an index points at; an index outside the buffer points at
    none. *)
Definition vertex_at (vs : list Vec3) (i : Z) : option Vec3 :=
  if 0 <=? i then vs !! Z.to_nat i else None.

(** The three corners of a triangle, looked up in a vertex buffer. *)
Definition corners (vs : list Vec3) (tri : Triangle)
  : option Vec3 * option Vec3 * option Vec3 :=
  let '(a, b, c) := tri in (vertex_at vs a, vertex_at vs b, vertex_at vs c).

Definition tri_prim : OptixPrimitive :=
  mkOptixPrimitive (Some "Tri"%string) [(0, 0, 0)%Q; (1, 0, 0)%Q; (0, 1, 0)%Q] [(0, 1, 2)]
    [(0, 0, 1)%Q; (0, 0, 1)%Q; (0, 0, 1)%Q] [true; true; true]
    [(1, 0, 0)%Q; (1, 0, 0)%Q; (1, 0, 0)%Q] (Some [[(0, 0)%Q; (1, 0)%Q; (0, 1)%Q]])
    (Some [0]) (Some GLASS) [2] [0%Q] (Some (133 # 100)%Q) [(133 # 100)%Q]
    (Some (identity_transform "cuda")).

(** Per-face arrays as the re-derivation leaves them. *)
Definition face_tensors_rederived (q : OptixPrimitive) : Prop :=
  exists ty ri,
    primitive_type q = Some ty /\
    primitive_type_tensor q = replicate (length (triangles q)) (primitive_type_value ty) /\
    refractive_index_tensor q = replicate (length (triangles q)) ri.

(** The name [add_primitive] and [duplicate_primitive] give the instance
    number [n] of a geometry type. *)
Definition instance_name (gtype : string) (n : Z) : string :=
  (gtype +:+ " " +:+ pretty n)%string.

(** The counter of a geometry type, 0 when it has none yet. *)
Definition instances_so_far (self : Primitives.state) (gtype : string) : Z :=
  default 0 (Primitives.instance_counter self !! gtype).

(** Every object's name is an instance name of its geometry type, numbered at
    most by the counter of that type; no name is held twice. *)
Definition names_numbered (self : Primitives.state) : Prop :=
  NoDup (map fst (Primitives.objects self)) /\
  forall name p, dict_get name (Primitives.objects self) = Some p ->
    exists g n, geometry_type p = Some g /\ name = instance_name g n /\
                n <= instances_so_far self g.

Fixpoint has_space (s : string) : bool :=
  match s with
  | EmptyString => false
  | String c s' => bool_decide (c = " "%char) || has_space s'
  end.

(** The primitive [add_primitive] stores: type tags as asked, the default
    refractive index, per-face arrays of the length of the face array.  The
    per-face refraction array is filled through the integer face array, so it
    holds the default index cut down to an integer, 1, until a rebuild
    re-derives it. *)
Definition new_primitive (gtype : string) (ptype : OptixPrimitiveTypes)
  (p : OptixPrimitive) : Prop :=
  geometry_type p = Some gtype /\
  primitive_type p = Some ptype /\
  refractive_index p = Some Primitives.DEFAULT_REFRACTIVE_INDEX /\
  primitive_type_tensor p = replicate (length (triangles p)) (primitive_type_value ptype) /\
  refractive_index_tensor p = replicate (length (triangles p)) 1%Q /\
  reflectance_scatter p = replicate (length (triangles p)) 0%Q /\
  length (has_tangents p) = length (vertices p) /\
  is_Some (transform p) /\ is_Some (material_uv p) /\ is_Some (prim_material_id p).

(** The number [add_primitive] gives the next instance of a geometry type. *)
Definition next_instance (self : Primitives.state) (g : string) : Z :=
  match Primitives.instance_counter self !! g with
  | None => 1
  | Some c => c + 1
  end.

(** The id belongs to a material of the registry. *)
Definition registered_id (reg : gmap string PBRMaterial) (a : Z) : Prop :=
  exists k m, reg !! k = Some m /\ material_id m = a.

Definition two_material_mesh : Mesh :=
  mkMesh [(0, 0, 0)%Q; (1, 0, 0)%Q; (0, 2, 0)%Q; (1, 2, 0)%Q] [(0, 1, 2); (2, 1, 3); (0, 2, 3)]
         (replicate 4 (0, 0, 1)%Q) (Some (replicate 4 (1, 0, 0)%Q))
         (replicate 3 [(0, 0)%Q; (1, 0)%Q; (0, 1)%Q]) [1; 0; -1].

(** [Simple.collaborators] with a mesh loader whose mesh names two materials. *)
Definition textured : Collaborators :=
  let c := Simple.collaborators in
  {| tpow := @tpow c;
     load_mesh := fun _ _ => Ok two_material_mesh;
     load_materials := fun _ _ => [plain_material "red"; plain_material "blue"];
     load_missing_material_info := @load_missing_material_info c;
     create_procedural_mesh := @create_procedural_mesh c;
     transform_points := @transform_points c;
     transform_directions := @transform_directions c;
     render_playground := @render_playground c;
     mog_trace := @mog_trace c;
     mog_background_call := @mog_background_call c;
     denoise := @denoise c;
     spp_has_more_to_accumulate := @spp_has_more_to_accumulate c;
     spp_reset_accumulation := @spp_reset_accumulation c;
     spp_call := @spp_call c;
     dof_has_more_to_accumulate := @dof_has_more_to_accumulate c;
     dof_reset_accumulation := @dof_reset_accumulation c;
     dof_call := @dof_call c;
     generate_centered_pixel_coords := @generate_centered_pixel_coords c;
     generate_pinhole_rays := @generate_pinhole_rays c;
     generate_fisheye_rays := @generate_fisheye_rays c |}.

Definition asset_scene : Primitives.state :=
  Primitives.mk {[ "Sphere"%string := Some "sphere.obj"%string ]} true [] true false false
                false false false (1, 1, 1)%Q None true ∅ ∅.

(** What the viewer configures: a pass never writes these. *)
Definition same_settings (s s' : Engine3DGRUT.state) : Prop :=
  Engine3DGRUT.scene_mog s' = Engine3DGRUT.scene_mog s /\
  Engine3DGRUT.scene_name s' = Engine3DGRUT.scene_name s /\
  Engine3DGRUT.envmap s' = Engine3DGRUT.envmap s /\
  Engine3DGRUT.camera_type s' = Engine3DGRUT.camera_type s /\
  Engine3DGRUT.camera_fov s' = Engine3DGRUT.camera_fov s /\
  Engine3DGRUT.use_depth_of_field s' = Engine3DGRUT.use_depth_of_field s /\
  Engine3DGRUT.use_spp s' = Engine3DGRUT.use_spp s /\
  Engine3DGRUT.antialiasing_mode s' = Engine3DGRUT.antialiasing_mode s /\
  Engine3DGRUT.gamma_correction s' = Engine3DGRUT.gamma_correction s /\
  Engine3DGRUT.max_pbr_bounces s' = Engine3DGRUT.max_pbr_bounces s /\
  Engine3DGRUT.use_optix_denoiser s' = Engine3DGRUT.use_optix_denoiser s.

(** Every entry of the image lies in [0, 1]. *)
Definition in_unit_range (img : Image) : Prop :=
  Forall (Forall (Forall (fun x => 0 <= x <= 1)%Q)) img.

(** One sample's ray pack for a canvas of [h] by [w] pixels: origins and
    directions of shape (1, h, w, 3), and the mask the camera model gives. *)
Definition sample_pack (camera_type : string) (h w : nat) (p : RayPack.t) : Prop :=
  shape (RayPack.rays_ori p) = [1; h; w; 3]%nat /\ well_shaped (RayPack.rays_ori p) /\
  shape (RayPack.rays_dir p) = [1; h; w; 3]%nat /\ well_shaped (RayPack.rays_dir p) /\
  (camera_type = "Pinhole"%string -> RayPack.mask p = None) /\
  (camera_type = "Fisheye"%string ->
   exists m, RayPack.mask p = Some m /\ length m = (h * w)%nat).

(** The number of samples [raygen] draws. *)
Definition ray_batch_size (self : Engine3DGRUT.state) (use_spp : bool) : nat :=
  Z.to_nat (if negb use_spp then 1 else spp_batch_size (Engine3DGRUT.spp self)).

(** No surface primitive takes part: the registry is disabled or holds no
    visible object. *)
Definition volumetric_only (s : Engine3DGRUT.state) : Prop :=
  negb (Primitives.enabled (Engine3DGRUT.primitives s))
  || negb (Primitives.has_visible_objects (Engine3DGRUT.primitives s)) = true.

(** The part of the engine only a hybrid trace writes. *)
Definition same_tracing_state (s s' : Engine3DGRUT.state) : Prop :=
  Engine3DGRUT.frame_id s' = Engine3DGRUT.frame_id s /\
  Engine3DGRUT.tracer s' = Engine3DGRUT.tracer s /\
  Engine3DGRUT.primitives s' = Engine3DGRUT.primitives s /\
  Engine3DGRUT.is_materials_dirty s' = Engine3DGRUT.is_materials_dirty s.

(** What the stages of a pass before the caching keep. *)
Definition pass_frame (s s' : Engine3DGRUT.state) : Prop :=
  same_settings s s' /\
  Engine3DGRUT.last_state s' = Engine3DGRUT.last_state s /\
  (volumetric_only s -> same_tracing_state s s').

(** * Properties *)

(** ** RayPack.split *)

Lemma split_rows_data fuel size n stride rest d :
  (0 < size)%nat -> (n < fuel)%nat -> length d = (n * stride)%nat ->
  concat (map data (split_rows fuel size n stride rest d)) = d.
Proof.
  revert n d. induction fuel as [|fuel IH]; intros n d Hs Hn Hd; [lia|].
  simpl. destruct (Nat.leb_spec n size) as [Hle|Hgt].
  - simpl. rewrite app_nil_r. apply take_ge. rewrite Nat.min_r by lia. lia.
  - simpl. rewrite IH.
    + apply take_drop.
    + lia.
    + lia.
    + rewrite length_drop, Hd, Nat.min_l by lia. nia.
Qed.

Lemma split_rows_shapes fuel size n stride rest d :
  (0 < size)%nat -> (n < fuel)%nat ->
  Forall (fun c => exists r, shape c = r :: rest /\ (r <= size)%nat)
         (split_rows fuel size n stride rest d).
Proof.
  revert n d. induction fuel as [|fuel IH]; intros n d Hs Hn; [lia|].
  simpl. constructor.
  - exists (Nat.min size n). split; [reflexivity|lia].
  - destruct (Nat.leb_spec n size); [constructor|]. apply IH; lia.
Qed.

Lemma split_rows_length fuel size n stride rest d :
  (0 < size)%nat -> (n < fuel)%nat ->
  length (split_rows fuel size n stride rest d)
  = Nat.max 1 ((n + size - 1) / size).
Proof.
  revert n d. induction fuel as [|fuel IH]; intros n d Hs Hn; [lia|].
  simpl. destruct (Nat.leb_spec n size) as [Hle|Hgt].
  - simpl. assert ((n + size - 1) / size <= 1)%nat; [|lia].
    destruct (Nat.eq_dec n 0%nat) as [->|Hn0].
    + rewrite Nat.div_small; lia.
    + enough ((n + size - 1) / size < 2)%nat by lia.
      apply Nat.Div0.div_lt_upper_bound. lia.
  - simpl. rewrite IH by lia.
    replace (n + size - 1)%nat with ((n - size + size - 1) + 1 * size)%nat by lia.
    rewrite Nat.div_add by lia.
    assert (1 <= (n - size + size - 1) / size)%nat; [|lia].
    apply Nat.div_le_lower_bound; lia.
Qed.

Lemma split_rows_lookup fuel size n stride rest d i c :
  (0 < size)%nat -> (n < fuel)%nat ->
  split_rows fuel size n stride rest d !! i = Some c ->
  c = mkTensor (Nat.min size (n - i * size) :: rest)
               (take (Nat.min size (n - i * size) * stride) (drop (i * size * stride) d)).
Proof.
  revert n d i. induction fuel as [|fuel IH]; intros n d i Hs Hn Hc; [lia|].
  simpl in Hc. destruct i as [|i].
  - simpl in Hc. injection Hc as <-. simpl. rewrite Nat.sub_0_r. reflexivity.
  - simpl in Hc. destruct (Nat.leb_spec n size) as [Hle|Hgt]; [discriminate|].
    apply IH in Hc; [|lia|lia]. subst c. rewrite drop_drop.
    rewrite (Nat.min_l size n) by lia.
    replace (n - size - i * size)%nat with (n - S i * size)%nat by lia.
    replace (size * stride + i * size * stride)%nat with (S i * size * stride)%nat by lia.
    reflexivity.
Qed.

Lemma torch_split_ok (t : Tensor) (size : Z) n rest :
  0 < size -> shape t = n :: rest ->
  torch_split t size
  = Ok (split_rows (S n) (Z.to_nat size) n (numel rest) rest (data t)).
Proof.
  intros Hs Hsh. unfold torch_split. rewrite Hsh.
  destruct (Z.ltb_spec size 0); [lia|]. destruct (Z.eqb_spec size 0); [lia|]. reflexivity.
Qed.

Lemma ndim_2_inv (t : Tensor) : ndim t = 2%nat -> exists n c, shape t = [n; c].
Proof.
  unfold ndim. destruct (shape t) as [|n [|c [|]]]; simpl; try discriminate. eauto.
Qed.

Lemma is_flat_test (p : RayPack.t) :
  (ndim (RayPack.rays_ori p) =? 2)%nat && (ndim (RayPack.rays_dir p) =? 2)%nat = true
  <-> is_flat p.
Proof.
  unfold is_flat. rewrite andb_true_iff, !Nat.eqb_eq. reflexivity.
Qed.

Lemma map_zip_with_fst {A B C D} (f : C -> D) (g : A -> B -> C) (h : A -> D) l1 l2 :
  (forall a b, f (g a b) = h a) -> length l1 = length l2 ->
  map f (zip_with g l1 l2) = map h l1.
Proof.
  intros Hfg. revert l2. induction l1 as [|a l1 IH]; intros [|b l2] Hl;
    simpl in *; try discriminate; [reflexivity|].
  rewrite Hfg. f_equal. apply IH. lia.
Qed.

Lemma map_zip_with_snd {A B C D} (f : C -> D) (g : A -> B -> C) (h : B -> D) l1 l2 :
  (forall a b, f (g a b) = h b) -> length l1 = length l2 ->
  map f (zip_with g l1 l2) = map h l2.
Proof.
  intros Hfg. revert l2. induction l1 as [|a l1 IH]; intros [|b l2] Hl;
    simpl in *; try discriminate; [reflexivity|].
  rewrite Hfg. f_equal. apply IH. lia.
Qed.

(** C9.  Whatever the chunk size, [split] raises its assertion exactly when
    the pack is not flat.  With a positive chunk size it raises at all exactly
    when the pack is not flat; on a flat pack it returns, and when the two ray
    arrays have the same shape it returns ceil(n / size) chunks (one, empty,
    when there is no ray), chunk [i] holding rays [i * size] up to
    [min (n, (i + 1) * size)] of both arrays, so that the chunks put end to
    end give back the rays of the pack. *)
Theorem split_flat_or_raise (p : RayPack.t) (size : Z) :
  (RayPack.split p (Some size) = Raise (AssertionError RayPack.only_flat_msg)
   <-> ~ is_flat p) /\
  (0 < size ->
   (raises (RayPack.split p (Some size)) <-> ~ is_flat p) /\
   (is_flat p ->
    shape (RayPack.rays_ori p) = shape (RayPack.rays_dir p) ->
    well_shaped (RayPack.rays_ori p) -> well_shaped (RayPack.rays_dir p) ->
    exists chunks,
      RayPack.split p (Some size) = Ok chunks /\
      length chunks
      = Nat.max 1 ((hd 0%nat (shape (RayPack.rays_ori p)) + Z.to_nat size - 1)
                   / Z.to_nat size) /\
      (forall i c, chunks !! i = Some c ->
         c = RayPack.mk (chunk_of (RayPack.rays_ori p) (Z.to_nat size) i)
                        (chunk_of (RayPack.rays_dir p) (Z.to_nat size) i)
                        None None None) /\
      concat (map (fun c => data (RayPack.rays_ori c)) chunks) = data (RayPack.rays_ori p) /\
      concat (map (fun c => data (RayPack.rays_dir c)) chunks)
      = data (RayPack.rays_dir p))).
Proof.
  assert (Hnot : ~ is_flat p ->
    RayPack.split p (Some size) = Raise (AssertionError RayPack.only_flat_msg)).
  { intros Hnf. unfold RayPack.split.
    destruct ((ndim (RayPack.rays_ori p) =? 2)%nat && (ndim (RayPack.rays_dir p) =? 2)%nat)
      eqn:E; [|reflexivity].
    apply is_flat_test in E. contradiction. }
  assert (Hflat : is_flat p ->
    RayPack.split p (Some size)
    = (rays_orig ← torch_split (RayPack.rays_ori p) size;
       rays_dir' ← torch_split (RayPack.rays_dir p) size;
       Ok (zip_with (fun o d => RayPack.mk o d None None None) rays_orig rays_dir'))).
  { intros Hf. unfold RayPack.split. apply is_flat_test in Hf. rewrite Hf. reflexivity. }
  assert (Hpos : 0 < size -> is_flat p ->
    exists n co n' cd,
      shape (RayPack.rays_ori p) = [n; co] /\ shape (RayPack.rays_dir p) = [n'; cd] /\
      RayPack.split p (Some size)
      = Ok (zip_with (fun o d => RayPack.mk o d None None None)
              (split_rows (S n) (Z.to_nat size) n (numel [co]) [co] (data (RayPack.rays_ori p)))
              (split_rows (S n') (Z.to_nat size) n' (numel [cd]) [cd]
                          (data (RayPack.rays_dir p))))).
  { intros Hsize Hf. rewrite (Hflat Hf). destruct Hf as [Ho Hd].
    apply ndim_2_inv in Ho as (n & co & Ho). apply ndim_2_inv in Hd as (n' & cd & Hd).
    exists n, co, n', cd. split; [exact Ho|]. split; [exact Hd|].
    rewrite (torch_split_ok _ _ n [co] Hsize Ho), (torch_split_ok _ _ n' [cd] Hsize Hd).
    reflexivity. }
  split.
  - split; [|exact Hnot]. intros Hraise Hf. rewrite (Hflat Hf) in Hraise.
    unfold torch_split in Hraise.
    repeat match type of Hraise with
           | context [match ?x with _ => _ end] => destruct x; simpl in Hraise
           end; discriminate.
  - intros Hsize. split.
    + split.
      * intros [e He] Hf. destruct (Hpos Hsize Hf) as (n & co & n' & cd & _ & _ & Hok).
        congruence.
      * intros Hnf. eexists. apply Hnot, Hnf.
    + intros Hf Hshape Hwo Hwd.
      destruct (Hpos Hsize Hf) as (n & co & n' & cd & Ho & Hd & Hok).
      assert (n' = n /\ cd = co) as [-> ->] by (rewrite Ho, Hd in Hshape; split; congruence).
      assert (Hp : (0 < Z.to_nat size)%nat) by lia.
      eexists. split; [exact Hok|]. split; [|split; [|split]].
      * rewrite length_zip_with, !split_rows_length by lia. rewrite Ho. simpl. lia.
      * intros i c Hc. apply lookup_zip_with_Some in Hc as (o & d & -> & Hi & Hj).
        apply split_rows_lookup in Hi; [|lia|lia]. apply split_rows_lookup in Hj; [|lia|lia].
        subst o d. unfold chunk_of. rewrite Ho, Hd. reflexivity.
      * rewrite (map_zip_with_fst _ _ data) by
          (try reflexivity; rewrite !split_rows_length by lia; reflexivity).
        apply split_rows_data; [lia|lia|]. rewrite Hwo, Ho. simpl. lia.
      * rewrite (map_zip_with_snd _ _ data) by
          (try reflexivity; rewrite !split_rows_length by lia; reflexivity).
        apply split_rows_data; [lia|lia|]. rewrite Hwd, Hd. simpl. lia.
Qed.

Lemma split_flat_or_raise_witness :
  exists chunks,
    RayPack.split three_rays (Some 2) = Ok chunks /\ length chunks = 2%nat /\
    concat (map (fun c => data (RayPack.rays_dir c)) chunks)
    = [1; 0; 0; 0; 1; 0; 0; 0; 1]%Q.
Proof.
  destruct (split_flat_or_raise three_rays 2) as (_ & Hpos).
  destruct Hpos as (_ & Hflat); [lia|].
  destruct Hflat as (chunks & Hrun & Hlen & _ & _ & Hdir);
    [split; reflexivity|reflexivity|reflexivity|reflexivity|].
  exists chunks. split; [exact Hrun|]. split; [exact Hlen|exact Hdir].
Defined.

(** A pack as [raygen] makes it, of shape (1, 1, 2, 3), is refused. *)
Lemma split_image_shaped_pack_raises :
  RayPack.split (RayPack.mk (mkTensor [1; 1; 2; 3]%nat [0; 0; 0; 0; 0; 0]%Q)
                            (mkTensor [1; 1; 2; 3]%nat [0; 0; 1; 0; 0; 1]%Q)
                            None None None) (Some 1)
  = Raise (AssertionError "Only 1D ray packs can be split").
Proof. reflexivity. Qed.

(** ** Primitives.set_mesh_scale_to_scene *)

Lemma Qmax_scale (c a b : Q) : (0 <= c)%Q -> (Qmax (c * a) (c * b) == c * Qmax a b)%Q.
Proof.
  intros Hc. apply (Q.max_mono (fun x => c * x)%Q).
  - intros x y Hxy. rewrite Hxy. reflexivity.
  - intros x y Hxy. rewrite (Qmult_comm c x), (Qmult_comm c y).
    apply Qmult_le_compat_r; assumption.
Qed.

Lemma vec3_max_scale (c : Q) (v : Vec3) :
  (0 <= c)%Q -> (vec3_max (vec3_scale c v) == c * vec3_max v)%Q.
Proof.
  intros Hc. destruct v as [[x y] z]. simpl.
  rewrite <- !Qmax_scale by assumption. reflexivity.
Qed.

Lemma Qgtb_true (a b : Q) : Qgtb a b = true <-> (b < a)%Q.
Proof.
  unfold Qgtb. rewrite negb_true_iff. split.
  - intros H. apply Qnot_le_lt. intros Hle. apply Qle_bool_iff in Hle. congruence.
  - intros H. destruct (Qle_bool a b) eqn:E; [|reflexivity].
    apply Qle_bool_iff in E. exfalso. exact (Qlt_not_le _ _ H E).
Qed.

Lemma Qgtb_false (a b : Q) : Qgtb a b = false <-> (a <= b)%Q.
Proof.
  unfold Qgtb. rewrite negb_false_iff. apply Qle_bool_iff.
Qed.

Lemma signed_inf_Qeq (c d : Q) :
  (c == d)%Q -> signed_inf (Qnum c) = signed_inf (Qnum d) /\
                signed_inf (- Qnum c) = signed_inf (- Qnum d).
Proof.
  unfold Qeq. destruct (Qnum c), (Qnum d); simpl; intros Heq;
    try (split; reflexivity); discriminate Heq.
Qed.

Lemma float_mul_signed_inf (a : Q) (z : Z) :
  float_mul (Finite a) (signed_inf z) = signed_inf (Qnum a * z).
Proof. destruct a as [[|n|n] d], z; reflexivity. Qed.

(** Two finite factors in a row are one. *)
Lemma float_mul_finite_twice (a b c : Q) (x : Float) :
  (c == a * b)%Q ->
  float_eq (float_mul (Finite a) (float_mul (Finite b) x)) (float_mul (Finite c) x).
Proof.
  intros Hc. destruct (signed_inf_Qeq _ _ Hc) as [Hpos Hneg].
  assert (Hrefl : forall y, float_eq y y) by (intros [y| | |]; simpl; [reflexivity|exact I..]).
  destruct x as [q| | |].
  - simpl. rewrite Hc. ring.
  - change (float_eq (float_mul (Finite a) (signed_inf (Qnum b))) (signed_inf (Qnum c))).
    rewrite float_mul_signed_inf, Hpos. apply Hrefl.
  - change (float_eq (float_mul (Finite a) (signed_inf (- Qnum b))) (signed_inf (- Qnum c))).
    rewrite float_mul_signed_inf, Hneg, Z.mul_opp_r. apply Hrefl.
  - exact I.
Qed.

Lemma float_mul_finite_eq (a a' : Q) (x : Float) :
  (a == a')%Q -> float_eq (float_mul (Finite a) x) (float_mul (Finite a') x).
Proof.
  intros Ha. destruct (signed_inf_Qeq _ _ Ha) as [Hpos Hneg].
  assert (Hrefl : forall y, float_eq y y) by (intros [y| | |]; simpl; [reflexivity|exact I..]).
  destruct x as [q| | |].
  - simpl. rewrite Ha. reflexivity.
  - change (float_eq (signed_inf (Qnum a)) (signed_inf (Qnum a'))). rewrite Hpos. apply Hrefl.
  - change (float_eq (signed_inf (- Qnum a)) (signed_inf (- Qnum a'))).
    rewrite Hneg. apply Hrefl.
  - exact I.
Qed.

Lemma transform_scale_twice (a b c : Q) (tr : ObjectTransform) :
  (c == a * b)%Q ->
  transform_eq (transform_scale (Finite a) (transform_scale (Finite b) tr))
               (transform_scale (Finite c) tr).
Proof.
  intros Hc. unfold transform_scale, transform_eq.
  destruct (scale_factors tr) as [[x y] z]. simpl.
  repeat split; apply float_mul_finite_twice, Hc.
Qed.

Lemma transform_scale_eq (a a' : Q) (tr : ObjectTransform) :
  (a == a')%Q ->
  transform_eq (transform_scale (Finite a) tr) (transform_scale (Finite a') tr).
Proof.
  intros Ha. unfold transform_scale, transform_eq.
  destruct (scale_factors tr) as [[x y] z]. simpl.
  repeat split; apply float_mul_finite_eq, Ha.
Qed.

Lemma transform_eq_trans (a b c : ObjectTransform) :
  transform_eq a b -> transform_eq b c -> transform_eq a c.
Proof.
  unfold transform_eq, factors_eq.
  destruct (scale_factors a) as [[ax ay] az], (scale_factors b) as [[bx by'] bz],
    (scale_factors c) as [[cx cy] cz].
  intros (-> & -> & -> & H1 & H2 & H3) (-> & -> & -> & K1 & K2 & K3).
  assert (Ht : forall x y z, float_eq x y -> float_eq y z -> float_eq x z).
  { intros [x| | |] [y| | |] [z| | |]; simpl; try tauto. intros -> ->. reflexivity. }
  repeat split; eapply Ht; eassumption.
Qed.

Lemma float_inv_pos (m : Q) : (0 < m)%Q -> float_inv m = Finite (1 / m).
Proof.
  intros Hm. unfold float_inv. destruct (Qeq_bool m 0) eqn:E; [|reflexivity].
  apply Qeq_bool_iff in E. rewrite E in Hm. exfalso. exact (Qlt_irrefl _ Hm).
Qed.

Lemma float_inv_zero (m : Q) : (m == 0)%Q -> float_inv m = PosInf.
Proof. intros Hm. unfold float_inv. apply Qeq_bool_iff in Hm. rewrite Hm. reflexivity. Qed.

(** C6.  The mesh is scaled by 1 / (its largest bounding-box extent); the
    second scale, 0.5 x (the scene's largest extent), is applied exactly when
    that scene extent is at most 5.  So for a mesh of positive extent the
    factors of the transform end up multiplied by
    0.5 x scene_extent / mesh_extent in a small scene and by 1 / mesh_extent
    only in a large one.  For a mesh of extent zero (all vertices at one
    point) the division does not raise: the first factor is the infinity the
    float division gives. *)
Theorem set_mesh_scale_to_scene_policy (self : Primitives.state) (mesh : Mesh)
  (transform : ObjectTransform) (m : Q) :
  mesh_extent (mesh_vertices mesh) = Ok m ->
  let s := vec3_max (Primitives.scene_scale self) in
  exists tr',
    Primitives.set_mesh_scale_to_scene self mesh transform = Ok tr' /\
    ((0 < m)%Q ->
     ((s <= 5)%Q ->
      transform_eq tr' (transform_scale (Finite ((1 # 2) * s))
                          (transform_scale (Finite (1 / m)) transform)) /\
      transform_eq tr' (transform_scale (Finite ((1 # 2) * s / m)) transform)) /\
     ((5 < s)%Q -> tr' = transform_scale (Finite (1 / m)) transform)) /\
    ((m == 0)%Q ->
     ((s <= 5)%Q ->
      transform_eq tr' (transform_scale (Finite ((1 # 2) * s))
                          (transform_scale PosInf transform))) /\
     ((5 < s)%Q -> tr' = transform_scale PosInf transform)).
Proof.
  intros Hm s. unfold mesh_extent in Hm. unfold Primitives.set_mesh_scale_to_scene.
  destruct (rows_reduce Qmax (mesh_vertices mesh)) as [hi|] eqn:Ehi; [|discriminate].
  destruct (rows_reduce Qmin (mesh_vertices mesh)) as [lo|] eqn:Elo; [|discriminate].
  simpl in Hm |- *. injection Hm as Hm. rewrite Hm. fold s.
  assert (Hmax : (vec3_max (vec3_scale Primitives.SCALE_OF_NEW_MESH_TO_SMALL_SCENE
                              (Primitives.scene_scale self)) == (1 # 2) * s)%Q).
  { apply vec3_max_scale. discriminate. }
  destruct (Qgtb s 5) eqn:Egt.
  - apply Qgtb_true in Egt. eexists. split; [reflexivity|]. split.
    + intros Hpos. rewrite (float_inv_pos m Hpos). split; [|reflexivity].
      intros Hle. exfalso. exact (Qlt_not_le _ _ Egt Hle).
    + intros Hzero. rewrite (float_inv_zero m Hzero). split; [|reflexivity].
      intros Hle. exfalso. exact (Qlt_not_le _ _ Egt Hle).
  - apply Qgtb_false in Egt. eexists. split; [reflexivity|]. split.
    + intros Hpos. rewrite (float_inv_pos m Hpos). split.
      * intros _. split; [apply transform_scale_eq, Hmax|].
        eapply transform_eq_trans; [apply transform_scale_eq, Hmax|].
        apply transform_scale_twice. unfold Qdiv. ring.
      * intros Hlt. exfalso. exact (Qlt_not_le _ _ Hlt Egt).
    + intros Hzero. rewrite (float_inv_zero m Hzero). split.
      * intros _. apply transform_scale_eq, Hmax.
      * intros Hlt. exfalso. exact (Qlt_not_le _ _ Hlt Egt).
Qed.

Lemma set_mesh_scale_to_scene_policy_witness :
  (exists tr',
     Primitives.set_mesh_scale_to_scene unit_scene two_vertex_mesh (identity_transform "cuda")
     = Ok tr' /\
     factors_eq (scale_factors tr') (Finite (1 # 4), Finite (1 # 4), Finite (1 # 4))) /\
  (exists tr',
     Primitives.set_mesh_scale_to_scene unit_scene one_point_mesh (identity_transform "cuda")
     = Ok tr' /\
     factors_eq (scale_factors tr') (PosInf, PosInf, PosInf)).
Proof.
  split.
  - destruct (set_mesh_scale_to_scene_policy unit_scene two_vertex_mesh
                (identity_transform "cuda") 2 eq_refl) as (tr' & Hrun & Hpos & _).
    exists tr'. split; [exact Hrun|].
    destruct Hpos as [Hsmall _]; [reflexivity|].
    destruct Hsmall as [_ (_ & _ & _ & Hs)]; [discriminate|].
    simpl in Hs.
    destruct (scale_factors tr') as [[[x| | |] [y| | |]] [z| | |]]; simpl in Hs;
      try (exfalso; tauto).
    destruct Hs as (Hx & Hy & Hz).
    repeat split; (eapply Qeq_trans; [eassumption|vm_compute; reflexivity]).
  - destruct (set_mesh_scale_to_scene_policy unit_scene one_point_mesh
                (identity_transform "cuda") 0 eq_refl) as (tr' & Hrun & _ & Hzero).
    exists tr'. split; [exact Hrun|].
    destruct Hzero as [Hsmall _]; [reflexivity|].
    destruct Hsmall as (_ & _ & _ & Hs); [discriminate|]. exact Hs.
Defined.

(** ** Primitives.register_materials *)

Lemma register_material_eq model_name reg mat :
  Primitives.register_material model_name reg mat
  = match reg !! material_key model_name mat with
    | Some known => (reg, material_id known)
    | None => (<[material_key model_name mat := fresh_material reg mat]> reg,
               Z.of_nat (size reg))
    end.
Proof. reflexivity. Qed.

Lemma register_material_known model_name reg mat known :
  reg !! material_key model_name mat = Some known ->
  Primitives.register_material model_name reg mat = (reg, material_id known).
Proof.
  intros Hk. rewrite register_material_eq.
  rewrite Hk. reflexivity.
Qed.

Lemma register_material_lookup model_name reg mat :
  exists m,
    (Primitives.register_material model_name reg mat).1 !! material_key model_name mat
    = Some m /\
    (Primitives.register_material model_name reg mat).2 = material_id m.
Proof.
  rewrite register_material_eq.
  destruct (reg !! material_key model_name mat) as [known|] eqn:E; simpl.
  - eauto.
  - eexists. split; [apply lookup_insert_eq|reflexivity].
Qed.

Lemma register_material_mono model_name reg mat k m :
  reg !! k = Some m ->
  (Primitives.register_material model_name reg mat).1 !! k = Some m.
Proof.
  intros Hk. rewrite register_material_eq.
  destruct (reg !! material_key model_name mat) as [known|] eqn:E; simpl; [exact Hk|].
  rewrite lookup_insert_ne; [exact Hk|]. intros <-. congruence.
Qed.

Lemma register_material_wf model_name reg mat :
  ids_wf reg -> ids_wf (Primitives.register_material model_name reg mat).1.
Proof.
  intros [Hb Hinj]. rewrite register_material_eq.
  destruct (reg !! material_key model_name mat) as [known|] eqn:E; simpl; [split; assumption|].
  split.
  - intros k m Hk. rewrite map_size_insert_None by exact E.
    destruct (decide (material_key model_name mat = k)) as [<-|Hne].
    + rewrite lookup_insert_eq in Hk. injection Hk as <-. simpl. lia.
    + rewrite lookup_insert_ne in Hk by exact Hne. apply Hb in Hk. lia.
  - intros k1 k2 m1 m2 H1 H2 Hid.
    destruct (decide (material_key model_name mat = k1)) as [<-|Hne1];
      destruct (decide (material_key model_name mat = k2)) as [<-|Hne2];
      [reflexivity| | |].
    + rewrite lookup_insert_eq in H1. rewrite lookup_insert_ne in H2 by exact Hne2.
      injection H1 as <-. simpl in Hid. apply Hb in H2. lia.
    + rewrite lookup_insert_eq in H2. rewrite lookup_insert_ne in H1 by exact Hne1.
      injection H2 as <-. simpl in Hid. apply Hb in H1. lia.
    + rewrite lookup_insert_ne in H1 by exact Hne1.
      rewrite lookup_insert_ne in H2 by exact Hne2. eauto.
Qed.

Lemma loop_cons model_name reg mat materials :
  Primitives.register_materials_loop model_name reg (mat :: materials)
  = ((Primitives.register_materials_loop model_name
        (Primitives.register_material model_name reg mat).1 materials).1,
     (Primitives.register_material model_name reg mat).2
       :: (Primitives.register_materials_loop model_name
             (Primitives.register_material model_name reg mat).1 materials).2).
Proof.
  simpl. destruct (Primitives.register_material model_name reg mat) as [reg1 mat_id].
  simpl. destruct (Primitives.register_materials_loop model_name reg1 materials).
  reflexivity.
Qed.

Lemma loop_mono model_name materials : forall reg k m,
  reg !! k = Some m ->
  (Primitives.register_materials_loop model_name reg materials).1 !! k = Some m.
Proof.
  induction materials as [|mat materials IH]; intros reg k m Hk; [exact Hk|].
  rewrite loop_cons. simpl. apply IH, register_material_mono, Hk.
Qed.

Lemma loop_wf model_name materials : forall reg,
  ids_wf reg -> ids_wf (Primitives.register_materials_loop model_name reg materials).1.
Proof.
  induction materials as [|mat materials IH]; intros reg Hwf; [exact Hwf|].
  rewrite loop_cons. simpl. apply IH, register_material_wf, Hwf.
Qed.

Lemma loop_length model_name materials : forall reg,
  length (Primitives.register_materials_loop model_name reg materials).2 = length materials.
Proof.
  induction materials as [|mat materials IH]; intros reg; [reflexivity|].
  rewrite loop_cons. simpl. f_equal. apply IH.
Qed.

(** After the loop, the id returned at index [i] is the id stored under the
    key of the [i]-th material. *)
Lemma loop_ids model_name materials : forall reg i mat,
  materials !! i = Some mat ->
  exists m,
    (Primitives.register_materials_loop model_name reg materials).1
      !! material_key model_name mat = Some m /\
    (Primitives.register_materials_loop model_name reg materials).2 !! i
    = Some (material_id m).
Proof.
  induction materials as [|mat0 materials IH]; intros reg i mat Hi; [discriminate|].
  rewrite loop_cons. destruct i as [|i]; simpl in *.
  - injection Hi as ->.
    destruct (register_material_lookup model_name reg mat) as (m & Hm & Hid).
    exists m. split; [apply loop_mono, Hm|]. rewrite Hid. reflexivity.
  - apply IH, Hi.
Qed.

(** On a registry that knows every key, the loop changes nothing. *)
Lemma loop_known model_name materials : forall reg,
  (forall mat, mat ∈ materials -> is_Some (reg !! material_key model_name mat)) ->
  (Primitives.register_materials_loop model_name reg materials).1 = reg.
Proof.
  induction materials as [|mat materials IH]; intros reg Hall; [reflexivity|].
  rewrite loop_cons. simpl.
  destruct (Hall mat) as [known Hk]; [left|].
  rewrite (register_material_known _ _ _ _ Hk). simpl.
  apply IH. intros mat' Hin. apply Hall. right. exact Hin.
Qed.

Lemma loop_ids_eq model_name materials reg ids :
  length ids = length materials ->
  (forall i mat, materials !! i = Some mat ->
     exists m, reg !! material_key model_name mat = Some m /\ ids !! i = Some (material_id m)) ->
  (Primitives.register_materials_loop model_name reg materials).2 = ids.
Proof.
  intros Hlen Hids. apply list_eq. intros i.
  destruct (materials !! i) as [mat|] eqn:Hi.
  - destruct (Hids i mat Hi) as (m & Hm & ->).
    destruct (loop_ids model_name materials reg i mat Hi) as (m' & Hm' & ->).
    apply (loop_mono model_name materials) in Hm. congruence.
  - apply lookup_ge_None in Hi. rewrite !(proj2 (lookup_ge_None _ _)); [reflexivity| |].
    + lia.
    + rewrite loop_length. exact Hi.
Qed.

Lemma loop_twice model_name materials reg :
  Primitives.register_materials_loop model_name
    (Primitives.register_materials_loop model_name reg materials).1 materials
  = Primitives.register_materials_loop model_name reg materials.
Proof.
  apply injective_projections.
  - apply loop_known. intros mat Hin. apply list_elem_of_lookup in Hin as [i Hi].
    destruct (loop_ids model_name materials reg i mat Hi) as (m & Hm & _). eauto.
  - apply loop_ids_eq; [apply loop_length|]. intros i mat Hi.
    apply loop_ids, Hi.
Qed.

Lemma default_materials_wf device : ids_wf (Primitives.register_default_materials device).
Proof.
  unfold Primitives.register_default_materials.
  assert (Hsize : forall (a b : PBRMaterial),
             size (<["checkboard"%string := a]> (<["solid"%string := b]> (∅ : gmap string PBRMaterial)))
             = 2%nat).
  { intros a b. rewrite map_size_insert_None.
    - rewrite map_size_insert_None; [reflexivity|apply lookup_empty].
    - rewrite lookup_insert_ne by discriminate. apply lookup_empty. }
  split.
  - intros k m Hk. rewrite Hsize.
    destruct (decide ("checkboard"%string = k)) as [<-|Hne].
    + rewrite lookup_insert_eq in Hk. injection Hk as <-. simpl. lia.
    + rewrite lookup_insert_ne in Hk by exact Hne.
      destruct (decide ("solid"%string = k)) as [<-|Hne'].
      * rewrite lookup_insert_eq in Hk. injection Hk as <-. simpl. lia.
      * rewrite lookup_insert_ne in Hk by exact Hne'. rewrite lookup_empty in Hk. discriminate.
  - intros k1 k2 m1 m2 H1 H2 Hid.
    destruct (decide ("checkboard"%string = k1)) as [<-|Hne1];
      destruct (decide ("checkboard"%string = k2)) as [<-|Hne2]; [reflexivity| | |].
    + rewrite lookup_insert_eq in H1. rewrite lookup_insert_ne in H2 by exact Hne2.
      injection H1 as <-.
      destruct (decide ("solid"%string = k2)) as [<-|Hne'].
      * rewrite lookup_insert_eq in H2. injection H2 as <-. discriminate.
      * rewrite lookup_insert_ne in H2 by exact Hne'. rewrite lookup_empty in H2. discriminate.
    + rewrite lookup_insert_eq in H2. rewrite lookup_insert_ne in H1 by exact Hne1.
      injection H2 as <-.
      destruct (decide ("solid"%string = k1)) as [<-|Hne'].
      * rewrite lookup_insert_eq in H1. injection H1 as <-. discriminate.
      * rewrite lookup_insert_ne in H1 by exact Hne'. rewrite lookup_empty in H1. discriminate.
    + rewrite lookup_insert_ne in H1 by exact Hne1.
      rewrite lookup_insert_ne in H2 by exact Hne2.
      destruct (decide ("solid"%string = k1)) as [<-|Hs1];
        destruct (decide ("solid"%string = k2)) as [<-|Hs2]; [reflexivity| | |].
      * rewrite lookup_insert_ne in H2 by exact Hs2. rewrite lookup_empty in H2. discriminate.
      * rewrite lookup_insert_ne in H1 by exact Hs1. rewrite lookup_empty in H1. discriminate.
      * rewrite lookup_insert_ne in H1 by exact Hs1. rewrite lookup_empty in H1. discriminate.
Qed.

Lemma reachable_ids_wf reg : registry_reachable reg -> ids_wf reg.
Proof.
  induction 1 as [device|reg materials model_name _ IH].
  - apply default_materials_wf.
  - apply loop_wf, IH.
Qed.

Lemma set_registered_materials_same (self : Primitives.state) :
  Primitives.set_registered_materials (Primitives.registered_materials self) self = self.
Proof. destruct self; reflexivity. Qed.

Lemma register_materials_eq self materials model_name :
  Primitives.register_materials self materials model_name
  = (Primitives.set_registered_materials
       (Primitives.register_materials_loop model_name
          (Primitives.registered_materials self) materials).1 self,
     (Primitives.register_materials_loop model_name
        (Primitives.registered_materials self) materials).2).
Proof.
  unfold Primitives.register_materials.
  destruct (Primitives.register_materials_loop _ _ _). reflexivity.
Qed.

(** C5.  Registration is idempotent per namespaced key.  A material whose
    key is already known keeps its entry and the call returns the known id at
    its index; every material of the call ends up stored under its key with
    the id returned at its index, and nothing registered before is dropped or
    changed; when every key is known the registry is left as it was; a second
    registration of the same materials under the same model name changes
    nothing and returns the same ids; and in a registry built from the
    default materials by registrations, two distinct keys never carry the
    same id, nor do two materials of one call whose keys differ, and across
    two calls in a row two materials get the same id exactly when their keys
    are the same. *)
Theorem register_materials_idempotent (self : Primitives.state)
  (materials : list MaterialDict) (model_name : string) :
  let r := Primitives.register_materials self materials model_name in
  (forall i mat known,
     materials !! i = Some mat ->
     Primitives.registered_materials self !! material_key model_name mat = Some known ->
     Primitives.registered_materials r.1 !! material_key model_name mat = Some known /\
     r.2 !! i = Some (material_id known)) /\
  (forall i mat,
     materials !! i = Some mat ->
     exists m,
       Primitives.registered_materials r.1 !! material_key model_name mat = Some m /\
       r.2 !! i = Some (material_id m)) /\
  (forall k m,
     Primitives.registered_materials self !! k = Some m ->
     Primitives.registered_materials r.1 !! k = Some m) /\
  ((forall mat, mat ∈ materials ->
      is_Some (Primitives.registered_materials self !! material_key model_name mat)) ->
   r.1 = self) /\
  Primitives.register_materials r.1 materials model_name = r /\
  (registry_reachable (Primitives.registered_materials self) ->
   registry_reachable (Primitives.registered_materials r.1) /\
   (forall k1 k2 m1 m2,
      Primitives.registered_materials r.1 !! k1 = Some m1 ->
      Primitives.registered_materials r.1 !! k2 = Some m2 ->
      k1 <> k2 -> material_id m1 <> material_id m2) /\
   (forall i j mi mj idi idj,
      materials !! i = Some mi -> materials !! j = Some mj ->
      material_key model_name mi <> material_key model_name mj ->
      r.2 !! i = Some idi -> r.2 !! j = Some idj -> idi <> idj) /\
   (forall materials' model_name' i j mi mj idi idj,
      materials !! i = Some mi -> materials' !! j = Some mj ->
      r.2 !! i = Some idi ->
      (Primitives.register_materials r.1 materials' model_name').2 !! j = Some idj ->
      (material_key model_name mi = material_key model_name' mj <-> idi = idj))).
Proof.
  intros r. subst r. rewrite register_materials_eq. simpl.
  set (reg := Primitives.registered_materials self).
  split; [|split; [|split; [|split; [|split]]]].
  - intros i mat known Hi Hk. split.
    + apply loop_mono, Hk.
    + destruct (loop_ids model_name materials reg i mat Hi) as (m & Hm & ->).
      apply (loop_mono model_name materials) in Hk. congruence.
  - intros i mat Hi. apply loop_ids, Hi.
  - intros k m Hk. apply loop_mono, Hk.
  - intros Hall. rewrite loop_known by exact Hall. apply set_registered_materials_same.
  - rewrite register_materials_eq. simpl. rewrite loop_twice. reflexivity.
  - intros Hreach.
    assert (Hwf : ids_wf (Primitives.register_materials_loop model_name reg materials).1)
      by (apply loop_wf, reachable_ids_wf, Hreach).
    split; [constructor; exact Hreach|]. split; [|split].
    + intros k1 k2 m1 m2 H1 H2 Hne Hid. apply Hne. exact (proj2 Hwf _ _ _ _ H1 H2 Hid).
    + intros i j mi mj idi idj Hi Hj Hne Hidi Hidj Heq.
      destruct (loop_ids model_name materials reg i mi Hi) as (m1 & H1 & Hr1).
      destruct (loop_ids model_name materials reg j mj Hj) as (m2 & H2 & Hr2).
      apply Hne. apply (proj2 Hwf _ _ _ _ H1 H2). congruence.
    + intros materials' model_name' i j mi mj idi idj Hi Hj Hidi Hidj.
      rewrite register_materials_eq in Hidj. simpl in Hidj.
      set (reg1 := (Primitives.register_materials_loop model_name reg materials).1) in *.
      destruct (loop_ids model_name materials reg i mi Hi) as (m1 & H1 & Hr1).
      fold reg1 in H1.
      destruct (loop_ids model_name' materials' reg1 j mj Hj) as (m2 & H2 & Hr2).
      apply (loop_mono model_name' materials') in H1.
      assert (Hwf2 : ids_wf (Primitives.register_materials_loop model_name' reg1 materials').1)
        by (apply loop_wf, Hwf).
      assert (Hi1 : idi = material_id m1) by congruence.
      assert (Hj2 : idj = material_id m2) by congruence.
      subst idi idj. split.
      * intros Hkey. rewrite Hkey in H1. congruence.
      * intros Hid. exact (proj2 Hwf2 _ _ _ _ H1 H2 Hid).
Qed.

Lemma register_materials_idempotent_witness :
  (Primitives.register_materials unit_scene
     [plain_material "red"; plain_material "blue"; plain_material "red"] "Sphere").2
  = [2; 3; 2] /\
  (forall idi idj,
     (Primitives.register_materials unit_scene
        [plain_material "red"; plain_material "blue"; plain_material "red"] "Sphere").2 !! 0%nat
     = Some idi ->
     (Primitives.register_materials unit_scene
        [plain_material "red"; plain_material "blue"; plain_material "red"] "Sphere").2 !! 1%nat
     = Some idj ->
     idi <> idj) /\
  (forall idi idj,
     (Primitives.register_materials unit_scene [plain_material "red"] "Sphere").2 !! 0%nat
     = Some idi ->
     (Primitives.register_materials
        (Primitives.register_materials unit_scene [plain_material "red"] "Sphere").1
        [plain_material "blue"; plain_material "red"] "Sphere").2 !! 0%nat
     = Some idj ->
     idi <> idj).
Proof.
  split; [vm_compute; reflexivity|]. split.
  - intros idi idj Hi Hj.
    destruct (register_materials_idempotent unit_scene
                [plain_material "red"; plain_material "blue"; plain_material "red"] "Sphere")
      as (_ & _ & _ & _ & _ & Hdistinct).
    destruct Hdistinct as (_ & _ & Hcall & _); [apply (reachable_default "cuda")|].
    apply (Hcall 0%nat 1%nat (plain_material "red") (plain_material "blue") idi idj);
      [reflexivity|reflexivity|discriminate|exact Hi|exact Hj].
  - intros idi idj Hi Hj Heq.
    destruct (register_materials_idempotent unit_scene [plain_material "red"] "Sphere")
      as (_ & _ & _ & _ & _ & Hdistinct).
    destruct Hdistinct as (_ & _ & _ & Hcross); [apply (reachable_default "cuda")|].
    apply (Hcross [plain_material "blue"; plain_material "red"] "Sphere"%string 0%nat 0%nat
             (plain_material "red") (plain_material "blue") idi idj
             eq_refl eq_refl Hi Hj) in Heq.
    vm_compute in Heq. discriminate Heq.
Defined.

(** ** Primitives: dirty flag and rebuilds *)

Section Rebuild.
Context `{Collaborators}.

Lemma mapM_ok {A B} (f : A -> result B) (l : list A) :
  Forall (fun a => exists b, f a = Ok b) l ->
  exists bs, mapM f l = Ok bs /\ Forall2 (fun a b => f a = Ok b) l bs.
Proof.
  induction 1 as [|a l [b Hb] _ (bs & Hbs & Hall)]; simpl.
  - exists []. split; [reflexivity|constructor].
  - exists (b :: bs). rewrite Hb. simpl. rewrite Hbs. simpl.
    split; [reflexivity|constructor; assumption].
Qed.

Lemma bind_Ok {A B} (m : result A) (f : A -> result B) (b : B) :
  m ≫= f = Ok b -> exists a, m = Ok a /\ f a = Ok b.
Proof. destruct m as [a|e]; simpl; [eauto|discriminate]. Qed.

Lemma apply_transform_ok p :
  is_Some (transform p) ->
  exists q, OptixPrimitiveM.apply_transform p = Ok q /\ same_tags p q.
Proof.
  intros [tr Htr]. unfold OptixPrimitiveM.apply_transform. rewrite Htr.
  eexists. split; [reflexivity|]. repeat split.
Qed.

Lemma rederive_face_tensors_ok p :
  is_Some (primitive_type p) -> is_Some (refractive_index p) ->
  exists q, Primitives.rederive_face_tensors p = Ok q /\ same_tags p q.
Proof.
  intros [ty Hty] [ri Hri]. unfold Primitives.rederive_face_tensors. rewrite Hty, Hri.
  eexists. split; [reflexivity|]. repeat split; simpl; congruence.
Qed.

Lemma filter_visible_same (ps qs : list OptixPrimitive) :
  Forall2 same_tags ps qs ->
  Forall2 same_tags (filter (fun p => Primitives.is_visible p = true) ps)
                    (filter (fun p => Primitives.is_visible p = true) qs).
Proof.
  induction 1 as [|p q ps qs Hpq _ IH]; [constructor|].
  rewrite !filter_cons.
  assert (Hv : Primitives.is_visible q = Primitives.is_visible p).
  { unfold Primitives.is_visible. destruct Hpq as (-> & _). reflexivity. }
  rewrite Hv. destruct (decide (Primitives.is_visible p = true)); [constructor|]; assumption.
Qed.

Lemma stack_ok (qs : list OptixPrimitive) :
  qs <> [] ->
  Forall (fun q => is_Some (material_uv q) /\ is_Some (prim_material_id q)) qs ->
  exists fields, OptixPrimitiveM.stack qs = Ok fields.
Proof.
  intros Hne Hall. destruct qs as [|q qs]; [contradiction|].
  unfold OptixPrimitiveM.stack.
  apply Forall_cons in Hall as [[[uv Huv] [mid Hmid]] _].
  simpl omap. rewrite Huv, Hmid. simpl. eauto.
Qed.

Lemma has_visible_objects_filter (self : Primitives.state) :
  Primitives.has_visible_objects self = true <->
  filter (fun p => Primitives.is_visible p = true) (dict_values (Primitives.objects self)) <> [].
Proof.
  unfold Primitives.has_visible_objects. rewrite Nat.ltb_lt.
  destruct (filter _ _); simpl; split; intros; try lia; congruence.
Qed.

Lemma recompute_stacked_buffers_ok (self : Primitives.state) :
  registry_wf self -> Primitives.has_visible_objects self = true ->
  exists fields,
    Primitives.recompute_stacked_buffers self
    = Ok (Primitives.set_stacked_fields (Some fields) self).
Proof.
  intros Hwf Hvis. unfold Primitives.recompute_stacked_buffers.
  destruct (mapM_ok OptixPrimitiveM.apply_transform (dict_values (Primitives.objects self)))
    as (objs1 & -> & H1).
  { eapply Forall_impl; [exact Hwf|]. intros p (Htr & _).
    destruct (apply_transform_ok p Htr) as (q & Hq & _). eauto. }
  simpl.
  assert (Htags1 : Forall2 (fun p q => same_tags p q /\ wf_primitive (Primitives.instance_counter self) p)
                     (dict_values (Primitives.objects self)) objs1).
  { clear Hvis. unfold registry_wf in Hwf.
    induction H1 as [|p q ps qs Hpq _ IH]; [constructor|].
    apply Forall_cons in Hwf as [Hp Hps]. constructor; [|apply IH, Hps].
    split; [|exact Hp]. destruct Hp as (Htr & _).
    destruct (apply_transform_ok p Htr) as (q' & Hq' & Hs). congruence. }
  destruct (mapM_ok Primitives.rederive_face_tensors objs1) as (objs2 & -> & H2).
  { clear H1. induction Htags1 as [|p q ps qs [Hs Hp] _ IH]; constructor; [|exact IH].
    destruct Hs as (Hty & _ & _ & Hri). destruct Hp as (_ & Hpt & Hpr & _).
    destruct (rederive_face_tensors_ok q) as (q' & Hq' & _);
      [rewrite Hty; exact Hpt|rewrite Hri; exact Hpr|eauto]. }
  simpl.
  replace (Primitives.has_visible_objects (Primitives.set_stacked_fields None self))
    with (Primitives.has_visible_objects self) by reflexivity.
  rewrite Hvis.
  assert (Htags2 : Forall2 (fun p q => same_tags p q /\ wf_primitive (Primitives.instance_counter self) p)
                     (dict_values (Primitives.objects self)) objs2).
  { clear H1 Hvis Hwf. revert objs2 H2.
    induction Htags1 as [|p q ps qs [Hs Hp] _ IH]; intros objs2 H2;
      inversion H2; subst; constructor; [|apply IH; assumption].
    split; [|exact Hp].
    destruct Hs as (Hty & Huv & Hid & Hri). destruct Hp as (_ & Hpt & Hpr & _).
    destruct (rederive_face_tensors_ok q) as (q' & Hq' & Hs');
      [rewrite Hty; exact Hpt|rewrite Hri; exact Hpr|].
    assert (q' = y) by congruence. subst y.
    destruct Hs' as (Hty' & Huv' & Hid' & Hri'). repeat split; congruence. }
  destruct (stack_ok (filter (fun p => Primitives.is_visible p = true) objs2)) as [fields Hf].
  - apply has_visible_objects_filter in Hvis.
    assert (Hsame : Forall2 same_tags (dict_values (Primitives.objects self)) objs2).
    { eapply Forall2_impl; [exact Htags2|]. intros p q [Hs _]. exact Hs. }
    apply filter_visible_same in Hsame.
    intros Hnil. rewrite Hnil in Hsame. inversion Hsame as [Hl|]. congruence.
  - apply Forall_forall. intros q Hq. apply list_elem_of_filter in Hq as [_ Hq].
    apply list_elem_of_lookup in Hq as [i Hi].
    destruct (Forall2_lookup_r _ _ _ _ _ Htags2 Hi) as (p & _ & Hs & Hp).
    destruct Hs as (_ & Huv & Hid & _). destruct Hp as (_ & _ & _ & Hpu & Hpi & _).
    rewrite Huv, Hid. split; assumption.
  - rewrite Hf. simpl. eauto.
Qed.

Lemma set_dirty_clean (self : Primitives.state) :
  Primitives.dirty self = false -> Primitives.set_dirty false self = self.
Proof. destruct self; simpl; intros ->; reflexivity. Qed.

(** A clean registry: nothing is built, nothing changes. *)
Lemma rebuild_clean_noop (self : Primitives.state) (tracer : Tracer) (rebuild : bool) :
  Primitives.dirty self = false ->
  Primitives.rebuild_bvh_if_needed self tracer false rebuild = Ok (self, tracer).
Proof.
  intros Hd. unfold Primitives.rebuild_bvh_if_needed. rewrite Hd. simpl.
  rewrite set_dirty_clean by exact Hd. reflexivity.
Qed.

(** A dirty registry or a forced call: exactly one build, and the flag is
    cleared. *)
Lemma rebuild_runs (self : Primitives.state) (tracer : Tracer) (force rebuild : bool) :
  registry_wf self -> Primitives.dirty self || force = true ->
  exists self' tracer',
    Primitives.rebuild_bvh_if_needed self tracer force rebuild = Ok (self', tracer') /\
    rebuild_count tracer' = S (rebuild_count tracer) /\
    Primitives.dirty self' = false /\
    Primitives.objects self' = Primitives.objects self /\
    Primitives.instance_counter self' = Primitives.instance_counter self.
Proof.
  intros Hwf Hrun. unfold Primitives.rebuild_bvh_if_needed. rewrite Hrun.
  destruct (Primitives.has_visible_objects self) eqn:Hvis.
  - destruct (recompute_stacked_buffers_ok self Hwf Hvis) as [fields ->]. simpl.
    eexists _, _. split; [reflexivity|]. unfold rebuild_count, build_mesh_acc. simpl.
    rewrite length_app. simpl. repeat split; lia.
  - simpl. eexists _, _. split; [reflexivity|]. unfold rebuild_count, build_mesh_acc. simpl.
    rewrite length_app. simpl. repeat split; lia.
Qed.

Lemma dict_get_values {V} (k : string) (d : list (string * V)) (v : V) :
  dict_get k d = Some v -> v ∈ dict_values d.
Proof.
  induction d as [|[k' v'] d IH]; simpl; [discriminate|].
  destruct (decide (k = k')); intros Hg.
  - injection Hg as ->. left.
  - right. apply IH, Hg.
Qed.

Lemma dict_del_values {V} (P : V -> Prop) (k : string) (d : list (string * V)) :
  Forall P (dict_values d) -> Forall P (dict_values (dict_del k d)).
Proof.
  induction d as [|[k' v'] d IH]; simpl; [constructor|].
  intros Hall. apply Forall_cons in Hall as [Hv Hd].
  destruct (decide (k = k')); [exact Hd|]. constructor; [exact Hv|apply IH, Hd].
Qed.

Lemma dict_set_values {V} (P : V -> Prop) (k : string) (v : V) (d : list (string * V)) :
  P v -> Forall P (dict_values d) -> Forall P (dict_values (dict_set k v d)).
Proof.
  intros Hv. induction d as [|[k' v'] d IH]; simpl.
  - intros _. constructor; [exact Hv|constructor].
  - intros Hall. apply Forall_cons in Hall as [Hv' Hd].
    destruct (decide (k = k')); constructor; auto.
Qed.

Lemma wf_primitive_insert (counter : gmap string Z) (g : string) (c : Z) (p : OptixPrimitive) :
  wf_primitive counter p -> wf_primitive (<[g := c]> counter) p.
Proof.
  intros (Ht & Hp & Hr & Hu & Hi & g' & Hg & Hc). repeat split; try assumption.
  exists g'. split; [exact Hg|].
  destruct (decide (g = g')) as [->|Hne].
  - rewrite lookup_insert_eq. eauto.
  - rewrite lookup_insert_ne by exact Hne. exact Hc.
Qed.

(** C2, as the code has it.  On a registry as the mutators build it:
    [remove_primitive] and [duplicate_primitive] of an object that exists do
    not leave the registry dirty: each runs one forced rebuild itself (the
    accelerator is asked for exactly one build) and returns with the flag
    cleared, so the next [rebuild_bvh_if_needed] without [force] builds
    nothing.  Whenever the flag is set, objects or none,
    [rebuild_bvh_if_needed] without [force] builds once and clears it, and a
    second call right after builds nothing. *)
Theorem mutators_rebuild_eagerly (self : Primitives.state) (tracer : Tracer)
  (name : string) :
  registry_wf self ->
  (is_Some (dict_get name (Primitives.objects self)) ->
   (exists self1 tracer1,
      Primitives.remove_primitive self tracer name = Ok (self1, tracer1) /\
      rebuild_count tracer1 = S (rebuild_count tracer) /\
      Primitives.dirty self1 = false /\
      forall rebuild,
        Primitives.rebuild_bvh_if_needed self1 tracer1 false rebuild = Ok (self1, tracer1)) /\
   (exists self2 tracer2,
      Primitives.duplicate_primitive self tracer name = Ok (self2, tracer2) /\
      rebuild_count tracer2 = S (rebuild_count tracer) /\
      Primitives.dirty self2 = false /\
      forall rebuild,
        Primitives.rebuild_bvh_if_needed self2 tracer2 false rebuild = Ok (self2, tracer2))) /\
  (Primitives.dirty self = true ->
   forall rebuild,
   exists self3 tracer3,
     Primitives.rebuild_bvh_if_needed self tracer false rebuild = Ok (self3, tracer3) /\
     rebuild_count tracer3 = S (rebuild_count tracer) /\
     Primitives.dirty self3 = false /\
     forall rebuild',
       Primitives.rebuild_bvh_if_needed self3 tracer3 false rebuild' = Ok (self3, tracer3)).
Proof.
  intros Hwf. split; [intros [prim Hprim]; split|].
  - unfold Primitives.remove_primitive. rewrite Hprim.
    destruct (rebuild_runs (Primitives.set_objects (dict_del name (Primitives.objects self)) self)
                tracer true true) as (s1 & t1 & Hrun & Hcount & Hclean & _).
    { unfold registry_wf. simpl. apply dict_del_values, Hwf. }
    { apply orb_true_r. }
    exists s1, t1. repeat split; try assumption.
    intros rebuild. apply rebuild_clean_noop, Hclean.
  - unfold Primitives.duplicate_primitive. rewrite Hprim.
    pose proof (dict_get_values _ _ _ Hprim) as Hin.
    unfold registry_wf in Hwf. rewrite Forall_forall in Hwf.
    pose proof (Hwf prim Hin) as Hp.
    destruct Hp as (Ht & Hpt & Hr & Hu & Hi & g & Hg & [c Hc]).
    rewrite Hg. simpl. rewrite Hc.
    destruct (rebuild_runs
                (Primitives.set_objects
                   (dict_set (g +:+ " " +:+ pretty (c + 1))%string prim (Primitives.objects self))
                   (Primitives.set_instance_counter
                      (<[g := c + 1]> (Primitives.instance_counter self)) self))
                tracer true true) as (s2 & t2 & Hrun & Hcount & Hclean & _).
    { unfold registry_wf. simpl. apply dict_set_values.
      - apply wf_primitive_insert. repeat split; eauto.
      - apply Forall_forall. intros p Hpin. apply wf_primitive_insert, Hwf, Hpin. }
    { apply orb_true_r. }
    exists s2, t2. repeat split; try assumption.
    intros rebuild. apply rebuild_clean_noop, Hclean.
  - intros Hdirty rebuild.
    destruct (rebuild_runs self tracer false rebuild Hwf) as (s3 & t3 & Hrun & Hcount & Hclean & _).
    { rewrite Hdirty. reflexivity. }
    exists s3, t3. repeat split; try assumption.
    intros rebuild'. apply rebuild_clean_noop, Hclean.
Qed.

Lemma create_geometry_keeps_dirty (self self' : Primitives.state) (geometry_type device : string)
  (mesh : Mesh) :
  Primitives.create_geometry self geometry_type device = Ok (mesh, self') ->
  Primitives.dirty self' = Primitives.dirty self /\
  Primitives.objects self' = Primitives.objects self.
Proof.
  unfold Primitives.create_geometry. intros Hc.
  apply bind_Ok in Hc as ([mesh0 self0] & Hsel & Hret). simpl in Hret.
  injection Hret as _ <-.
  destruct (decide (geometry_type = "Quad"%string)).
  - injection Hsel as _ <-. split; reflexivity.
  - destruct (Primitives.assets self !! geometry_type) as [mesh_path|]; [|discriminate].
    apply bind_Ok in Hsel as (loaded & _ & Hsel).
    destruct (0 <? length (load_materials loaded device))%nat.
    + rewrite register_materials_eq in Hsel.
      apply bind_Ok in Hsel as (assignments & _ & Hsel).
      injection Hsel as _ <-. split; reflexivity.
    + injection Hsel as _ <-. split; reflexivity.
Qed.

(** [add_primitive] stores the new primitive and touches neither the dirty
    flag nor the tracer. *)
Lemma add_primitive_keeps_dirty (self self' : Primitives.state) (geometry_type : string)
  (primitive_type : OptixPrimitiveTypes) (device : string) :
  Primitives.add_primitive self geometry_type primitive_type device = Ok self' ->
  Primitives.dirty self' = Primitives.dirty self.
Proof.
  unfold Primitives.add_primitive. intros Hadd.
  apply bind_Ok in Hadd as ([mesh self0] & Hgeo & Hadd). simpl in Hadd.
  apply create_geometry_keeps_dirty in Hgeo as [Hd _]. simpl in Hd.
  apply bind_Ok in Hadd as (transform & _ & Hadd).
  apply bind_Ok in Hadd as (tangents & _ & Hadd).
  injection Hadd as <-. simpl. exact Hd.
Qed.

End Rebuild.

(** *** Runs of the registry on the simple collaborators *)

(** After [remove_primitive] the next unforced call builds nothing: the
    build was done inside the mutator. *)
Lemma remove_then_rebuild_builds_nothing :
  builds_after (fun s t =>
    Primitives.remove_primitive (H := Simple.collaborators) s t "Quad 1")
  = Ok (1%nat, 2%nat, 2%nat).
Proof. vm_compute. reflexivity. Qed.

Lemma duplicate_then_rebuild_builds_nothing :
  builds_after (fun s t =>
    Primitives.duplicate_primitive (H := Simple.collaborators) s t "Quad 1")
  = Ok (1%nat, 2%nat, 2%nat).
Proof. vm_compute. reflexivity. Qed.

(** [add_primitive] on a clean registry: no build in the mutator and, the flag
    being clear, none in the call that follows. *)
Lemma add_then_rebuild_builds_nothing :
  builds_after (fun s t =>
    s' ← Primitives.add_primitive (H := Simple.collaborators) s "Quad" MIRROR "cuda";
    Ok (s', t))
  = Ok (1%nat, 1%nat, 1%nat).
Proof. vm_compute. reflexivity. Qed.

(** On the quad scene, and on the registry as [__init__] leaves it: dirty,
    without objects. *)
Lemma mutators_rebuild_eagerly_witness :
  (exists self1 tracer1,
     Primitives.remove_primitive (H := Simple.collaborators) quad_state quad_tracer "Quad 1"
     = Ok (self1, tracer1) /\
     rebuild_count tracer1 = 2%nat /\
     Primitives.rebuild_bvh_if_needed (H := Simple.collaborators) self1 tracer1 false true
     = Ok (self1, tracer1)) /\
  (exists self3 tracer3,
     Primitives.rebuild_bvh_if_needed (H := Simple.collaborators) unit_scene (mkTracer [] 0)
       false true = Ok (self3, tracer3) /\
     rebuild_count tracer3 = 1%nat /\
     Primitives.rebuild_bvh_if_needed (H := Simple.collaborators) self3 tracer3 false true
     = Ok (self3, tracer3)).
Proof.
  split.
  - destruct (mutators_rebuild_eagerly (H := Simple.collaborators) quad_state quad_tracer
                "Quad 1") as [Hmut _].
    + vm_compute. repeat constructor; eauto.
    + destruct Hmut as [(s1 & t1 & Hrun & Hcount & _ & Hnext) _]; [vm_compute; eauto|].
      exists s1, t1. split; [exact Hrun|]. split; [rewrite Hcount; reflexivity|apply Hnext].
  - destruct (mutators_rebuild_eagerly (H := Simple.collaborators) unit_scene (mkTracer [] 0)
                "Quad 1") as [_ Hdirty].
    + constructor.
    + destruct (Hdirty eq_refl true) as (s3 & t3 & Hrun & Hcount & _ & Hnext).
      exists s3, t3. split; [exact Hrun|]. split; [exact Hcount|apply Hnext].
Defined.

(** ** Engine3DGRUT: the frame counter *)

Section Engine.
Context `{Collaborators}.

Lemma hybrid_frame_id (self self' : Engine3DGRUT.state) (rays_o rays_d : Tensor)
  (rr : RenderedResults) :
  Engine3DGRUT._render_playground_hybrid self rays_o rays_d = Ok (self', rr) ->
  Engine3DGRUT.frame_id self'
  = Engine3DGRUT.advance_frame_id (Engine3DGRUT.frame_id self)
      (spp_batch_size (Engine3DGRUT.spp self)).
Proof.
  unfold Engine3DGRUT._render_playground_hybrid. intros Hrun.
  apply bind_Ok in Hrun as ([prims tr] & _ & Hrun). simpl in Hrun.
  destruct (if Primitives.force_white_bg prims then _ else _) as [background_color envmap].
  apply bind_Ok in Hrun as (fields & _ & Hrun).
  apply bind_Ok in Hrun as (rgb & _ & Hrun).
  injection Hrun as <- _. reflexivity.
Qed.

(** While the counter is at most 2^31 - 1 it is only added to. *)
Lemma advance_frame_id_adds (frame_id batch_size : Z) :
  frame_id <= 2 ^ 31 - 1 ->
  Engine3DGRUT.advance_frame_id frame_id batch_size = frame_id + batch_size.
Proof.
  intros Hle. unfold Engine3DGRUT.advance_frame_id.
  destruct (Z.leb_spec frame_id (2 ^ 31 - 1)); [reflexivity|lia].
Qed.

End Engine.

(** C1: the counter at 2^31 - 2 with a batch of 4.  The guard reads the
    counter before the addition, so the hybrid trace leaves 2^31 + 2, above the
    largest signed 32-bit integer, where the claim expects 0. *)
Theorem frame_counter_passes_int32 :
  Engine3DGRUT.advance_frame_id (2 ^ 31 - 2) 4 = 2147483650 /\
  (s ← example_engine;
   let s := Engine3DGRUT.set_frame_id (2 ^ 31 - 2)
              (Engine3DGRUT.set_spp (mkSPP "msaa" 4 4 0) s) in
   '(s', _) ← Engine3DGRUT._render_playground_hybrid (H := Simple.collaborators)
                s two_rays two_rays;
   Ok (Engine3DGRUT.frame_id s', bool_decide (Engine3DGRUT.frame_id s' <= 2 ^ 31 - 1)))
  = Ok (2147483650, false).
Proof. split; vm_compute; reflexivity. Qed.

(** ** Engine3DGRUT.has_progressive_effects_to_render *)

(** C4, as the code has it.  The predicate holds exactly when depth of field
    is on with its counter at most its target, or depth of field is off and
    antialiasing is on with its counter at most its target.  The evaluation
    reads the counter of depth of field when that effect is on, the counter of
    antialiasing when depth of field is off and antialiasing is on, and no
    counter when both are off: at most one per call. *)
Theorem progressive_effects_predicate (self : Engine3DGRUT.state) :
  (Engine3DGRUT.has_progressive_effects_to_render self = true <->
   (Engine3DGRUT.use_depth_of_field self = true /\
    dof_spp_accumulated_for_frame (Engine3DGRUT.depth_of_field self)
    <= dof_spp (Engine3DGRUT.depth_of_field self)) \/
   (Engine3DGRUT.use_depth_of_field self = false /\
    Engine3DGRUT.use_spp self = true /\
    spp_spp_accumulated_for_frame (Engine3DGRUT.spp self)
    <= spp_spp (Engine3DGRUT.spp self))) /\
  (Engine3DGRUT.has_progressive_effects_to_render_reads self).2
  = (if Engine3DGRUT.use_depth_of_field self then [Engine3DGRUT.ReadDepthOfField]
     else if Engine3DGRUT.use_spp self then [Engine3DGRUT.ReadSPP]
     else []) /\
  (length (Engine3DGRUT.has_progressive_effects_to_render_reads self).2 <= 1)%nat.
Proof.
  unfold Engine3DGRUT.has_progressive_effects_to_render,
    Engine3DGRUT.has_progressive_effects_to_render_reads.
  destruct (Engine3DGRUT.use_depth_of_field self), (Engine3DGRUT.use_spp self); simpl.
  all: repeat match goal with
         | |- context [?a <=? ?b] => destruct (Z.leb_spec a b); simpl
         end.
  all: repeat split; try lia; try reflexivity; intros; try discriminate;
    try (left; split; [reflexivity|lia]); try (right; repeat split; lia);
    try (destruct H as [[? ?]|[? ?]]; try discriminate; try lia;
         destruct H0; try discriminate; lia).
Qed.

(** With both effects off no counter is read. *)
Lemma no_effect_no_counter_read :
  (s ← example_engine;
   Ok (Engine3DGRUT.has_progressive_effects_to_render_reads
         (configure "Pinhole" false false true s)))
  = Ok (false, []).
Proof. vm_compute. reflexivity. Qed.

(** ** Engine3DGRUT._accumulate_to_buffer *)
















Section Accumulate.
Context `{Collaborators}.


End Accumulate.


(** ** Engine3DGRUT.render_pass: the camera's device *)

Section RenderPass.
Context `{Collaborators}.

(** C10.  A camera on the CPU is moved to the CUDA device first: the pass
    returns, or raises, exactly as it does on the camera already moved. *)
Theorem render_pass_moves_cpu_camera (self : Engine3DGRUT.state) (camera : Camera)
  (is_first_pass : bool) :
  camera_device camera = "cpu"%string ->
  camera_device (camera_cuda camera) = "cuda"%string /\
  Engine3DGRUT.render_pass self camera is_first_pass
  = Engine3DGRUT.render_pass self (camera_cuda camera) is_first_pass.
Proof.
  intros Hcpu. split; [reflexivity|].
  unfold Engine3DGRUT.render_pass. rewrite Hcpu.
  destruct (decide ("cpu"%string = "cpu"%string)) as [_|Hne]; [|contradiction].
  destruct (decide (camera_device (camera_cuda camera) = "cpu"%string)) as [Heq|_];
    [discriminate|reflexivity].
Qed.

(** ** Engine3DGRUT.render_pass: the mask *)






Lemma read_Ok (h : Heap) (r : Ref) (img : Image) :
  read h r = Ok img <-> h !! r = Some img.
Proof.
  unfold read. destruct (h !! r); split; intros Hx; try discriminate; congruence.
Qed.





End RenderPass.

(** *** Runs of the engine on the simple collaborators *)

Lemma example_engine_starts : example_engine = Ok started_engine.
Proof. vm_compute. reflexivity. Qed.

Lemma render_pass_moves_cpu_camera_witness :
  Engine3DGRUT.render_pass (H := Simple.collaborators) started_engine cpu_camera true
  = Engine3DGRUT.render_pass (H := Simple.collaborators) started_engine
      (camera_cuda cpu_camera) true.
Proof.
  exact (proj2 (render_pass_moves_cpu_camera (H := Simple.collaborators)
                  started_engine cpu_camera true eq_refl)).
Defined.


(** ** Engine3DGRUT.render_pass once accumulation has ended *)

(** C8: fisheye camera, denoiser on, no progressive effect.  After the first
    pass nothing is left to accumulate, yet the next pass displays another
    image: the first pass denoised the buffer and then zeroed the masked
    pixel in both the display and the cached noisy buffer; the next pass
    denoises the cached buffer, which now has the zero in it.  The cached
    noisy buffer itself is the same after both passes. *)
Theorem converged_pass_changes_display :
  converged_run
  = Ok (false,
        [[[1 # 2; 1 # 2; 1 # 2]; [0; 0; 0]]]%Q,
        [[[1 # 4; 1 # 4; 1 # 4]; [0; 0; 0]]]%Q,
        false,
        [[[1 # 2; 1 # 2; 1 # 2]; [0; 0; 0]]]%Q,
        [[[1 # 2; 1 # 2; 1 # 2]; [0; 0; 0]]]%Q).
Proof. vm_compute. reflexivity. Qed.

(** *** Passes that find nothing to accumulate and no mask *)

Section Converged.
Context `{Collaborators}.

(** Ray generation only advances the antialiasing controller. *)
Lemma raygen_loop_frame (n : nat) (camera : Camera) (use_spp : bool) :
  forall self self' rays,
    Engine3DGRUT.raygen_loop n self camera use_spp = Ok (self', rays) ->
    self' = Engine3DGRUT.set_spp (Engine3DGRUT.spp self') self.
Proof.
  induction n as [|n IH]; intros self self' rays Hrun; simpl in Hrun.
  - injection Hrun as <- _. destruct self; reflexivity.
  - destruct use_spp.
    + destruct (spp_call _ _ _) as [j spp'].
      apply bind_Ok in Hrun as (next_rays & _ & Hrun).
      apply bind_Ok in Hrun as ([self2 rays2] & Hloop & Hrun). simpl in Hrun.
      injection Hrun as <- _. apply IH in Hloop. rewrite Hloop. reflexivity.
    + apply bind_Ok in Hrun as (next_rays & _ & Hrun).
      apply bind_Ok in Hrun as ([self2 rays2] & Hloop & Hrun). simpl in Hrun.
      injection Hrun as <- _. apply IH in Hloop. exact Hloop.
Qed.

Lemma raygen_frame (self self' : Engine3DGRUT.state) (camera : Camera) (use_spp : bool)
  (rays : RayPack.t) :
  Engine3DGRUT.raygen self camera use_spp = Ok (self', rays) ->
  self' = Engine3DGRUT.set_spp (Engine3DGRUT.spp self') self.
Proof.
  unfold Engine3DGRUT.raygen. intros Hrun.
  apply bind_Ok in Hrun as ([self2 rays2] & Hloop & Hrun). simpl in Hrun.
  destruct rays2 as [|r0 rays2]; [discriminate|].
  apply bind_Ok in Hrun as (ori & _ & Hrun). apply bind_Ok in Hrun as (dir & _ & Hrun).
  injection Hrun as <- _. eapply raygen_loop_frame, Hloop.
Qed.

(** A pass after the first one, on rays without a mask, when the controller
    in charge reports nothing left to accumulate: the cached noisy buffer and
    opacity are handed back untouched, and the display is the noisy buffer,
    denoised afresh when the denoiser is on.  Two such passes in a row
    display the same image. *)
Lemma converged_pass_without_mask (self self1 : Engine3DGRUT.state) (camera : Camera)
  (rays : RayPack.t) (noisy_ref : Ref) (noisy : Image) :
  Engine3DGRUT.raygen self (on_cuda camera)
    (negb (Engine3DGRUT.use_depth_of_field self) && Engine3DGRUT.use_spp self)
  = Ok (self1, rays) ->
  RayPack.mask rays = None ->
  Engine3DGRUT.ls_rgb_buffer (Engine3DGRUT.last_state self) = Some noisy_ref ->
  read (Engine3DGRUT.heap self) noisy_ref = Ok noisy ->
  (Engine3DGRUT.use_depth_of_field self = true ->
   dof_has_more_to_accumulate (Engine3DGRUT.depth_of_field self1) = false) ->
  (Engine3DGRUT.use_depth_of_field self = false -> Engine3DGRUT.use_spp self = true ->
   spp_has_more_to_accumulate (Engine3DGRUT.spp self1) = false) ->
  exists self' rb,
    Engine3DGRUT.render_pass self camera false = Ok (self', rb) /\
    Engine3DGRUT.rb_rgb_buffer rb = Some noisy_ref /\
    Engine3DGRUT.rb_opacity rb = Engine3DGRUT.ls_opacity (Engine3DGRUT.last_state self) /\
    read (Engine3DGRUT.heap self') noisy_ref = Ok noisy /\
    read (Engine3DGRUT.heap self') (Engine3DGRUT.rb_rgb rb)
    = Ok (if Engine3DGRUT.use_optix_denoiser self then denoise noisy else noisy) /\
    Engine3DGRUT.ls_rgb_buffer (Engine3DGRUT.last_state self') = Some noisy_ref /\
    Engine3DGRUT.ls_opacity (Engine3DGRUT.last_state self')
    = Engine3DGRUT.ls_opacity (Engine3DGRUT.last_state self) /\
    (forall r img, Engine3DGRUT.heap self !! r = Some img ->
                   Engine3DGRUT.heap self' !! r = Some img).
Proof.
  intros Hgen Hmask Hbuf Hread Hdof Hspp.
  pose proof (raygen_frame _ _ _ _ _ Hgen) as Hframe.
  unfold Engine3DGRUT.render_pass. fold (on_cuda camera).
  unfold Engine3DGRUT.render_pass_buffers. simpl negb. rewrite andb_true_l.
  rewrite Hgen. simpl.
  rewrite Hframe. simpl. rewrite Hbuf.
  assert (Hstage :
    (if Engine3DGRUT.use_depth_of_field self
     then Engine3DGRUT._render_depth_of_field_buffer
            (Engine3DGRUT.set_spp (Engine3DGRUT.spp self1) self)
            (Engine3DGRUT.mkRenderBuffers noisy_ref
               (Engine3DGRUT.ls_opacity (Engine3DGRUT.last_state self)) None)
            (on_cuda camera) rays
     else if Engine3DGRUT.use_spp self
          then Engine3DGRUT._render_spp_buffer
                 (Engine3DGRUT.set_spp (Engine3DGRUT.spp self1) self)
                 (Engine3DGRUT.mkRenderBuffers noisy_ref
                    (Engine3DGRUT.ls_opacity (Engine3DGRUT.last_state self)) None) rays
          else Ok (Engine3DGRUT.set_spp (Engine3DGRUT.spp self1) self,
                   Engine3DGRUT.mkRenderBuffers noisy_ref
                     (Engine3DGRUT.ls_opacity (Engine3DGRUT.last_state self)) None))
    = Ok (Engine3DGRUT.set_spp (Engine3DGRUT.spp self1) self,
          Engine3DGRUT.mkRenderBuffers noisy_ref
            (Engine3DGRUT.ls_opacity (Engine3DGRUT.last_state self)) None)).
  { destruct (Engine3DGRUT.use_depth_of_field self) eqn:Edof.
    - unfold Engine3DGRUT._render_depth_of_field_buffer. simpl. rewrite Edof. simpl.
      rewrite Hframe in Hdof. simpl in Hdof. rewrite (Hdof eq_refl). reflexivity.
    - destruct (Engine3DGRUT.use_spp self) eqn:Espp; [|reflexivity].
      unfold Engine3DGRUT._render_spp_buffer. simpl. rewrite Espp. simpl.
      rewrite (Hspp eq_refl eq_refl). reflexivity. }
  rewrite Hstage. simpl.
  destruct (Engine3DGRUT.use_optix_denoiser self) eqn:Eden; simpl.
  - rewrite Hread. simpl. unfold Engine3DGRUT.apply_mask. rewrite Hmask. simpl.
    eexists _, _. split; [reflexivity|]. simpl.
    apply read_Ok in Hread.
    repeat split; try reflexivity.
    + apply read_Ok. apply lookup_app_l_Some. exact Hread.
    + apply read_Ok. rewrite lookup_app_r by lia.
      rewrite Nat.sub_diag. reflexivity.
    + intros r img Hr. apply lookup_app_l_Some. exact Hr.
  - unfold Engine3DGRUT.apply_mask. rewrite Hmask. simpl.
    eexists _, _. split; [reflexivity|]. simpl.
    repeat split; try reflexivity; try assumption. intros r img Hr. exact Hr.
Qed.

End Converged.

(** ** A registry without the default materials, for the runs below *)

(** ** OptixPrimitive.stack *)

Lemma triangles_within_shift (offset n hi : Z) (ts : list Triangle) :
  triangles_within 0 n ts -> offset + n <= hi -> 0 <= offset ->
  triangles_within offset hi (map (OptixPrimitiveM.shift_triangle offset) ts).
Proof.
  intros Hts Hhi Hoff. unfold triangles_within in *. rewrite Forall_map.
  eapply Forall_impl; [exact Hts|]. intros [[a b] c]. simpl. lia.
Qed.

Lemma triangles_within_weaken (lo lo' hi hi' : Z) (ts : list Triangle) :
  triangles_within lo hi ts -> lo' <= lo -> hi <= hi' -> triangles_within lo' hi' ts.
Proof.
  intros Hts Hlo Hhi. unfold triangles_within in *.
  eapply Forall_impl; [exact Hts|]. intros [[a b] c]. simpl. lia.
Qed.

Lemma stacked_triangles_within (ps : list OptixPrimitive) : forall acc : Z,
  0 <= acc ->
  Forall indexes_own_vertices ps ->
  triangles_within 0 (acc + Z.of_nat (total_vertices ps))
    (concat (zip_with (fun p offset => map (OptixPrimitiveM.shift_triangle offset) (triangles p))
               ps (OptixPrimitiveM.offsets_from acc (map (fun p => length (vertices p)) ps)))).
Proof.
  induction ps as [|p ps IH]; intros acc Hacc Hall; simpl; [constructor|].
  apply Forall_cons in Hall as [Hp Hps].
  unfold triangles_within. apply Forall_app. split.
  - eapply triangles_within_weaken;
      [apply (triangles_within_shift acc _ (acc + Z.of_nat (length (vertices p))) _ Hp)| |]; lia.
  - eapply triangles_within_weaken; [apply (IH (acc + Z.of_nat (length (vertices p))))| |];
      try assumption; lia.
Qed.

Lemma length_concat_map {A B} (f : A -> list B) (l : list A) :
  length (concat (map f l)) = foldr (fun a acc => (length (f a) + acc)%nat) 0%nat l.
Proof. induction l as [|a l IH]; simpl; [reflexivity|]. rewrite length_app, IH. reflexivity. Qed.

Lemma stack_inv (ps : list OptixPrimitive) (fields : StackedFields) :
  OptixPrimitiveM.stack ps = Ok fields ->
  ps <> [] /\
  st_vertices fields = concat (map vertices ps) /\
  st_triangles fields
  = concat (zip_with (fun p offset => map (OptixPrimitiveM.shift_triangle offset) (triangles p))
              ps (OptixPrimitiveM.offsets_from 0 (map (fun p => length (vertices p)) ps))) /\
  st_primitive_type_tensor fields = concat (map primitive_type_tensor ps) /\
  st_refractive_index_tensor fields = concat (map refractive_index_tensor ps).
Proof.
  unfold OptixPrimitiveM.stack. destruct ps as [|p ps]; [discriminate|].
  destruct (bool_decide _ || bool_decide _); [discriminate|].
  intros Hf. injection Hf as <-. repeat split. discriminate.
Qed.

Lemma shifted_triangles_length (ps : list OptixPrimitive) : forall acc,
  length (concat (zip_with (fun p offset => map (OptixPrimitiveM.shift_triangle offset) (triangles p))
                    ps (OptixPrimitiveM.offsets_from acc (map (fun p => length (vertices p)) ps))))
  = length (concat (map triangles ps)).
Proof.
  induction ps as [|p ps IH]; intros acc; simpl; [reflexivity|].
  rewrite !length_app, length_map, IH. reflexivity.
Qed.

(** Where the triangles of the [k]-th primitive sit in the merged array, and
    by how much they are shifted. *)
Lemma stacked_triangle_lookup (ps : list OptixPrimitive) : forall (acc : Z) k p j tri,
  ps !! k = Some p -> triangles p !! j = Some tri ->
  concat (zip_with (fun p offset => map (OptixPrimitiveM.shift_triangle offset) (triangles p))
            ps (OptixPrimitiveM.offsets_from acc (map (fun p => length (vertices p)) ps)))
    !! (total_triangles (take k ps) + j)%nat
  = Some (OptixPrimitiveM.shift_triangle (acc + Z.of_nat (total_vertices (take k ps))) tri).
Proof.
  induction ps as [|p0 ps IH]; intros acc k p j tri Hk Hj; [discriminate|].
  destruct k as [|k]; simpl in Hk |- *.
  - injection Hk as ->. rewrite lookup_app_l.
    + rewrite list_lookup_fmap, Hj, Z.add_0_r. reflexivity.
    + rewrite length_map. eapply lookup_lt_Some, Hj.
  - rewrite lookup_app_r by (rewrite length_map; lia).
    rewrite length_map.
    replace (length (triangles p0) + total_triangles (take k ps) + j - length (triangles p0))%nat
      with (total_triangles (take k ps) + j)%nat by lia.
    rewrite (IH _ k p j tri Hk Hj). f_equal. f_equal. lia.
Qed.

(** Where the vertices of the [k]-th primitive sit in the merged buffer. *)
Lemma stacked_vertex_lookup (ps : list OptixPrimitive) : forall k p (a : nat),
  ps !! k = Some p -> (a < length (vertices p))%nat ->
  concat (map vertices ps) !! (total_vertices (take k ps) + a)%nat = vertices p !! a.
Proof.
  induction ps as [|p0 ps IH]; intros k p a Hk Ha; [discriminate|].
  destruct k as [|k]; simpl in Hk |- *.
  - injection Hk as ->. apply lookup_app_l, Ha.
  - rewrite lookup_app_r by lia.
    replace (length (vertices p0) + total_vertices (take k ps) + a - length (vertices p0))%nat
      with (total_vertices (take k ps) + a)%nat by lia.
    apply IH; assumption.
Qed.

Lemma shifted_vertex_at (ps : list OptixPrimitive) (k : nat) (p : OptixPrimitive) (a : Z) :
  ps !! k = Some p -> 0 <= a < Z.of_nat (length (vertices p)) ->
  vertex_at (concat (map vertices ps)) (a + Z.of_nat (total_vertices (take k ps)))
  = vertex_at (vertices p) a.
Proof.
  intros Hk Ha. unfold vertex_at.
  rewrite (proj2 (Z.leb_le 0 a)) by lia.
  rewrite (proj2 (Z.leb_le 0 _)) by lia.
  replace (Z.to_nat (a + Z.of_nat (total_vertices (take k ps))))
    with (total_vertices (take k ps) + Z.to_nat a)%nat by lia.
  apply stacked_vertex_lookup; [exact Hk|lia].
Qed.

(** X1.  Stacking keeps the mesh consistent.  The merged vertex buffer is the
    vertex buffers of the primitives one after the other.  The merged
    triangle array has one triangle for every triangle of every primitive:
    the j-th triangle of the k-th primitive sits after the triangles of the
    primitives before it, with each index shifted by the number of vertices
    of the primitives before it, and when its indices were valid for its own
    primitive its three corners in the merged buffer are the same three
    vertices as before merging.  So when the triangles of every primitive
    index its own vertices, every merged triangle indexes the merged
    buffer. *)
Theorem stack_keeps_indices (primitives : list OptixPrimitive) (fields : StackedFields) :
  OptixPrimitiveM.stack primitives = Ok fields ->
  st_vertices fields = concat (map vertices primitives) /\
  length (st_vertices fields) = total_vertices primitives /\
  length (st_triangles fields) = total_triangles primitives /\
  (forall k p j tri,
     primitives !! k = Some p -> triangles p !! j = Some tri ->
     let offset := Z.of_nat (total_vertices (take k primitives)) in
     st_triangles fields !! (total_triangles (take k primitives) + j)%nat
     = Some (OptixPrimitiveM.shift_triangle offset tri) /\
     (triangles_within 0 (Z.of_nat (length (vertices p))) [tri] ->
      corners (st_vertices fields) (OptixPrimitiveM.shift_triangle offset tri)
      = corners (vertices p) tri)) /\
  (Forall indexes_own_vertices primitives ->
   triangles_within 0 (Z.of_nat (length (st_vertices fields))) (st_triangles fields)).
Proof.
  intros Hstack. apply stack_inv in Hstack as (_ & Hv & Ht & _).
  rewrite Hv, Ht. split; [reflexivity|].
  split; [apply length_concat_map|].
  split; [rewrite shifted_triangles_length; apply length_concat_map|].
  split.
  - intros k p j tri Hk Hj offset. split.
    + rewrite (stacked_triangle_lookup primitives 0 k p j tri Hk Hj). reflexivity.
    + intros Hin. apply Forall_cons in Hin as [Hin _]. subst offset.
      destruct tri as [[a b] c]. destruct Hin as (Ha & Hb & Hc). simpl.
      rewrite !(shifted_vertex_at primitives k p) by assumption. reflexivity.
  - intros Hall. rewrite length_concat_map.
    apply (stacked_triangles_within primitives 0); [lia|exact Hall].
Qed.

Lemma stack_keeps_indices_witness :
  exists fields,
    OptixPrimitiveM.stack [tri_prim; tri_prim] = Ok fields /\
    st_triangles fields !! 1%nat = Some (3, 4, 5) /\
    corners (st_vertices fields) (3, 4, 5) = corners (vertices tri_prim) (0, 1, 2) /\
    triangles_within 0 6 (st_triangles fields).
Proof.
  destruct (OptixPrimitiveM.stack [tri_prim; tri_prim]) as [fields|e] eqn:Hstack;
    [|discriminate Hstack].
  destruct (stack_keeps_indices [tri_prim; tri_prim] fields Hstack)
    as (_ & Hlen & _ & Hat & Hin).
  assert (Hown : indexes_own_vertices tri_prim).
  { unfold indexes_own_vertices, triangles_within. simpl. constructor; [lia|constructor]. }
  destruct (Hat 1%nat tri_prim 0%nat (0, 1, 2) eq_refl eq_refl) as [Htri Hcorners].
  exists fields. split; [reflexivity|]. split; [exact Htri|]. split; [exact (Hcorners Hown)|].
  rewrite Hlen in Hin. apply Hin.
  constructor; [exact Hown|constructor; [exact Hown|constructor]].
Defined.

(** ** Primitives.recompute_stacked_buffers and rebuild_bvh_if_needed *)

Lemma mapM_inv {A B} (f : A -> result B) (l : list A) (bs : list B) :
  mapM f l = Ok bs -> Forall2 (fun a b => f a = Ok b) l bs.
Proof.
  revert bs. induction l as [|a l IH]; intros bs Hm; simpl in Hm.
  - injection Hm as <-. constructor.
  - apply bind_Ok in Hm as (b & Hb & Hm). apply bind_Ok in Hm as (bs' & Hbs & Hm).
    injection Hm as <-. constructor; auto.
Qed.

Section Stacking.
Context `{Collaborators}.

Lemma rederive_face_tensors_inv (p q : OptixPrimitive) :
  Primitives.rederive_face_tensors p = Ok q ->
  exists ty ri,
    primitive_type q = Some ty /\ refractive_index q = Some ri /\
    triangles q = triangles p /\
    primitive_type_tensor q = replicate (length (triangles p)) (primitive_type_value ty) /\
    refractive_index_tensor q = replicate (length (triangles p)) ri.
Proof.
  unfold Primitives.rederive_face_tensors.
  destruct (primitive_type p) as [ty|] eqn:Ety; [|discriminate].
  destruct (refractive_index p) as [ri|] eqn:Eri; [|discriminate].
  intros Hq. injection Hq as <-. exists ty, ri. simpl. repeat split; assumption.
Qed.

Lemma stacked_face_tensors (qs : list OptixPrimitive) :
  Forall (fun q => face_tensors_rederived q /\ Primitives.is_visible q = true) qs ->
  Forall (fun v => 1 <= v <= 3) (concat (map primitive_type_tensor qs)) /\
  length (concat (map primitive_type_tensor qs)) = length (concat (map triangles qs)) /\
  length (concat (map refractive_index_tensor qs)) = length (concat (map triangles qs)).
Proof.
  induction 1 as [|q qs [(ty & ri & Hty & Htt & Hrt) Hvis] _ (IH1 & IH2 & IH3)]; simpl.
  - split; [constructor|split; reflexivity].
  - rewrite !length_app, IH2, IH3, Htt, Hrt, !length_replicate.
    split; [|split; reflexivity].
    apply Forall_app. split; [|exact IH1].
    apply Forall_replicate.
    unfold Primitives.is_visible in Hvis. rewrite Hty in Hvis.
    destruct ty; simpl in *; try lia; discriminate.
Qed.

(** [recompute_stacked_buffers] writes [stacked_fields] and nothing else. *)
Lemma recompute_stacked_buffers_frame (self self' : Primitives.state) :
  Primitives.recompute_stacked_buffers self = Ok self' ->
  self' = Primitives.set_stacked_fields (Primitives.stacked_fields self') self.
Proof.
  unfold Primitives.recompute_stacked_buffers. intros Hrun.
  apply bind_Ok in Hrun as (objs1 & _ & Hrun). apply bind_Ok in Hrun as (objs2 & _ & Hrun).
  destruct (Primitives.has_visible_objects _).
  - apply bind_Ok in Hrun as (fields & _ & Hrun). injection Hrun as <-. reflexivity.
  - injection Hrun as <-. reflexivity.
Qed.

(** [rebuild_bvh_if_needed] clears the dirty flag and keeps the objects, the
    instance counters and the material registry. *)
Lemma rebuild_bvh_if_needed_frame (self self' : Primitives.state) (tracer tracer' : Tracer)
  (force rebuild : bool) :
  Primitives.rebuild_bvh_if_needed self tracer force rebuild = Ok (self', tracer') ->
  Primitives.dirty self' = false /\
  Primitives.objects self' = Primitives.objects self /\
  Primitives.instance_counter self' = Primitives.instance_counter self /\
  Primitives.registered_materials self' = Primitives.registered_materials self.
Proof.
  unfold Primitives.rebuild_bvh_if_needed. intros Hrun.
  apply bind_Ok in Hrun as ([self1 tracer1] & Hstep & Hrun). simpl in Hrun.
  injection Hrun as <- <-.
  destruct (Primitives.dirty self || force).
  - destruct (Primitives.has_visible_objects self).
    + apply bind_Ok in Hstep as (self2 & Hrec & Hstep).
      destruct (Primitives.stacked_fields self2) as [fields|]; [|discriminate].
      injection Hstep as <- <-.
      apply recompute_stacked_buffers_frame in Hrec. rewrite Hrec. simpl. repeat split.
    + injection Hstep as <- <-. simpl. repeat split.
  - injection Hstep as <- <-. simpl. repeat split.
Qed.

(** X2.  What [recompute_stacked_buffers] leaves in [stacked_fields]: nothing
    when no primitive is visible; otherwise buffers in which no face carries
    the type NONE (every entry of the type array is 1, 2 or 3) and the type
    and refraction arrays have one entry per merged triangle.  Objects,
    counters, materials and the dirty flag are not touched. *)
Theorem recompute_stacked_buffers_excludes_none (self self' : Primitives.state) :
  Primitives.recompute_stacked_buffers self = Ok self' ->
  self' = Primitives.set_stacked_fields (Primitives.stacked_fields self') self /\
  (Primitives.has_visible_objects self = false -> Primitives.stacked_fields self' = None) /\
  (Primitives.has_visible_objects self = true ->
   exists fields,
     Primitives.stacked_fields self' = Some fields /\
     Forall (fun v => 1 <= v <= 3) (st_primitive_type_tensor fields) /\
     length (st_primitive_type_tensor fields) = length (st_triangles fields) /\
     length (st_refractive_index_tensor fields) = length (st_triangles fields)).
Proof.
  unfold Primitives.recompute_stacked_buffers. intros Hrun.
  apply bind_Ok in Hrun as (objs1 & H1 & Hrun). apply bind_Ok in Hrun as (objs2 & H2 & Hrun).
  replace (Primitives.has_visible_objects (Primitives.set_stacked_fields None self))
    with (Primitives.has_visible_objects self) in Hrun by reflexivity.
  destruct (Primitives.has_visible_objects self) eqn:Hvis.
  - apply bind_Ok in Hrun as (fields & Hstack & Hrun). injection Hrun as <-.
    split; [reflexivity|]. split; [discriminate|]. intros _.
    exists fields. split; [reflexivity|].
    assert (Hall : Forall (fun q => face_tensors_rederived q /\ Primitives.is_visible q = true)
                     (filter (fun p => Primitives.is_visible p = true) objs2)).
    { apply Forall_forall. intros q Hq. apply list_elem_of_filter in Hq as [Hv Hq].
      split; [|exact Hv]. apply mapM_inv in H2.
      apply list_elem_of_lookup in Hq as [i Hi].
      destruct (Forall2_lookup_r _ _ _ _ _ H2 Hi) as (p & _ & Hp).
      apply rederive_face_tensors_inv in Hp as (ty & ri & Hty & _ & Htri & Htt & Hrt).
      exists ty, ri. rewrite Htri. repeat split; assumption. }
    apply stacked_face_tensors in Hall as (Hrange & Hl1 & Hl2).
    apply stack_inv in Hstack as (_ & _ & Ht & Hpt & Hri).
    rewrite Ht, Hpt, Hri, shifted_triangles_length. repeat split; assumption.
  - injection Hrun as <-. split; [reflexivity|]. split; [reflexivity|discriminate].
Qed.

(** X3.  What a call of [rebuild_bvh_if_needed] that returns has done.  The
    dirty flag is clear.  If the flag was clear and [force] is off, nothing
    else changed and the tracer was not called.  Otherwise the tracer got
    exactly one more build: from the placeholder (three null vertices, one
    null face) with rebuild = True whatever [rebuild] says when no primitive
    is visible, and from the freshly stacked vertices and triangles with the
    given [rebuild] when one is. *)
Theorem rebuild_bvh_if_needed_builds (self self' : Primitives.state) (tracer tracer' : Tracer)
  (force rebuild : bool) :
  Primitives.rebuild_bvh_if_needed self tracer force rebuild = Ok (self', tracer') ->
  Primitives.dirty self' = false /\
  Primitives.objects self' = Primitives.objects self /\
  Primitives.instance_counter self' = Primitives.instance_counter self /\
  Primitives.registered_materials self' = Primitives.registered_materials self /\
  (Primitives.dirty self || force = false ->
   tracer' = tracer /\ Primitives.stacked_fields self' = Primitives.stacked_fields self) /\
  (Primitives.dirty self || force = true ->
   Primitives.has_visible_objects self = false ->
   tracer' = build_mesh_acc tracer (replicate 3 (0, 0, 0)%Q) [(0, 0, 0)] true true /\
   Primitives.stacked_fields self' = Primitives.stacked_fields self) /\
  (Primitives.dirty self || force = true ->
   Primitives.has_visible_objects self = true ->
   exists fields,
     Primitives.stacked_fields self' = Some fields /\
     tracer' = build_mesh_acc tracer (st_vertices fields) (st_triangles fields) rebuild true).
Proof.
  unfold Primitives.rebuild_bvh_if_needed. intros Hrun.
  apply bind_Ok in Hrun as ([self1 tracer1] & Hstep & Hrun). simpl in Hrun.
  injection Hrun as <- <-.
  destruct (Primitives.dirty self || force) eqn:Hgo.
  - destruct (Primitives.has_visible_objects self) eqn:Hvis.
    + apply bind_Ok in Hstep as (self2 & Hrec & Hstep).
      destruct (Primitives.stacked_fields self2) as [fields|] eqn:Ef; [|discriminate].
      injection Hstep as <- <-.
      apply recompute_stacked_buffers_frame in Hrec as Hframe.
      rewrite Hframe. simpl. repeat split; try discriminate.
      intros _ _. exists fields. rewrite Ef. split; reflexivity.
    + injection Hstep as <- <-. simpl. repeat split; try discriminate.
  - injection Hstep as <- <-. simpl. repeat split; try discriminate.
Qed.

End Stacking.

Lemma rebuild_bvh_if_needed_builds_witness :
  exists fields,
    Primitives.stacked_fields built_quad.1 = Some fields /\
    built_quad.2
    = build_mesh_acc (mkTracer [] 0) (st_vertices fields) (st_triangles fields) true true.
Proof.
  assert (Hrun : Primitives.rebuild_bvh_if_needed (H := Simple.collaborators) one_quad
                   (mkTracer [] 0) false true = Ok (built_quad.1, built_quad.2))
    by (vm_compute; reflexivity).
  destruct (rebuild_bvh_if_needed_builds (H := Simple.collaborators) _ _ _ _ _ _ Hrun)
    as (_ & _ & _ & _ & _ & _ & Hvis).
  apply Hvis; vm_compute; reflexivity.
Defined.

Lemma recompute_stacked_buffers_excludes_none_witness :
  exists fields,
    Primitives.stacked_fields
      (or_else (Primitives.recompute_stacked_buffers (H := Simple.collaborators) one_quad)
               one_quad) = Some fields /\
    Forall (fun v => 1 <= v <= 3) (st_primitive_type_tensor fields).
Proof.
  assert (Hrun : Primitives.recompute_stacked_buffers (H := Simple.collaborators) one_quad
                 = Ok (or_else (Primitives.recompute_stacked_buffers
                                  (H := Simple.collaborators) one_quad) one_quad))
    by (vm_compute; reflexivity).
  destruct (recompute_stacked_buffers_excludes_none (H := Simple.collaborators) _ _ Hrun)
    as (_ & _ & Hvis).
  destruct Hvis as (fields & Hf & Hrange & _); [vm_compute; reflexivity|].
  exists fields. split; [exact Hf|exact Hrange].
Defined.

(** ** Primitives: the object dictionary *)

Lemma dict_get_set_eq {V} (k : string) (v : V) (d : list (string * V)) :
  dict_get k (dict_set k v d) = Some v.
Proof.
  induction d as [|[k' v'] d IH]; simpl.
  - destruct (decide (k = k)); [reflexivity|contradiction].
  - destruct (decide (k = k')) as [->|Hne]; simpl.
    + destruct (decide (k' = k')); [reflexivity|contradiction].
    + destruct (decide (k = k')); [contradiction|exact IH].
Qed.

Lemma dict_get_set_ne {V} (k k' : string) (v : V) (d : list (string * V)) :
  k <> k' -> dict_get k' (dict_set k v d) = dict_get k' d.
Proof.
  intros Hne. induction d as [|[k0 v0] d IH]; simpl.
  - destruct (decide (k' = k)); [congruence|reflexivity].
  - destruct (decide (k = k0)) as [->|Hne0]; simpl.
    + destruct (decide (k' = k0)); [congruence|reflexivity].
    + destruct (decide (k' = k0)); [reflexivity|exact IH].
Qed.

Lemma dict_get_del_ne {V} (k k' : string) (d : list (string * V)) :
  k <> k' -> dict_get k' (dict_del k d) = dict_get k' d.
Proof.
  intros Hne. induction d as [|[k0 v0] d IH]; simpl; [reflexivity|].
  destruct (decide (k = k0)) as [->|Hne0]; simpl.
  - destruct (decide (k' = k0)); [congruence|reflexivity].
  - destruct (decide (k' = k0)); [reflexivity|exact IH].
Qed.

Lemma dict_get_None {V} (k : string) (d : list (string * V)) :
  dict_get k d = None <-> k ∉ map fst d.
Proof.
  induction d as [|[k0 v0] d IH]; simpl.
  - split; [intros _; apply not_elem_of_nil|reflexivity].
  - rewrite not_elem_of_cons. destruct (decide (k = k0)) as [->|Hne].
    + split; [discriminate|intros [Hc _]; contradiction].
    + rewrite IH. tauto.
Qed.

Lemma dict_get_del_eq {V} (k : string) (d : list (string * V)) :
  NoDup (map fst d) -> dict_get k (dict_del k d) = None.
Proof.
  induction d as [|[k0 v0] d IH]; simpl; [reflexivity|].
  intros Hnd. apply NoDup_cons in Hnd as [Hk0 Hnd].
  destruct (decide (k = k0)) as [->|Hne]; simpl.
  - apply dict_get_None, Hk0.
  - destruct (decide (k = k0)); [contradiction|apply IH, Hnd].
Qed.

Lemma dict_del_keys {V} (k : string) (d : list (string * V)) :
  forall x, x ∈ map fst (dict_del k d) -> x ∈ map fst d.
Proof.
  induction d as [|[k0 v0] d IH]; simpl; intros x Hx; [exact Hx|].
  destruct (decide (k = k0)); simpl in *.
  - right. exact Hx.
  - apply elem_of_cons in Hx as [->|Hx]; [left|right; apply IH, Hx].
Qed.

Lemma dict_del_NoDup {V} (k : string) (d : list (string * V)) :
  NoDup (map fst d) -> NoDup (map fst (dict_del k d)).
Proof.
  induction d as [|[k0 v0] d IH]; simpl; intros Hnd; [exact Hnd|].
  apply NoDup_cons in Hnd as [Hk0 Hnd].
  destruct (decide (k = k0)); simpl; [exact Hnd|].
  apply NoDup_cons. split; [|apply IH, Hnd].
  intros Hin. apply Hk0. eapply dict_del_keys, Hin.
Qed.

Lemma dict_set_keys {V} (k : string) (v : V) (d : list (string * V)) :
  forall x, x ∈ map fst (dict_set k v d) -> x = k \/ x ∈ map fst d.
Proof.
  induction d as [|[k0 v0] d IH]; simpl; intros x Hx.
  - apply elem_of_cons in Hx as [->|Hx]; [left; reflexivity|right; exact Hx].
  - destruct (decide (k = k0)) as [->|Hne]; simpl in *.
    + right. exact Hx.
    + apply elem_of_cons in Hx as [->|Hx]; [right; left|].
      destruct (IH x Hx) as [->|Hin]; [left; reflexivity|right; right; exact Hin].
Qed.

Lemma dict_set_NoDup {V} (k : string) (v : V) (d : list (string * V)) :
  NoDup (map fst d) -> NoDup (map fst (dict_set k v d)).
Proof.
  induction d as [|[k0 v0] d IH]; simpl; intros Hnd.
  - apply NoDup_cons. split; [apply not_elem_of_nil|constructor].
  - apply NoDup_cons in Hnd as [Hk0 Hnd].
    destruct (decide (k = k0)) as [->|Hne]; simpl.
    + apply NoDup_cons. split; assumption.
    + apply NoDup_cons. split; [|apply IH, Hnd].
      intros Hin. apply dict_set_keys in Hin as [->|Hin]; [contradiction|contradiction].
Qed.

Lemma dict_set_length {V} (k : string) (v : V) (d : list (string * V)) :
  length (dict_set k v d)
  = match dict_get k d with Some _ => length d | None => S (length d) end.
Proof.
  induction d as [|[k0 v0] d IH]; simpl; [reflexivity|].
  destruct (decide (k = k0)); simpl; [reflexivity|].
  rewrite IH. destruct (dict_get k d); reflexivity.
Qed.

Lemma instance_name_inj (g : string) (n m : Z) :
  instance_name g n = instance_name g m -> n = m.
Proof.
  unfold instance_name. intros Heq. apply (inj (String.append g)) in Heq.
  apply (inj (String.append " ")) in Heq. apply (inj pretty) in Heq. exact Heq.
Qed.

(** *** Instance names *)

Lemma pretty_N_char_no_space (x : N) : pretty_N_char x <> " "%char.
Proof. unfold pretty_N_char. repeat case_match; discriminate. Qed.

Lemma pretty_N_go_no_space (x : N) : forall s,
  has_space s = false -> has_space (pretty_N_go x s) = false.
Proof.
  induction (N.lt_wf_0 x) as [x _ IH]. intros s Hs.
  destruct (decide (x = 0%N)) as [->|Hne].
  - rewrite pretty_N_go_0. exact Hs.
  - rewrite pretty_N_go_step by lia. apply IH.
    + apply N.div_lt; lia.
    + simpl. rewrite Hs, orb_false_r. apply bool_decide_eq_false_2, pretty_N_char_no_space.
Qed.

Lemma pretty_Z_no_space (n : Z) : has_space (pretty n) = false.
Proof.
  assert (HN : forall x : N, has_space (pretty x) = false).
  { intros x. unfold pretty, pretty_N. destruct (decide (x = 0%N)); [reflexivity|].
    apply pretty_N_go_no_space. reflexivity. }
  destruct n as [|p|p]; [reflexivity| |].
  - apply (HN (Npos p)).
  - change (pretty (Z.neg p)) with (String "-"%char (pretty (Npos p))).
    simpl. apply (HN (Npos p)).
Qed.

Lemma append_nil_l (s : string) : ("" +:+ s)%string = s.
Proof. reflexivity. Qed.

Lemma append_cons (c : ascii) (a b : string) :
  (String c a +:+ b)%string = String c (a +:+ b)%string.
Proof. reflexivity. Qed.

Lemma has_space_app (a b : string) :
  has_space (a +:+ b) = has_space a || has_space b.
Proof.
  induction a as [|c a IH]; [reflexivity|].
  rewrite append_cons. simpl. rewrite IH, orb_assoc. reflexivity.
Qed.

Lemma has_space_after (g p : string) : has_space (g +:+ " " +:+ p) = true.
Proof.
  rewrite has_space_app. change (" " +:+ p)%string with (String " "%char p). simpl.
  apply orb_true_r.
Qed.

Lemma split_at_last_space (g g' p p' : string) :
  has_space p = false -> has_space p' = false ->
  (g +:+ " " +:+ p = g' +:+ " " +:+ p')%string -> g = g' /\ p = p'.
Proof.
  intros Hp Hp'. revert g'. induction g as [|c g IH]; intros [|c' g'] Heq.
  - rewrite !append_nil_l in Heq. injection Heq as Heq.
    rewrite !append_nil_l in Heq. split; [reflexivity|exact Heq].
  - rewrite append_nil_l, append_cons in Heq. injection Heq as _ Heq.
    rewrite append_nil_l in Heq. rewrite Heq, has_space_after in Hp. discriminate.
  - rewrite append_nil_l, append_cons in Heq. injection Heq as _ Heq.
    rewrite append_nil_l in Heq. rewrite <- Heq, has_space_after in Hp'. discriminate.
  - rewrite !append_cons in Heq. injection Heq as -> Heq.
    apply IH in Heq as [-> ->]. split; reflexivity.
Qed.

(** Two instance names are equal only for the same type and number. *)
Lemma instance_name_inj2 (g g' : string) (n n' : Z) :
  instance_name g n = instance_name g' n' -> g = g' /\ n = n'.
Proof.
  unfold instance_name. intros Heq.
  apply split_at_last_space in Heq as [-> Hp]; try apply pretty_Z_no_space.
  split; [reflexivity|]. apply (inj pretty), Hp.
Qed.

Lemma dict_del_length {V} (k : string) (d : list (string * V)) (v : V) :
  dict_get k d = Some v -> S (length (dict_del k d)) = length d.
Proof.
  induction d as [|[k0 v0] d IH]; simpl; [discriminate|].
  destruct (decide (k = k0)); [reflexivity|]. intros Hg. simpl. f_equal. apply IH, Hg.
Qed.

Section Mutators.
Context `{Collaborators}.

(** [create_geometry] only ever touches the material registry. *)
Lemma create_geometry_frame (self self' : Primitives.state) (geometry_type device : string)
  (mesh : Mesh) :
  Primitives.create_geometry self geometry_type device = Ok (mesh, self') ->
  exists reg, self' = Primitives.set_registered_materials reg self.
Proof.
  unfold Primitives.create_geometry. intros Hc.
  apply bind_Ok in Hc as ([mesh0 self0] & Hsel & Hret). simpl in Hret.
  injection Hret as _ <-.
  destruct (decide (geometry_type = "Quad"%string)).
  - injection Hsel as _ <-. eexists. symmetry. apply set_registered_materials_same.
  - destruct (Primitives.assets self !! geometry_type) as [mesh_path|]; [|discriminate].
    apply bind_Ok in Hsel as (loaded & _ & Hsel).
    destruct (0 <? length (load_materials loaded device))%nat.
    + rewrite register_materials_eq in Hsel.
      apply bind_Ok in Hsel as (assignments & _ & Hsel).
      injection Hsel as _ <-. eexists. reflexivity.
    + injection Hsel as _ <-. eexists. symmetry. apply set_registered_materials_same.
Qed.

(** What [add_primitive] returns, spelled out. *)
Lemma add_primitive_inv (self self' : Primitives.state) (g device : string)
  (ptype : OptixPrimitiveTypes) :
  Primitives.add_primitive self g ptype device = Ok self' ->
  exists reg p,
    new_primitive g ptype p /\
    self' = Primitives.set_objects
              (dict_set (instance_name g (next_instance self g)) p (Primitives.objects self))
              (Primitives.set_registered_materials reg
                 (Primitives.set_instance_counter
                    (<[g := next_instance self g]> (Primitives.instance_counter self)) self)).
Proof.
  unfold Primitives.add_primitive. fold (next_instance self g).
  fold (instance_name g (next_instance self g)). intros Hadd.
  apply bind_Ok in Hadd as ([mesh self0] & Hgeo & Hadd). simpl in Hadd.
  apply create_geometry_frame in Hgeo as [reg ->].
  apply bind_Ok in Hadd as (tr & _ & Hadd).
  apply bind_Ok in Hadd as (tangents & Htg & Hadd).
  injection Hadd as <-. eexists reg, _. split; [|reflexivity].
  unfold new_primitive. simpl.
  repeat split; eauto.
  destruct (mesh_vertex_tangents mesh); rewrite length_replicate; reflexivity.
Qed.

End Mutators.

Section MutatorSpecs.
Context `{Collaborators}.

Lemma names_numbered_fresh (self : Primitives.state) (g : string) (n : Z) :
  names_numbered self -> instances_so_far self g < n ->
  dict_get (instance_name g n) (Primitives.objects self) = None.
Proof.
  intros [_ Hnum] Hn.
  destruct (dict_get (instance_name g n) (Primitives.objects self)) as [p|] eqn:Eg;
    [|reflexivity].
  destruct (Hnum _ _ Eg) as (g0 & n0 & _ & Hname & Hle).
  apply instance_name_inj2 in Hname as [-> ->]. lia.
Qed.

(** Storing a new instance under the next number keeps the names numbered. *)
Lemma names_numbered_insert (self self' : Primitives.state) (g : string) (p : OptixPrimitive) :
  names_numbered self ->
  geometry_type p = Some g ->
  Primitives.objects self'
  = dict_set (instance_name g (instances_so_far self g + 1)) p (Primitives.objects self) ->
  Primitives.instance_counter self'
  = <[g := instances_so_far self g + 1]> (Primitives.instance_counter self) ->
  names_numbered self'.
Proof.
  intros [Hnd Hnum] Hg Hobj Hcnt. unfold names_numbered, instances_so_far in *.
  rewrite Hobj, Hcnt. split; [apply dict_set_NoDup, Hnd|].
  set (n := default 0 (Primitives.instance_counter self !! g) + 1).
  intros name q Hq. destruct (decide (name = instance_name g n)) as [->|Hne].
  - rewrite dict_get_set_eq in Hq. injection Hq as <-.
    exists g, n. split; [exact Hg|]. split; [reflexivity|].
    rewrite lookup_insert_eq. simpl. lia.
  - rewrite dict_get_set_ne in Hq by congruence.
    destruct (Hnum _ _ Hq) as (g0 & n0 & Hg0 & Hname & Hle).
    exists g0, n0. split; [exact Hg0|]. split; [exact Hname|].
    destruct (decide (g = g0)) as [<-|Hgg].
    + rewrite lookup_insert_eq. simpl. unfold n. lia.
    + rewrite lookup_insert_ne by exact Hgg. exact Hle.
Qed.

(** Deleting an object keeps the names numbered. *)
Lemma names_numbered_delete (self self' : Primitives.state) (name : string) :
  names_numbered self ->
  Primitives.objects self' = dict_del name (Primitives.objects self) ->
  Primitives.instance_counter self' = Primitives.instance_counter self ->
  names_numbered self'.
Proof.
  intros [Hnd Hnum] Hobj Hcnt. unfold names_numbered, instances_so_far in *.
  rewrite Hobj, Hcnt. split; [apply dict_del_NoDup, Hnd|].
  intros nm q Hq. destruct (decide (name = nm)) as [->|Hne].
  - rewrite dict_get_del_eq in Hq by exact Hnd. discriminate.
  - rewrite dict_get_del_ne in Hq by exact Hne. apply Hnum, Hq.
Qed.

(** What [remove_primitive] returns, spelled out. *)
Lemma remove_primitive_inv (self self' : Primitives.state) (tracer tracer' : Tracer)
  (name : string) :
  Primitives.remove_primitive self tracer name = Ok (self', tracer') ->
  is_Some (dict_get name (Primitives.objects self)) /\
  Primitives.objects self' = dict_del name (Primitives.objects self) /\
  Primitives.instance_counter self' = Primitives.instance_counter self /\
  Primitives.registered_materials self' = Primitives.registered_materials self.
Proof.
  unfold Primitives.remove_primitive. intros Hrun.
  destruct (dict_get name (Primitives.objects self)) as [p|] eqn:Eg; [|discriminate].
  apply rebuild_bvh_if_needed_frame in Hrun as (_ & Hobj & Hcnt & Hreg).
  split; [eauto|]. split; [exact Hobj|]. split; [exact Hcnt|exact Hreg].
Qed.

(** The counter after [add_primitive] is the old one plus one. *)
Lemma next_instance_so_far (self : Primitives.state) (g : string) :
  next_instance self g = instances_so_far self g + 1.
Proof.
  unfold next_instance, instances_so_far.
  destruct (Primitives.instance_counter self !! g); reflexivity.
Qed.

(** X4.  [add_primitive] on a registry whose names are numbered by the
    counters: the counter of the geometry type goes up by one, the new
    primitive is stored under "<type> <counter>", a name no object had, with
    the requested type tags and per-face defaults; every other object is as
    it was, the registry has one object more, the dirty flag keeps its value,
    and the names are still numbered by the counters. *)
Theorem add_primitive_adds_one (self self' : Primitives.state) (g device : string)
  (ptype : OptixPrimitiveTypes) :
  names_numbered self ->
  Primitives.add_primitive self g ptype device = Ok self' ->
  let n := instances_so_far self g + 1 in
  Primitives.instance_counter self' = <[g := n]> (Primitives.instance_counter self) /\
  dict_get (instance_name g n) (Primitives.objects self) = None /\
  (exists p, dict_get (instance_name g n) (Primitives.objects self') = Some p /\
             new_primitive g ptype p) /\
  (forall name, name <> instance_name g n ->
     dict_get name (Primitives.objects self') = dict_get name (Primitives.objects self)) /\
  length (Primitives.objects self') = S (length (Primitives.objects self)) /\
  Primitives.dirty self' = Primitives.dirty self /\
  names_numbered self'.
Proof.
  intros Hnum Hadd n.
  apply add_primitive_inv in Hadd as (reg & p & Hp & ->).
  rewrite next_instance_so_far. fold n.
  assert (Hfresh : dict_get (instance_name g n) (Primitives.objects self) = None).
  { apply names_numbered_fresh; [exact Hnum|]. unfold n. lia. }
  simpl. split; [reflexivity|]. split; [exact Hfresh|]. split.
  { exists p. split; [apply dict_get_set_eq|exact Hp]. }
  split; [intros name Hne; apply dict_get_set_ne; congruence|].
  split; [rewrite dict_set_length, Hfresh; reflexivity|].
  split; [reflexivity|].
  eapply names_numbered_insert; [exact Hnum|apply Hp|reflexivity|reflexivity].
Qed.

(** X5.  [remove_primitive]: an unknown name is a KeyError on that name and
    nothing else happens; a known name is deleted, the other objects, the
    counters and the materials are as they were, the registry has one object
    fewer, and names numbered by the counters stay so. *)
Theorem remove_primitive_removes_one (self : Primitives.state) (tracer : Tracer)
  (name : string) :
  (dict_get name (Primitives.objects self) = None ->
   Primitives.remove_primitive self tracer name = Raise (KeyError name)) /\
  (forall self' tracer',
     names_numbered self ->
     Primitives.remove_primitive self tracer name = Ok (self', tracer') ->
     is_Some (dict_get name (Primitives.objects self)) /\
     dict_get name (Primitives.objects self') = None /\
     (forall other, other <> name ->
        dict_get other (Primitives.objects self') = dict_get other (Primitives.objects self)) /\
     S (length (Primitives.objects self')) = length (Primitives.objects self) /\
     Primitives.instance_counter self' = Primitives.instance_counter self /\
     Primitives.registered_materials self' = Primitives.registered_materials self /\
     names_numbered self').
Proof.
  split.
  - intros Hnone. unfold Primitives.remove_primitive. rewrite Hnone. reflexivity.
  - intros self' tracer' Hnum Hrun.
    apply remove_primitive_inv in Hrun as ([p Eg] & Hobj & Hcnt & Hreg).
    split; [eauto|]. rewrite Hobj.
    split; [apply dict_get_del_eq, Hnum|].
    split; [intros other Hne; apply dict_get_del_ne; congruence|].
    split; [eapply dict_del_length, Eg|]. split; [exact Hcnt|]. split; [exact Hreg|].
    eapply names_numbered_delete; eassumption.
Qed.

(** X6.  [duplicate_primitive]: an unknown name is a KeyError on that name;
    on a registry whose names are numbered by the counters the copy is stored
    under the next instance name of its geometry type, equal to the original,
    which stays where it was; every other object is untouched, the registry
    has one object more and the names are still numbered by the counters. *)
Theorem duplicate_primitive_copies (self : Primitives.state) (tracer : Tracer)
  (name : string) :
  (dict_get name (Primitives.objects self) = None ->
   Primitives.duplicate_primitive self tracer name = Raise (KeyError name)) /\
  (forall self' tracer',
     names_numbered self ->
     Primitives.duplicate_primitive self tracer name = Ok (self', tracer') ->
     exists p g,
       dict_get name (Primitives.objects self) = Some p /\
       geometry_type p = Some g /\
       let n := instances_so_far self g + 1 in
       name <> instance_name g n /\
       Primitives.instance_counter self' = <[g := n]> (Primitives.instance_counter self) /\
       dict_get (instance_name g n) (Primitives.objects self') = Some p /\
       dict_get name (Primitives.objects self') = Some p /\
       (forall other, other <> instance_name g n ->
          dict_get other (Primitives.objects self')
          = dict_get other (Primitives.objects self)) /\
       length (Primitives.objects self') = S (length (Primitives.objects self)) /\
       names_numbered self').
Proof.
  split.
  - intros Hnone. unfold Primitives.duplicate_primitive. rewrite Hnone. reflexivity.
  - intros self' tracer' Hnum Hrun. unfold Primitives.duplicate_primitive in Hrun.
    destruct (dict_get name (Primitives.objects self)) as [p|] eqn:Eg; [|discriminate].
    pose proof Hnum as [Hnd Hall].
    destruct (Hall _ _ Eg) as (g & n0 & Hg & Hname & Hle).
    rewrite Hg in Hrun. simpl in Hrun.
    destruct (Primitives.instance_counter self !! g) as [c|] eqn:Ec; [|discriminate].
    assert (Hc : instances_so_far self g = c) by (unfold instances_so_far; rewrite Ec; reflexivity).
    apply rebuild_bvh_if_needed_frame in Hrun as (_ & Hobj & Hcnt & _).
    simpl in Hobj, Hcnt.
    assert (Hfresh : dict_get (instance_name g (c + 1)) (Primitives.objects self) = None).
    { apply names_numbered_fresh; [exact Hnum|lia]. }
    assert (Hne : name <> instance_name g (c + 1)) by congruence.
    exists p, g. split; [reflexivity|]. split; [exact Hg|]. rewrite Hc. cbv zeta.
    split; [exact Hne|]. split; [exact Hcnt|].
    fold (instance_name g (c + 1)) in Hobj. rewrite Hobj.
    split; [apply dict_get_set_eq|].
    split; [rewrite dict_get_set_ne by congruence; exact Eg|].
    split; [intros other Ho; apply dict_get_set_ne; congruence|].
    split; [rewrite dict_set_length, Hfresh; reflexivity|].
    eapply names_numbered_insert; [exact Hnum|exact Hg| |]; rewrite Hc; assumption.
Qed.

(** X7.  Instance numbers are not reused: add a primitive, remove it, add
    another of the same geometry type; the second gets the next number, and
    the name of the removed one stays free. *)
Theorem instance_numbers_not_reused (self self1 self2 self3 : Primitives.state)
  (tracer tracer2 : Tracer) (g device device' : string) (ptype ptype' : OptixPrimitiveTypes) :
  names_numbered self ->
  let n := instances_so_far self g + 1 in
  Primitives.add_primitive self g ptype device = Ok self1 ->
  Primitives.remove_primitive self1 tracer (instance_name g n) = Ok (self2, tracer2) ->
  Primitives.add_primitive self2 g ptype' device' = Ok self3 ->
  dict_get (instance_name g n) (Primitives.objects self3) = None /\
  is_Some (dict_get (instance_name g (n + 1)) (Primitives.objects self3)) /\
  instances_so_far self3 g = n + 1.
Proof.
  intros Hnum n Hadd1 Hrem Hadd2.
  apply add_primitive_inv in Hadd1 as (reg1 & p1 & Hp1 & ->).
  rewrite next_instance_so_far in Hrem. fold n in Hrem.
  set (self1 := Primitives.set_objects _ _) in Hrem.
  assert (Hnum1 : names_numbered self1).
  { eapply names_numbered_insert; [exact Hnum|apply Hp1|reflexivity|reflexivity]. }
  apply remove_primitive_inv in Hrem as (_ & Hobj2 & Hcnt2 & _).
  assert (Hnum2 : names_numbered self2) by (eapply names_numbered_delete; eassumption).
  assert (Hsf2 : instances_so_far self2 g = n).
  { unfold instances_so_far. rewrite Hcnt2. simpl. rewrite lookup_insert_eq. reflexivity. }
  assert (Hgone : dict_get (instance_name g n) (Primitives.objects self2) = None).
  { rewrite Hobj2. apply dict_get_del_eq, Hnum1. }
  apply add_primitive_inv in Hadd2 as (reg2 & p2 & Hp2 & ->).
  rewrite next_instance_so_far, Hsf2. simpl.
  split; [|split].
  - rewrite dict_get_set_ne; [exact Hgone|].
    intros Heq. apply instance_name_inj in Heq. lia.
  - rewrite dict_get_set_eq. eauto.
  - unfold instances_so_far. simpl. rewrite lookup_insert_eq. reflexivity.
Qed.

End MutatorSpecs.

(** *** The mutators on the one-quad scene *)

Lemma bare_scene_numbered : names_numbered bare_scene.
Proof. split; [constructor|]. intros name p Hp. discriminate. Qed.

Lemma singleton_numbered (self : Primitives.state) (g : string) (n : Z) (p : OptixPrimitive) :
  Primitives.objects self = [(instance_name g n, p)] ->
  geometry_type p = Some g -> n <= instances_so_far self g ->
  names_numbered self.
Proof.
  intros Ho Hg Hn. split.
  - rewrite Ho. apply NoDup_singleton.
  - intros name q Hq. rewrite Ho in Hq. simpl in Hq.
    destruct (decide (name = instance_name g n)) as [->|]; [|discriminate].
    injection Hq as <-. exists g, n. split; [exact Hg|]. split; [reflexivity|exact Hn].
Qed.

Lemma one_quad_numbered : names_numbered one_quad.
Proof.
  eapply (singleton_numbered _ "Quad" 1); [vm_compute; reflexivity|reflexivity|].
  vm_compute. discriminate.
Qed.

Lemma built_quad_numbered : names_numbered built_quad.1.
Proof.
  eapply (singleton_numbered _ "Quad" 1); [vm_compute; reflexivity|reflexivity|].
  vm_compute. discriminate.
Qed.

Lemma add_primitive_adds_one_witness :
  Primitives.add_primitive (H := Simple.collaborators) bare_scene "Quad" GLASS "cuda"
  = Ok one_quad /\
  length (Primitives.objects one_quad) = 1%nat /\
  exists p, dict_get "Quad 1" (Primitives.objects one_quad) = Some p /\
            new_primitive "Quad" GLASS p.
Proof.
  assert (Hadd : Primitives.add_primitive (H := Simple.collaborators) bare_scene "Quad" GLASS "cuda"
                 = Ok one_quad) by (vm_compute; reflexivity).
  destruct (add_primitive_adds_one (H := Simple.collaborators) _ _ _ _ _
              bare_scene_numbered Hadd) as (_ & _ & Hp & _ & Hlen & _).
  split; [exact Hadd|]. split; [exact Hlen|exact Hp].
Defined.

Lemma remove_primitive_removes_one_witness :
  Primitives.remove_primitive (H := Simple.collaborators) one_quad (mkTracer [] 0) "Quad 1"
  = Ok no_quad /\
  dict_get "Quad 1" (Primitives.objects no_quad.1) = None /\
  Primitives.instance_counter no_quad.1 = Primitives.instance_counter one_quad.
Proof.
  assert (Hrun : Primitives.remove_primitive (H := Simple.collaborators) one_quad
                   (mkTracer [] 0) "Quad 1" = Ok (no_quad.1, no_quad.2))
    by (vm_compute; reflexivity).
  destruct (remove_primitive_removes_one (H := Simple.collaborators) one_quad (mkTracer [] 0)
              "Quad 1") as [_ Hok].
  destruct (Hok _ _ one_quad_numbered Hrun) as (_ & Hgone & _ & _ & Hcnt & _).
  split; [rewrite Hrun; reflexivity|]. split; [exact Hgone|exact Hcnt].
Defined.

Lemma duplicate_primitive_copies_witness :
  exists self' tracer' p,
    Primitives.duplicate_primitive (H := Simple.collaborators) built_quad.1 built_quad.2 "Quad 1"
    = Ok (self', tracer') /\
    dict_get "Quad 1" (Primitives.objects self') = Some p /\
    dict_get "Quad 2" (Primitives.objects self') = Some p.
Proof.
  destruct (Primitives.duplicate_primitive (H := Simple.collaborators) built_quad.1 built_quad.2
              "Quad 1") as [[self' tracer']|e] eqn:Hrun; [|vm_compute in Hrun; discriminate].
  destruct (duplicate_primitive_copies (H := Simple.collaborators) built_quad.1 built_quad.2
              "Quad 1") as [_ Hok].
  destruct (Hok _ _ built_quad_numbered Hrun)
    as (p & g & Hp & Hg & _ & _ & Hcopy & Hsrc & _).
  assert (Hgq : g = "Quad"%string).
  { vm_compute in Hp. injection Hp as <-. vm_compute in Hg. injection Hg as <-. reflexivity. }
  subst g. exists self', tracer', p. split; [reflexivity|]. split; [exact Hsrc|exact Hcopy].
Defined.

Lemma instance_numbers_not_reused_witness :
  dict_get "Quad 1" (Primitives.objects next_quad) = None /\
  is_Some (dict_get "Quad 2" (Primitives.objects next_quad)).
Proof.
  destruct (instance_numbers_not_reused (H := Simple.collaborators)
              bare_scene one_quad no_quad.1 next_quad (mkTracer [] 0) no_quad.2
              "Quad" "cuda" "cuda" GLASS MIRROR bare_scene_numbered)
    as (Hfree & Hnew & _); try (vm_compute; reflexivity).
  split; [exact Hfree|exact Hnew].
Defined.

(** ** Primitives.create_geometry *)

Lemma index_select_elem (t : list Z) (idx v : Z) :
  index_select t idx = Ok v -> v ∈ t.
Proof.
  unfold index_select. intros Hsel.
  repeat match type of Hsel with
         | context [if ?b then _ else _] => destruct b
         | context [match ?x with _ => _ end] =>
             let E := fresh "E" in destruct x eqn:E
         end; try discriminate; injection Hsel as <-;
    eapply list_elem_of_lookup_2; eassumption.
Qed.

Lemma mapM_elems {A B} (f : A -> result B) (P : B -> Prop) (l : list A) (bs : list B) :
  (forall a b, f a = Ok b -> P b) -> mapM f l = Ok bs -> Forall P bs.
Proof.
  intros Hf Hm. apply mapM_inv in Hm. induction Hm; constructor; eauto.
Qed.

Lemma ids_wf_empty : ids_wf ∅.
Proof.
  split; [intros k m Hk|intros k1 k2 m1 m2 Hk _ _]; rewrite lookup_empty in Hk; discriminate.
Qed.

Section Geometry.
Context `{Collaborators}.

(** X8.  [create_geometry] and materials.  A geometry type that is neither
    "Quad" nor an asset is a KeyError on that type, in [create_geometry] and in
    [add_primitive].  When a mesh is returned no face has a negative material
    id and the registry has only grown; on a registry whose ids are below its
    size and pairwise distinct the new registry is so too, and for an asset
    that comes with materials every face carries the id of a registered
    material. *)
Theorem create_geometry_material_ids (self : Primitives.state) (g device : string) :
  (g <> "Quad"%string -> Primitives.assets self !! g = None ->
   Primitives.create_geometry self g device = Raise (KeyError g) /\
   forall ptype, Primitives.add_primitive self g ptype device = Raise (KeyError g)) /\
  (forall mesh self',
     Primitives.create_geometry self g device = Ok (mesh, self') ->
     Forall (fun a => 0 <= a) (mesh_material_assignments mesh) /\
     (forall k m, Primitives.registered_materials self !! k = Some m ->
                  Primitives.registered_materials self' !! k = Some m) /\
     (ids_wf (Primitives.registered_materials self) ->
      ids_wf (Primitives.registered_materials self') /\
      forall mesh_path loaded,
        g <> "Quad"%string ->
        Primitives.assets self !! g = Some mesh_path ->
        load_mesh (default "None"%string mesh_path) device = Ok loaded ->
        load_materials loaded device <> [] ->
        Forall (registered_id (Primitives.registered_materials self'))
               (mesh_material_assignments mesh))).
Proof.
  split.
  - intros Hq Hnone.
    assert (Hc : forall s, Primitives.assets s = Primitives.assets self ->
                           Primitives.create_geometry s g device = Raise (KeyError g)).
    { intros s Hs. unfold Primitives.create_geometry.
      destruct (decide (g = "Quad"%string)); [contradiction|]. rewrite Hs, Hnone. reflexivity. }
    split; [apply Hc; reflexivity|].
    intros ptype. unfold Primitives.add_primitive. rewrite Hc by reflexivity. reflexivity.
  - intros mesh self' Hc. unfold Primitives.create_geometry in Hc.
    apply bind_Ok in Hc as ([mesh0 self0] & Hsel & Hret). simpl in Hret.
    injection Hret as <- <-. cbn [mesh_material_assignments].
    split.
    { apply Forall_map. apply Forall_forall. intros a _. simpl. lia. }
    destruct (decide (g = "Quad"%string)) as [Hq|Hq].
    { injection Hsel as _ <-. split; [auto|]. intros Hreach. split; [exact Hreach|].
      intros; contradiction. }
    destruct (Primitives.assets self !! g) as [mesh_path|] eqn:Ea; [|discriminate].
    apply bind_Ok in Hsel as (loaded & Hload & Hsel).
    destruct (0 <? length (load_materials loaded device))%nat eqn:Elen.
    + rewrite register_materials_eq in Hsel.
      apply bind_Ok in Hsel as (assignments & Hassign & Hsel).
      injection Hsel as <- <-. simpl.
      split; [intros k m Hk; apply loop_mono, Hk|].
      intros Hreach. split; [apply loop_wf, Hreach|].
      intros mesh_path' loaded' _ Hp Hl _. injection Hp as <-.
      rewrite Hload in Hl. injection Hl as <-.
      set (materials := load_missing_material_info (default "None"%string mesh_path)
                          (load_materials loaded device) device) in *.
      set (reg := Primitives.registered_materials self) in *.
      assert (Hwf : ids_wf (Primitives.register_materials_loop g reg materials).1)
        by (apply loop_wf, Hreach).
      assert (Hmap : Forall (registered_id (Primitives.register_materials_loop g reg materials).1)
                       (Primitives.register_materials_loop g reg materials).2).
      { apply Forall_forall. intros a Ha. apply list_elem_of_lookup in Ha as [i Hi].
        assert (Hlt : (i < length materials)%nat).
        { rewrite <- (loop_length g materials reg). eapply lookup_lt_Some, Hi. }
        destruct (lookup_lt_is_Some_2 _ _ Hlt) as [mat Hmat].
        destruct (loop_ids g materials reg i mat Hmat) as (m & Hm & Hid).
        exists (material_key g mat), m. split; [exact Hm|congruence]. }
      apply Forall_map.
      eapply (mapM_elems _ (fun a => registered_id _ (Z.max 0 a))); [|exact Hassign].
      intros raw a Hsel. apply index_select_elem in Hsel.
      rewrite Forall_forall in Hmap. destruct (Hmap a Hsel) as (k & m & Hk & Hid).
      exists k, m. split; [exact Hk|]. destruct (proj1 Hwf k m Hk). lia.
    + injection Hsel as <- <-. split; [auto|]. intros Hreach. split; [exact Hreach|].
      intros mesh_path' loaded' _ Hp Hl Hne. injection Hp as <-.
      rewrite Hload in Hl. injection Hl as <-.
      apply Nat.ltb_ge in Elen. destruct (load_materials loaded device); [contradiction|].
      simpl in Elen. lia.
Qed.

End Geometry.

(** *** An asset with two materials *)

Lemma create_geometry_material_ids_witness :
  Primitives.create_geometry (H := textured) asset_scene "Cone" "cuda" = Raise (KeyError "Cone") /\
  exists mesh self',
    Primitives.create_geometry (H := textured) asset_scene "Sphere" "cuda" = Ok (mesh, self') /\
    mesh_material_assignments mesh = [1; 0; 1] /\
    Forall (registered_id (Primitives.registered_materials self'))
           (mesh_material_assignments mesh).
Proof.
  split.
  - apply (create_geometry_material_ids (H := textured) asset_scene "Cone" "cuda");
      [discriminate|vm_compute; reflexivity].
  - destruct (Primitives.create_geometry (H := textured) asset_scene "Sphere" "cuda")
      as [[mesh self']|e] eqn:Hrun; [|vm_compute in Hrun; discriminate].
    exists mesh, self'. split; [reflexivity|].
    split; [vm_compute in Hrun; injection Hrun as <- _; reflexivity|].
    destruct (create_geometry_material_ids (H := textured) asset_scene "Sphere" "cuda")
      as [_ Hok].
    destruct (Hok mesh self' Hrun) as (_ & _ & Hwf).
    destruct Hwf as [_ Hreg].
    { exact ids_wf_empty. }
    apply (Hreg (Some "sphere.obj"%string) two_material_mesh);
      [discriminate|vm_compute; reflexivity|reflexivity|discriminate].
Defined.

(** ** The material list handed to the tracer *)

Lemma strictly_sorted_lower (l : list Z) : forall lo i x,
  StronglySorted Z.lt l -> Forall (fun y => lo <= y) l ->
  l !! i = Some x -> lo + Z.of_nat i <= x.
Proof.
  induction l as [|y l IH]; intros lo i x Hs Hlo Hi; [discriminate|].
  apply StronglySorted_inv in Hs as [Hs Hy]. apply Forall_cons in Hlo as [Hy0 _].
  destruct i as [|i]; simpl in Hi.
  - injection Hi as <-. lia.
  - assert (Hx : y + 1 + Z.of_nat i <= x).
    { apply (IH (y + 1) i x Hs); [|exact Hi].
      eapply Forall_impl; [exact Hy|]. simpl. intros; lia. }
    lia.
Qed.

Lemma strictly_sorted_upper (l : list Z) : forall hi i x,
  StronglySorted Z.lt l -> Forall (fun y => y < hi) l ->
  l !! i = Some x -> x + Z.of_nat (length l - i) <= hi.
Proof.
  induction l as [|y l IH]; intros hi i x Hs Hhi Hi; [discriminate|].
  apply StronglySorted_inv in Hs as [Hs Hy]. apply Forall_cons in Hhi as [Hy0 Hhi].
  destruct i as [|i]; simpl in Hi.
  - injection Hi as <-. destruct l as [|z l]; [simpl; lia|].
    pose proof (IH hi 0%nat z Hs Hhi eq_refl) as Hz.
    apply Forall_cons in Hy as [Hyz _]. simpl in *. lia.
  - simpl. apply (IH hi i x Hs Hhi Hi).
Qed.

Lemma sorted_nodup_strict (l : list Z) :
  StronglySorted Z.le l -> NoDup l -> StronglySorted Z.lt l.
Proof.
  induction 1 as [|y l Hs IH Hy]; intros Hnd; [constructor|].
  apply NoDup_cons in Hnd as [Hin Hnd]. constructor; [apply IH, Hnd|].
  apply Forall_forall. intros z Hz. rewrite Forall_forall in Hy.
  specialize (Hy z Hz). assert (z <> y) by (intros ->; contradiction). lia.
Qed.

Lemma StronglySorted_fmap {A B} (R : A -> A -> Prop) (S : B -> B -> Prop) (f : A -> B)
  (l : list A) :
  (forall a b, R a b -> S (f a) (f b)) -> StronglySorted R l -> StronglySorted S (f <$> l).
Proof.
  intros Hf. induction 1 as [|a l Hs IH Ha]; simpl; constructor; [exact IH|].
  apply Forall_fmap. eapply Forall_impl; [exact Ha|]. intros b Hb. apply Hf, Hb.
Qed.

Lemma material_id_le_trans : Transitive Engine3DGRUT.material_id_le.
Proof. intros a b c. unfold Engine3DGRUT.material_id_le. lia. Qed.

Lemma material_id_le_total : Total Engine3DGRUT.material_id_le.
Proof. intros a b. unfold Engine3DGRUT.material_id_le. lia. Qed.

(** X9.  In a registry whose ids are below its size and pairwise distinct (as
    the default registry and everything [register_materials] grows from it
    are), the list [_render_playground_hybrid] hands to the tracer holds every
    registered material once, and the material at position i is the one with
    id i. *)
Theorem sorted_materials_indexed_by_id (reg : gmap string PBRMaterial) :
  ids_wf reg ->
  length (Engine3DGRUT.sorted_materials reg) = size reg /\
  (forall m, m ∈ Engine3DGRUT.sorted_materials reg <-> exists k, reg !! k = Some m) /\
  (forall i m, Engine3DGRUT.sorted_materials reg !! i = Some m ->
               material_id m = Z.of_nat i).
Proof.
  intros [Hbound Hinj].
  unfold Engine3DGRUT.sorted_materials.
  set (vals := (map_to_list reg).*2).
  pose proof (merge_sort_Permutation Engine3DGRUT.material_id_le vals) as Hperm.
  assert (Hlen : length (merge_sort Engine3DGRUT.material_id_le vals) = size reg).
  { rewrite Hperm. unfold vals. rewrite length_fmap. apply length_map_to_list. }
  assert (Hmem : forall m, m ∈ merge_sort Engine3DGRUT.material_id_le vals <-> exists k, reg !! k = Some m).
  { intros m. rewrite Hperm. unfold vals. rewrite list_elem_of_fmap. split.
    - intros ([k m'] & -> & Hin). apply elem_of_map_to_list in Hin. eauto.
    - intros [k Hk]. exists (k, m). split; [reflexivity|]. apply elem_of_map_to_list, Hk. }
  split; [exact Hlen|]. split; [exact Hmem|].
  intros i m Hi.
  set (ids := material_id <$> merge_sort Engine3DGRUT.material_id_le vals).
  assert (Hids : ids !! i = Some (material_id m)).
  { unfold ids. rewrite list_lookup_fmap, Hi. reflexivity. }
  assert (Hrange : Forall (fun y => 0 <= y < Z.of_nat (size reg)) ids).
  { unfold ids. apply Forall_fmap, Forall_forall. intros m' Hm'.
    apply Hmem in Hm' as [k Hk]. apply (Hbound k m' Hk). }
  assert (Hnd : NoDup ids).
  { unfold ids. rewrite Hperm. unfold vals. rewrite <- list_fmap_compose.
    apply NoDup_fmap_2_strong; [|apply NoDup_map_to_list].
    intros [k1 m1] [k2 m2] H1 H2 Heq. simpl in Heq.
    apply elem_of_map_to_list in H1, H2.
    assert (k1 = k2) by (eapply Hinj; eassumption). subst k2.
    assert (m1 = m2) by congruence. subst m2. reflexivity. }
  assert (Hsorted : StronglySorted Z.lt ids).
  { apply sorted_nodup_strict; [|exact Hnd]. unfold ids.
    eapply StronglySorted_fmap;
      [|apply (@StronglySorted_merge_sort _ _ _ material_id_le_trans material_id_le_total)].
    intros a b Hab. exact Hab. }
  assert (Hlo : 0 + Z.of_nat i <= material_id m).
  { eapply strictly_sorted_lower; [exact Hsorted| |exact Hids].
    eapply Forall_impl; [exact Hrange|]. simpl. intros; lia. }
  assert (Hhi : material_id m + Z.of_nat (length ids - i) <= Z.of_nat (size reg)).
  { eapply strictly_sorted_upper; [exact Hsorted| |exact Hids].
    eapply Forall_impl; [exact Hrange|]. simpl. intros; lia. }
  assert (Hli : (i < length ids)%nat) by (eapply lookup_lt_Some, Hids).
  assert (length ids = size reg) by (unfold ids; rewrite length_fmap; exact Hlen).
  lia.
Qed.

Lemma sorted_materials_indexed_by_id_witness :
  material_id <$> Engine3DGRUT.sorted_materials
    (Primitives.register_materials_loop "Sphere" ∅
       [plain_material "red"; plain_material "blue"; plain_material "red"]).1
  = [0; 1] /\
  forall m,
    Engine3DGRUT.sorted_materials
      (Primitives.register_materials_loop "Sphere" ∅
         [plain_material "red"; plain_material "blue"; plain_material "red"]).1 !! 1%nat
    = Some m ->
    material_id m = 1.
Proof.
  split; [vm_compute; reflexivity|].
  intros m Hm.
  refine (proj2 (proj2 (sorted_materials_indexed_by_id _ _)) 1%nat m Hm).
  apply loop_wf, ids_wf_empty.
Defined.

(** ** Engine3DGRUT._render_playground_hybrid *)

Lemma same_settings_refl (s : Engine3DGRUT.state) : same_settings s s.
Proof. repeat split. Qed.

Lemma same_settings_trans (s1 s2 s3 : Engine3DGRUT.state) :
  same_settings s1 s2 -> same_settings s2 s3 -> same_settings s1 s3.
Proof.
  unfold same_settings. intros H12 H23.
  destruct H12 as (?&?&?&?&?&?&?&?&?&?&?), H23 as (?&?&?&?&?&?&?&?&?&?&?).
  repeat split; congruence.
Qed.

Lemma clamp_unit (x : Q) : (0 <= clamp 0 1 x <= 1)%Q.
Proof.
  unfold clamp. split.
  - apply Q.min_glb; [apply Q.le_max_r|discriminate].
  - apply Q.le_min_r.
Qed.

Lemma image_map_clamp (img : Image) : in_unit_range (image_map (clamp 0 1) img).
Proof.
  unfold in_unit_range, image_map.
  apply Forall_map, Forall_forall. intros fr _.
  apply Forall_map, Forall_forall. intros px _.
  apply Forall_map, Forall_forall. intros x _. apply clamp_unit.
Qed.

Section Hybrid.
Context `{Collaborators}.

(** A hybrid trace writes the tracer, the registry, the frame counter and the
    materials flag, and nothing else of the engine. *)
Lemma render_playground_hybrid_frame (self self' : Engine3DGRUT.state) (rays_o rays_d : Tensor)
  (rr : RenderedResults) :
  Engine3DGRUT._render_playground_hybrid self rays_o rays_d = Ok (self', rr) ->
  same_settings self self' /\
  Engine3DGRUT.spp self' = Engine3DGRUT.spp self /\
  Engine3DGRUT.depth_of_field self' = Engine3DGRUT.depth_of_field self /\
  Engine3DGRUT.last_state self' = Engine3DGRUT.last_state self /\
  Engine3DGRUT.heap self' = Engine3DGRUT.heap self.
Proof.
  unfold Engine3DGRUT._render_playground_hybrid. intros Hrun.
  apply bind_Ok in Hrun as ([prims tr] & Hreb & Hrun). simpl in Hrun.
  destruct (if Primitives.force_white_bg prims then _ else _) as [background_color envmap].
  apply bind_Ok in Hrun as (fields & _ & Hrun).
  apply bind_Ok in Hrun as (rgb & _ & Hrun).
  injection Hrun as <- <-. cbn. repeat split.
Qed.

(** X10.  A hybrid trace that returns: the colour it returns is clamped to
    [0, 1]; the materials are marked uploaded and the registry is clean; the
    frame counter is the old one plus the batch size when the old one was at
    most 2^31 - 1, and 0 otherwise; settings, controllers, cached state,
    buffers, objects and materials are not touched.  On a clean registry that
    has no merged buffers it raises AttributeError instead. *)
Theorem hybrid_trace_effects (self : Engine3DGRUT.state) (rays_o rays_d : Tensor) :
  (forall self' rr,
     Engine3DGRUT._render_playground_hybrid self rays_o rays_d = Ok (self', rr) ->
     in_unit_range (pred_rgb rr) /\
     Engine3DGRUT.is_materials_dirty self' = false /\
     Primitives.dirty (Engine3DGRUT.primitives self') = false /\
     Engine3DGRUT.frame_id self'
     = (if Engine3DGRUT.frame_id self <=? 2 ^ 31 - 1
        then Engine3DGRUT.frame_id self + spp_batch_size (Engine3DGRUT.spp self) else 0) /\
     same_settings self self' /\
     Engine3DGRUT.spp self' = Engine3DGRUT.spp self /\
     Engine3DGRUT.depth_of_field self' = Engine3DGRUT.depth_of_field self /\
     Engine3DGRUT.last_state self' = Engine3DGRUT.last_state self /\
     Engine3DGRUT.heap self' = Engine3DGRUT.heap self /\
     Primitives.objects (Engine3DGRUT.primitives self')
     = Primitives.objects (Engine3DGRUT.primitives self) /\
     Primitives.registered_materials (Engine3DGRUT.primitives self')
     = Primitives.registered_materials (Engine3DGRUT.primitives self)) /\
  (Primitives.dirty (Engine3DGRUT.primitives self) = false ->
   Primitives.stacked_fields (Engine3DGRUT.primitives self) = None ->
   Engine3DGRUT._render_playground_hybrid self rays_o rays_d
   = Raise (AttributeError "'NoneType' object has no attribute 'triangles'")).
Proof.
  split.
  - unfold Engine3DGRUT._render_playground_hybrid. intros self' rr Hrun.
    apply bind_Ok in Hrun as ([prims tr] & Hreb & Hrun). simpl in Hrun.
    destruct (if Primitives.force_white_bg prims then _ else _) as [background_color envmap].
    apply bind_Ok in Hrun as (fields & _ & Hrun).
    apply bind_Ok in Hrun as (rgb & _ & Hrun).
    injection Hrun as <- <-. cbn.
    apply rebuild_bvh_if_needed_frame in Hreb as (Hclean & Hobj & _ & Hreg).
    split; [apply image_map_clamp|]. repeat split; assumption.
  - intros Hclean Hnone. unfold Engine3DGRUT._render_playground_hybrid.
    rewrite (rebuild_clean_noop _ _ _ Hclean). simpl. rewrite Hnone.
    destruct (Primitives.force_white_bg (Engine3DGRUT.primitives self));
      [reflexivity|]. destruct (mog_background (Engine3DGRUT.scene_mog self)); reflexivity.
Qed.

Lemma trace_rays_frame (self self' : Engine3DGRUT.state) (rays_o rays_d : Tensor)
  (rgb opacity : Image) :
  Engine3DGRUT.trace_rays self rays_o rays_d = Ok (self', rgb, opacity) ->
  same_settings self self' /\
  Engine3DGRUT.spp self' = Engine3DGRUT.spp self /\
  Engine3DGRUT.depth_of_field self' = Engine3DGRUT.depth_of_field self /\
  Engine3DGRUT.last_state self' = Engine3DGRUT.last_state self /\
  Engine3DGRUT.heap self' = Engine3DGRUT.heap self /\
  (negb (Primitives.enabled (Engine3DGRUT.primitives self))
   || negb (Primitives.has_visible_objects (Engine3DGRUT.primitives self)) = true ->
   self' = self /\ (rgb, opacity) = mog_trace (Engine3DGRUT.scene_mog self) rays_o rays_d).
Proof.
  unfold Engine3DGRUT.trace_rays. intros Hrun.
  destruct (negb _ || negb _) eqn:Evol.
  - destruct (mog_trace _ _ _) as [rgb0 op0]. injection Hrun as <- <- <-.
    repeat split; reflexivity.
  - apply bind_Ok in Hrun as ([self1 rr] & Hhyb & Hrun). simpl in Hrun.
    injection Hrun as <- <- <-.
    apply render_playground_hybrid_frame in Hhyb as (Hset & Hspp & Hdof & Hls & Hheap).
    split; [exact Hset|]. repeat split; try assumption; discriminate.
Qed.

End Hybrid.

Lemma hybrid_trace_effects_witness :
  exists self' rr,
    Engine3DGRUT._render_playground_hybrid (H := Simple.collaborators)
      bare_engine two_rays two_rays = Ok (self', rr) /\
    in_unit_range (pred_rgb rr) /\ Engine3DGRUT.frame_id self' = 1.
Proof.
  destruct (Engine3DGRUT._render_playground_hybrid (H := Simple.collaborators)
              bare_engine two_rays two_rays) as [[self' rr]|e] eqn:Hrun;
    [|vm_compute in Hrun; discriminate].
  destruct (hybrid_trace_effects (H := Simple.collaborators) bare_engine two_rays two_rays)
    as [Hok _].
  destruct (Hok _ _ Hrun) as (Hrange & _ & _ & Hframe & _).
  exists self', rr. split; [reflexivity|]. split; [exact Hrange|].
  rewrite Hframe. reflexivity.
Defined.

(** ** Engine3DGRUT.raygen *)

Lemma reshape_inv (dims : list nat) (t t' : Tensor) :
  reshape dims t = Ok t' -> shape t' = dims /\ well_shaped t'.
Proof.
  unfold reshape. destruct (Nat.eqb_spec (length (data t)) (numel dims)); [|discriminate].
  intros Hr. injection Hr as <-. split; [reflexivity|assumption].
Qed.

Lemma torch_cat_samples (rest : list nat) (ts : list Tensor) (t : Tensor) :
  Forall (fun x => shape x = 1%nat :: rest /\ well_shaped x) ts ->
  torch_cat ts = Ok t ->
  shape t = length ts :: rest /\ well_shaped t.
Proof.
  intros Hall Hcat. unfold torch_cat in Hcat. destruct ts as [|t0 ts]; [discriminate|].
  destruct (forallb _ _); [|discriminate]. injection Hcat as <-.
  pose proof Hall as Hall0. apply Forall_cons in Hall0 as [[Ht0 _] _].
  assert (Hsum : forall l, Forall (fun x => shape x = 1%nat :: rest /\ well_shaped x) l ->
            foldr (fun x acc => (hd 0%nat (shape x) + acc)%nat) 0%nat l = length l /\
            length (concat (map data l)) = (length l * numel rest)%nat).
  { induction 1 as [|x l [Hx Hw] _ [IH1 IH2]]; [split; reflexivity|].
    simpl. rewrite Hx, IH1, length_app, IH2. unfold well_shaped in Hw. rewrite Hw, Hx.
    simpl. split; lia. }
  destruct (Hsum _ Hall) as [H1 H2]. unfold well_shaped. cbn [shape data].
  cbn [foldr map concat] in H1, H2 |- *. rewrite H1, H2, Ht0. split; reflexivity.
Qed.

Section Raygen.
Context `{Collaborators}.

Lemma raygen_pinhole_pack (camera : Camera) (jitter : option (list (Q * Q))) (p : RayPack.t) :
  Engine3DGRUT._raygen_pinhole camera jitter = Ok p ->
  sample_pack "Pinhole" (camera_height camera) (camera_width camera) p.
Proof.
  unfold Engine3DGRUT._raygen_pinhole. intros Hrun.
  destruct (generate_centered_pixel_coords _ _ _) as [py px].
  apply bind_Ok in Hrun as ([px' py'] & _ & Hrun). simpl in Hrun.
  destruct (generate_pinhole_rays _ _ _) as [ro rd].
  apply bind_Ok in Hrun as (ro' & Hro & Hrun). apply bind_Ok in Hrun as (rd' & Hrd & Hrun).
  injection Hrun as <-. apply reshape_inv in Hro as [? ?], Hrd as [? ?].
  unfold sample_pack. simpl. repeat split; try assumption. discriminate.
Qed.

Lemma raygen_fisheye_pack (camera : Camera) (jitter : option (list (Q * Q))) (p : RayPack.t) :
  Engine3DGRUT._raygen_fisheye camera jitter = Ok p ->
  sample_pack "Fisheye" (camera_height camera) (camera_width camera) p.
Proof.
  unfold Engine3DGRUT._raygen_fisheye. intros Hrun.
  destruct (generate_centered_pixel_coords _ _ _) as [py px].
  apply bind_Ok in Hrun as ([px' py'] & _ & Hrun). simpl in Hrun.
  destruct (generate_fisheye_rays _ _ _) as [[ro rd] m].
  apply bind_Ok in Hrun as (ro' & Hro & Hrun). apply bind_Ok in Hrun as (rd' & Hrd & Hrun).
  destruct (Nat.eqb_spec (length m) (camera_height camera * camera_width camera));
    [|discriminate].
  injection Hrun as <-. apply reshape_inv in Hro as [? ?], Hrd as [? ?].
  unfold sample_pack. simpl. repeat split; try assumption; [discriminate|]. eauto.
Qed.

Lemma raygen_loop_packs (n : nat) (camera : Camera) (use_spp : bool) :
  forall self self' rays,
    Engine3DGRUT.raygen_loop n self camera use_spp = Ok (self', rays) ->
    length rays = n /\
    Forall (sample_pack (Engine3DGRUT.camera_type self) (camera_height camera)
              (camera_width camera)) rays /\
    (use_spp = false -> self' = self).
Proof.
  induction n as [|n IH]; intros self self' rays Hrun; simpl in Hrun.
  - injection Hrun as <- <-. repeat split. constructor.
  - assert (Hstep : forall s jitter,
              Engine3DGRUT.camera_type s = Engine3DGRUT.camera_type self ->
              (next_rays ←
                 (if decide (Engine3DGRUT.camera_type s = "Pinhole"%string)
                  then Engine3DGRUT._raygen_pinhole camera jitter
                  else if decide (Engine3DGRUT.camera_type s = "Fisheye"%string)
                       then Engine3DGRUT._raygen_fisheye camera jitter
                       else Raise (ValueError ("Unknown camera type: "
                                               +:+ Engine3DGRUT.camera_type s)));
               '(s', rs) ← Engine3DGRUT.raygen_loop n s camera use_spp;
               Ok (s', next_rays :: rs)) = Ok (self', rays) ->
              exists p rs s', rays = p :: rs /\ self' = s' /\
                Engine3DGRUT.raygen_loop n s camera use_spp = Ok (s', rs) /\
                sample_pack (Engine3DGRUT.camera_type self) (camera_height camera)
                            (camera_width camera) p).
    { intros s jitter Hct Hs. apply bind_Ok in Hs as (p & Hp & Hs).
      apply bind_Ok in Hs as ([s' rs] & Hloop & Hs). simpl in Hs. injection Hs as <- <-.
      exists p, rs, s'. split; [reflexivity|]. split; [reflexivity|].
      split; [exact Hloop|]. rewrite <- Hct.
      destruct (decide (Engine3DGRUT.camera_type s = "Pinhole"%string)) as [->|_].
      - apply raygen_pinhole_pack in Hp. exact Hp.
      - destruct (decide (Engine3DGRUT.camera_type s = "Fisheye"%string)) as [->|_];
          [|discriminate].
        apply raygen_fisheye_pack in Hp. exact Hp. }
    destruct use_spp.
    + destruct (spp_call _ _ _) as [j spp'].
      apply Hstep in Hrun as (p & rs & s' & -> & -> & Hloop & Hp); [|reflexivity].
      apply IH in Hloop as (Hlen & Hall & _). simpl in Hall.
      split; [simpl; congruence|]. split; [constructor; assumption|discriminate].
    + apply Hstep in Hrun as (p & rs & s' & -> & -> & Hloop & Hp); [|reflexivity].
      apply IH in Hloop as (Hlen & Hall & Hsame).
      split; [simpl; congruence|]. split; [constructor; assumption|exact Hsame].
Qed.

(** X11.  The rays [raygen] returns: origins and directions of shape
    (B, height, width, 3), B being 1 without antialiasing and the batch size
    with it; no mask with the pinhole camera, a mask of one flag per pixel
    with the fisheye camera; nothing of the engine changes except the
    antialiasing controller, and not even that without antialiasing. *)
Theorem raygen_shapes (self self' : Engine3DGRUT.state) (camera : Camera) (use_spp : bool)
  (rays : RayPack.t) :
  Engine3DGRUT.raygen self camera use_spp = Ok (self', rays) ->
  let B := ray_batch_size self use_spp in
  (1 <= B)%nat /\
  shape (RayPack.rays_ori rays) = [B; camera_height camera; camera_width camera; 3%nat] /\
  well_shaped (RayPack.rays_ori rays) /\
  shape (RayPack.rays_dir rays) = [B; camera_height camera; camera_width camera; 3%nat] /\
  well_shaped (RayPack.rays_dir rays) /\
  (Engine3DGRUT.camera_type self = "Pinhole"%string -> RayPack.mask rays = None) /\
  (Engine3DGRUT.camera_type self = "Fisheye"%string ->
   exists m, RayPack.mask rays = Some m /\
             length m = (camera_height camera * camera_width camera)%nat) /\
  self' = Engine3DGRUT.set_spp (Engine3DGRUT.spp self') self /\
  (use_spp = false -> self' = self).
Proof.
  intros Hrun B. pose proof (raygen_frame _ _ _ _ _ Hrun) as Hframe.
  unfold Engine3DGRUT.raygen in Hrun. fold (ray_batch_size self use_spp) in Hrun. fold B in Hrun.
  apply bind_Ok in Hrun as ([self1 packs] & Hloop & Hrun). simpl in Hrun.
  apply raygen_loop_packs in Hloop as (Hlen & Hall & Hsame).
  destruct packs as [|r0 packs]; [discriminate|].
  apply bind_Ok in Hrun as (ori & Hori & Hrun). apply bind_Ok in Hrun as (dir & Hdir & Hrun).
  injection Hrun as <- <-. cbn [RayPack.rays_ori RayPack.rays_dir RayPack.mask].
  apply (torch_cat_samples [camera_height camera; camera_width camera; 3%nat]) in Hori.
  2:{ apply Forall_fmap. eapply Forall_impl; [exact Hall|]. intros p Hp. split; apply Hp. }
  apply (torch_cat_samples [camera_height camera; camera_width camera; 3%nat]) in Hdir.
  2:{ apply Forall_fmap. eapply Forall_impl; [exact Hall|]. intros p Hp. split; apply Hp. }
  rewrite length_fmap, Hlen in Hori, Hdir. destruct Hori as [? ?], Hdir as [? ?].
  apply Forall_cons in Hall as [(_ & _ & _ & _ & Hpin & Hfish) _].
  split; [simpl in Hlen; lia|]. repeat split; assumption.
Qed.

(** X12.  The errors of [raygen]: a camera type that is neither "Pinhole" nor
    "Fisheye" is a ValueError naming it as soon as one sample is drawn, and an
    antialiasing batch size below 1 leaves no sample to take the mask from,
    an IndexError. *)
Theorem raygen_errors (self : Engine3DGRUT.state) (camera : Camera) (use_spp : bool) :
  (Engine3DGRUT.camera_type self <> "Pinhole"%string ->
   Engine3DGRUT.camera_type self <> "Fisheye"%string ->
   (1 <= ray_batch_size self use_spp)%nat ->
   Engine3DGRUT.raygen self camera use_spp
   = Raise (ValueError ("Unknown camera type: " +:+ Engine3DGRUT.camera_type self))) /\
  (use_spp = true -> spp_batch_size (Engine3DGRUT.spp self) <= 0 ->
   Engine3DGRUT.raygen self camera use_spp = Raise (IndexError "list index out of range")).
Proof.
  split.
  - intros Hp Hf Hb. unfold Engine3DGRUT.raygen.
    fold (ray_batch_size self use_spp).
    destruct (ray_batch_size self use_spp) as [|n]; [lia|]. simpl.
    destruct use_spp.
    + destruct (spp_call _ _ _) as [j spp']. simpl.
      destruct (decide (Engine3DGRUT.camera_type self = "Pinhole"%string)); [contradiction|].
      destruct (decide (Engine3DGRUT.camera_type self = "Fisheye"%string)); [contradiction|].
      reflexivity.
    + destruct (decide (Engine3DGRUT.camera_type self = "Pinhole"%string)); [contradiction|].
      destruct (decide (Engine3DGRUT.camera_type self = "Fisheye"%string)); [contradiction|].
      reflexivity.
  - intros -> Hb. unfold Engine3DGRUT.raygen. simpl.
    replace (Z.to_nat (spp_batch_size (Engine3DGRUT.spp self))) with 0%nat by lia.
    reflexivity.
Qed.

End Raygen.

Lemma raygen_shapes_witness :
  exists self' rays,
    Engine3DGRUT.raygen (H := Simple.collaborators) batch_engine cpu_camera true
    = Ok (self', rays) /\
    shape (RayPack.rays_ori rays) = [2; 1; 2; 3]%nat /\
    RayPack.mask rays = None.
Proof.
  destruct (Engine3DGRUT.raygen (H := Simple.collaborators) batch_engine cpu_camera true)
    as [[self' rays]|e] eqn:Hrun; [|vm_compute in Hrun; discriminate].
  destruct (raygen_shapes (H := Simple.collaborators) _ _ _ _ _ Hrun)
    as (_ & Hshape & _ & _ & _ & Hmask & _).
  exists self', rays. split; [reflexivity|]. split; [exact Hshape|apply Hmask; reflexivity].
Defined.

Lemma raygen_errors_witness :
  Engine3DGRUT.raygen (H := Simple.collaborators)
    (configure "Orthographic" false true true bare_engine) cpu_camera false
  = Raise (ValueError "Unknown camera type: Orthographic") /\
  Engine3DGRUT.raygen (H := Simple.collaborators)
    (Engine3DGRUT.set_spp (mkSPP "msaa" 4 0 0) bare_engine) cpu_camera true
  = Raise (IndexError "list index out of range").
Proof.
  split.
  - apply (proj1 (raygen_errors (H := Simple.collaborators)
                    (configure "Orthographic" false true true bare_engine) cpu_camera false));
      [discriminate|discriminate|vm_compute; lia].
  - apply (proj2 (raygen_errors (H := Simple.collaborators)
                    (Engine3DGRUT.set_spp (mkSPP "msaa" 4 0 0) bare_engine) cpu_camera true));
      [reflexivity|vm_compute; discriminate].
Defined.

(** ** Engine3DGRUT.render_pass: what a pass leaves alone *)

Lemma pass_frame_refl (s : Engine3DGRUT.state) : pass_frame s s.
Proof. split; [apply same_settings_refl|]. split; [reflexivity|]. intros _. repeat split. Qed.

Lemma pass_frame_trans (s1 s2 s3 : Engine3DGRUT.state) :
  pass_frame s1 s2 -> pass_frame s2 s3 -> pass_frame s1 s3.
Proof.
  intros (S12 & L12 & V12) (S23 & L23 & V23). split; [eapply same_settings_trans; eassumption|].
  split; [congruence|]. intros Hv. destruct (V12 Hv) as (F & T & P & M).
  assert (Hv2 : volumetric_only s2) by (unfold volumetric_only in *; rewrite P; exact Hv).
  destruct (V23 Hv2) as (F' & T' & P' & M'). repeat split; congruence.
Qed.

Lemma pass_frame_set_spp (v : SPP) (s : Engine3DGRUT.state) :
  pass_frame s (Engine3DGRUT.set_spp v s).
Proof. split; [repeat split|]. split; [reflexivity|]. intros _. repeat split. Qed.

Lemma pass_frame_set_depth_of_field (v : DepthOfField) (s : Engine3DGRUT.state) :
  pass_frame s (Engine3DGRUT.set_depth_of_field v s).
Proof. split; [repeat split|]. split; [reflexivity|]. intros _. repeat split. Qed.

Lemma pass_frame_new_buffer (img : Image) (s : Engine3DGRUT.state) :
  pass_frame s (Engine3DGRUT.new_buffer img s).2.
Proof. split; [repeat split|]. split; [reflexivity|]. intros _. repeat split. Qed.

Lemma pass_frame_set_heap (h : Heap) (s : Engine3DGRUT.state) :
  pass_frame s (Engine3DGRUT.set_heap h s).
Proof. split; [repeat split|]. split; [reflexivity|]. intros _. repeat split. Qed.

Lemma new_buffer_eq (img : Image) (s : Engine3DGRUT.state) :
  Engine3DGRUT.new_buffer img s
  = (length (Engine3DGRUT.heap s),
     Engine3DGRUT.set_heap (Engine3DGRUT.heap s ++ [img]) s).
Proof. reflexivity. Qed.

Section PassFrame.
Context `{Collaborators}.

Lemma pass_frame_trace_rays (self self' : Engine3DGRUT.state) (rays_o rays_d : Tensor)
  (rgb opacity : Image) :
  Engine3DGRUT.trace_rays self rays_o rays_d = Ok (self', rgb, opacity) ->
  pass_frame self self'.
Proof.
  intros Hrun. apply trace_rays_frame in Hrun as (Hs & _ & _ & Hl & _ & Hv).
  split; [exact Hs|]. split; [exact Hl|]. intros Hvol. destruct (Hv Hvol) as [-> _].
  repeat split.
Qed.

Lemma pass_frame_raygen (self self' : Engine3DGRUT.state) (camera : Camera) (use_spp : bool)
  (rays : RayPack.t) :
  Engine3DGRUT.raygen self camera use_spp = Ok (self', rays) -> pass_frame self self'.
Proof.
  intros Hrun. apply raygen_frame in Hrun. rewrite Hrun. apply pass_frame_set_spp.
Qed.

Lemma pass_frame_dof (self self' : Engine3DGRUT.state) (rb rb' : Engine3DGRUT.RenderBuffers)
  (camera : Camera) (rays : RayPack.t) :
  Engine3DGRUT._render_depth_of_field_buffer self rb camera rays = Ok (self', rb') ->
  pass_frame self self'.
Proof.
  unfold Engine3DGRUT._render_depth_of_field_buffer. intros Hrun.
  destruct (_ && _); [|injection Hrun as <- _; apply pass_frame_refl].
  destruct (dof_call _ _ _) as [[ro rd] dof].
  apply bind_Ok in Hrun as ([[s1 rgb] op] & Htr & Hrun). simpl in Hrun.
  apply bind_Ok in Hrun as (prev & _ & Hrun). apply bind_Ok in Hrun as (acc & _ & Hrun).
  rewrite ?new_buffer_eq in Hrun.
  apply bind_Ok in Hrun as (prevo & _ & Hrun). apply bind_Ok in Hrun as (summed & _ & Hrun).
  rewrite ?new_buffer_eq in Hrun. injection Hrun as <- _.
  eapply pass_frame_trans; [|apply pass_frame_set_heap].
  eapply pass_frame_trans; [|apply pass_frame_set_heap].
  eapply pass_frame_trans; [apply pass_frame_set_depth_of_field|].
  eapply pass_frame_trace_rays, Htr.
Qed.

Lemma pass_frame_spp (self self' : Engine3DGRUT.state) (rb rb' : Engine3DGRUT.RenderBuffers)
  (rays : RayPack.t) :
  Engine3DGRUT._render_spp_buffer self rb rays = Ok (self', rb') ->
  pass_frame self self'.
Proof.
  unfold Engine3DGRUT._render_spp_buffer. intros Hrun.
  destruct (_ && _); [|injection Hrun as <- _; apply pass_frame_refl].
  apply bind_Ok in Hrun as ([[s1 rgb] op] & Htr & Hrun). simpl in Hrun.
  apply bind_Ok in Hrun as (prev & _ & Hrun). apply bind_Ok in Hrun as (acc & _ & Hrun).
  rewrite ?new_buffer_eq in Hrun.
  apply bind_Ok in Hrun as (prevo & _ & Hrun). apply bind_Ok in Hrun as (summed & _ & Hrun).
  rewrite ?new_buffer_eq in Hrun. injection Hrun as <- _.
  eapply pass_frame_trans; [|apply pass_frame_set_heap].
  eapply pass_frame_trans; [|apply pass_frame_set_heap].
  eapply pass_frame_trace_rays, Htr.
Qed.

Lemma pass_frame_buffers (self self' : Engine3DGRUT.state) (camera : Camera)
  (is_first_pass : bool) (rays : RayPack.t) (rb : Engine3DGRUT.RenderBuffers) :
  Engine3DGRUT.render_pass_buffers self camera is_first_pass = Ok (self', rays, rb) ->
  pass_frame self self' /\ is_Some (Engine3DGRUT.rb_rgb_buffer rb) /\
  (is_first_pass = true -> is_Some (Engine3DGRUT.rb_opacity rb)).
Proof.
  unfold Engine3DGRUT.render_pass_buffers. intros Hrun.
  apply bind_Ok in Hrun as ([s1 rays1] & Hgen & Hrun). simpl in Hrun.
  apply pass_frame_raygen in Hgen.
  apply bind_Ok in Hrun as ([s2 rb2] & Hstage & Hrun). simpl in Hrun.
  assert (Hst : pass_frame s1 s2 /\ (is_first_pass = true -> is_Some (Engine3DGRUT.rb_opacity rb2))).
  { destruct is_first_pass.
    - apply bind_Ok in Hstage as ([[s3 rgb] op] & Htr & Hstage). simpl in Hstage.
      rewrite ?new_buffer_eq in Hstage. injection Hstage as <- <-. split; [|simpl; eauto].
      eapply pass_frame_trans; [|apply pass_frame_set_depth_of_field].
      eapply pass_frame_trans; [|apply pass_frame_set_spp].
      eapply pass_frame_trans; [|apply pass_frame_set_heap].
      eapply pass_frame_trans; [|apply pass_frame_set_heap].
      eapply pass_frame_trace_rays, Htr.
    - split; [|discriminate].
      destruct (Engine3DGRUT.ls_rgb_buffer _); [|discriminate].
      destruct (Engine3DGRUT.use_depth_of_field s1); [eapply pass_frame_dof, Hstage|].
      destruct (Engine3DGRUT.use_spp s1); [eapply pass_frame_spp, Hstage|].
      injection Hstage as <- _. apply pass_frame_refl. }
  destruct Hst as [Hst Hop].
  destruct (Engine3DGRUT.use_optix_denoiser s2).
  - apply bind_Ok in Hrun as (noisy & _ & Hrun). rewrite ?new_buffer_eq in Hrun.
    injection Hrun as <- _ <-. simpl. split; [|split; [eauto|exact Hop]].
    eapply pass_frame_trans; [exact Hgen|]. eapply pass_frame_trans; [exact Hst|].
    apply pass_frame_set_heap.
  - injection Hrun as <- _ <-. simpl. split; [|split; [eauto|exact Hop]].
    eapply pass_frame_trans; eassumption.
Qed.

(** X13.  A pass that returns leaves the settings as the viewer set them
    (camera type, field of view, the two effect toggles, antialiasing mode,
    gamma, bounce limit, denoiser toggle, scene); and when no surface
    primitive takes part (registry disabled or without a visible object) it
    leaves the frame counter, the tracer, the registry and the
    materials-dirty flag as they were: nothing but a hybrid trace advances
    the counter or clears the flag. *)
Theorem render_pass_keeps_settings (self self' : Engine3DGRUT.state) (camera : Camera)
  (is_first_pass : bool) (rb : Engine3DGRUT.RenderBuffers) :
  Engine3DGRUT.render_pass self camera is_first_pass = Ok (self', rb) ->
  same_settings self self' /\
  (volumetric_only self -> same_tracing_state self self').
Proof.
  unfold Engine3DGRUT.render_pass. intros Hrun.
  apply bind_Ok in Hrun as ([[s1 rays] rb1] & Hbuf & Hrun). simpl in Hrun.
  apply bind_Ok in Hrun as (h & _ & Hrun). apply bind_Ok in Hrun as (s2 & Hcache & Hrun).
  injection Hrun as <- _.
  apply pass_frame_buffers in Hbuf as ((Hs & _ & Hv) & _).
  unfold Engine3DGRUT.cache_last_state in Hcache.
  destruct (Engine3DGRUT.rb_rgb_buffer rb1); [|discriminate]. injection Hcache as <-.
  split; [exact Hs|exact Hv].
Qed.

(** X14.  A pass after the first one needs a cached noisy buffer: on an
    engine that has cached none it never returns, and when ray generation
    succeeds the error is KeyError 'rgb_buffer'. *)
Theorem accumulating_pass_needs_cache (self : Engine3DGRUT.state) (camera : Camera) :
  Engine3DGRUT.ls_rgb_buffer (Engine3DGRUT.last_state self) = None ->
  raises (Engine3DGRUT.render_pass self camera false) /\
  (forall self1 rays,
     Engine3DGRUT.raygen self (on_cuda camera)
       (negb (Engine3DGRUT.use_depth_of_field self) && Engine3DGRUT.use_spp self)
     = Ok (self1, rays) ->
     Engine3DGRUT.render_pass self camera false = Raise (KeyError "rgb_buffer")).
Proof.
  intros Hnone.
  assert (Hgen : forall self1 rays,
    Engine3DGRUT.raygen self (on_cuda camera)
      (negb (Engine3DGRUT.use_depth_of_field self) && Engine3DGRUT.use_spp self)
    = Ok (self1, rays) ->
    Engine3DGRUT.render_pass self camera false = Raise (KeyError "rgb_buffer")).
  { intros self1 rays Hgen. pose proof (raygen_frame _ _ _ _ _ Hgen) as Hframe.
    unfold Engine3DGRUT.render_pass. fold (on_cuda camera).
    unfold Engine3DGRUT.render_pass_buffers. simpl negb. rewrite andb_true_l, Hgen. simpl.
    rewrite Hframe. simpl. rewrite Hnone. reflexivity. }
  split; [|exact Hgen].
  destruct (Engine3DGRUT.raygen self (on_cuda camera)
              (negb (Engine3DGRUT.use_depth_of_field self) && Engine3DGRUT.use_spp self))
    as [[self1 rays]|e] eqn:Eg.
  - eexists. eapply Hgen. reflexivity.
  - exists e. unfold Engine3DGRUT.render_pass. fold (on_cuda camera).
    unfold Engine3DGRUT.render_pass_buffers. simpl negb. rewrite andb_true_l, Eg. reflexivity.
Qed.

End PassFrame.

Lemma render_pass_keeps_settings_witness :
  exists self' rb,
    Engine3DGRUT.render_pass (H := Simple.collaborators) empty_engine cpu_camera true
    = Ok (self', rb) /\
    Engine3DGRUT.camera_type self' = "Pinhole"%string /\
    Engine3DGRUT.frame_id self' = 0.
Proof.
  destruct (Engine3DGRUT.render_pass (H := Simple.collaborators) empty_engine cpu_camera true)
    as [[self' rb]|e] eqn:Hrun; [|vm_compute in Hrun; discriminate].
  destruct (render_pass_keeps_settings (H := Simple.collaborators) _ _ _ _ _ Hrun)
    as [Hset Hvol].
  exists self', rb. split; [reflexivity|]. split; [apply Hset|].
  apply Hvol. vm_compute. reflexivity.
Defined.

Lemma accumulating_pass_needs_cache_witness :
  Engine3DGRUT.render_pass (H := Simple.collaborators) bare_engine cpu_camera false
  = Raise (KeyError "rgb_buffer").
Proof.
  destruct (accumulating_pass_needs_cache (H := Simple.collaborators) bare_engine cpu_camera
              eq_refl) as [_ Hkey].
  destruct (Engine3DGRUT.raygen (H := Simple.collaborators) bare_engine (on_cuda cpu_camera)
              (negb (Engine3DGRUT.use_depth_of_field bare_engine)
               && Engine3DGRUT.use_spp bare_engine))
    as [[self1 rays]|e] eqn:Hgen; [|vm_compute in Hgen; discriminate].
  eapply Hkey. reflexivity.
Defined.

(** ** Engine3DGRUT.render_pass, render and is_dirty *)

Lemma Qlist_eqb_refl (l : list Q) : Qlist_eqb l l = true.
Proof.
  induction l as [|x l IH]; simpl; [reflexivity|].
  rewrite IH, andb_true_r. apply Qeq_bool_iff. reflexivity.
Qed.

Lemma on_cuda_view (camera : Camera) :
  camera_view_matrix (on_cuda camera) = camera_view_matrix camera /\
  camera_height (on_cuda camera) = camera_height camera /\
  camera_width (on_cuda camera) = camera_width camera.
Proof. unfold on_cuda. destruct (decide _); repeat split. Qed.

Section PassCache.
Context `{Collaborators}.

(** [render_pass], stage by stage. *)
Lemma render_pass_inv (self self' : Engine3DGRUT.state) (camera : Camera)
  (is_first_pass : bool) (rb : Engine3DGRUT.RenderBuffers) :
  Engine3DGRUT.render_pass self camera is_first_pass = Ok (self', rb) ->
  exists s1 rays h rgb_buffer,
    Engine3DGRUT.render_pass_buffers self (on_cuda camera) is_first_pass = Ok (s1, rays, rb) /\
    Engine3DGRUT.apply_mask (Engine3DGRUT.heap s1) rays rb = Ok h /\
    Engine3DGRUT.rb_rgb_buffer rb = Some rgb_buffer /\
    self' = Engine3DGRUT.set_last_state
              (Engine3DGRUT.mkLastState
                 (Some (camera_view_matrix camera)) (Some (Engine3DGRUT.rb_rgb rb))
                 (Engine3DGRUT.rb_opacity rb) (Some rgb_buffer)
                 (Some (camera_height camera, camera_width camera)))
              (Engine3DGRUT.set_heap h s1).
Proof.
  unfold Engine3DGRUT.render_pass. fold (on_cuda camera). intros Hrun.
  apply bind_Ok in Hrun as ([[s1 rays] rb1] & Hbuf & Hrun). simpl in Hrun.
  apply bind_Ok in Hrun as (h & Hmask & Hrun). apply bind_Ok in Hrun as (s2 & Hcache & Hrun).
  injection Hrun as <- <-.
  unfold Engine3DGRUT.cache_last_state in Hcache.
  destruct (Engine3DGRUT.rb_rgb_buffer rb1) as [rgb_buffer|] eqn:Eb; [|discriminate].
  injection Hcache as <-. destruct (on_cuda_view camera) as (-> & -> & ->).
  exists s1, rays, h, rgb_buffer. repeat split; assumption.
Qed.

(** The settings after a pass are those before it. *)
Lemma render_pass_same_settings (self self' : Engine3DGRUT.state) (camera : Camera)
  (is_first_pass : bool) (rb : Engine3DGRUT.RenderBuffers) :
  Engine3DGRUT.render_pass self camera is_first_pass = Ok (self', rb) ->
  pass_frame self (Engine3DGRUT.set_last_state (Engine3DGRUT.last_state self) self').
Proof.
  intros Hrun. apply render_pass_inv in Hrun as (s1 & rays & h & b & Hbuf & _ & _ & ->).
  apply pass_frame_buffers in Hbuf as ((Hs & Hl & Hv) & _).
  split; [exact Hs|]. split; [reflexivity|exact Hv].
Qed.

(** X15.  What a pass that returns has cached: the view matrix of the camera
    it was given, the buffers it returns and the canvas size; the returned
    dictionary always has a noisy buffer, and after a first pass an opacity
    buffer too.  So, for a camera that was not moved to another device, right
    after the pass the camera counts as unchanged, another camera on that
    device counts as changed exactly when its view matrix differs, and after
    a first pass the engine is dirty for the same camera exactly when the
    materials are. *)
Theorem render_pass_caches_result (self self' : Engine3DGRUT.state) (camera : Camera)
  (is_first_pass : bool) (rb : Engine3DGRUT.RenderBuffers) :
  Engine3DGRUT.render_pass self camera is_first_pass = Ok (self', rb) ->
  Engine3DGRUT.last_state self'
  = Engine3DGRUT.mkLastState
      (Some (camera_view_matrix camera)) (Some (Engine3DGRUT.rb_rgb rb))
      (Engine3DGRUT.rb_opacity rb) (Engine3DGRUT.rb_rgb_buffer rb)
      (Some (camera_height camera, camera_width camera)) /\
  is_Some (Engine3DGRUT.rb_rgb_buffer rb) /\
  (is_first_pass = true ->
   is_Some (Engine3DGRUT.rb_opacity rb) /\ Engine3DGRUT.has_cached_buffers self' = true) /\
  (camera_device camera <> "cpu"%string ->
   Engine3DGRUT.did_camera_change self' camera = false /\
   (forall other,
      camera_device other = camera_device camera ->
      Engine3DGRUT.did_camera_change self' other
      = negb (Qlist_eqb (camera_view_matrix camera) (camera_view_matrix other))) /\
   (is_first_pass = true ->
    Engine3DGRUT.is_dirty self' camera = Engine3DGRUT.is_materials_dirty self')).
Proof.
  intros Hrun. apply render_pass_inv in Hrun as (s1 & rays & h & b & Hbuf & _ & Hb & ->).
  apply pass_frame_buffers in Hbuf as (_ & _ & Hop).
  unfold Engine3DGRUT.did_camera_change, Engine3DGRUT.is_dirty, Engine3DGRUT.has_cached_buffers.
  cbn. rewrite Hb, Qlist_eqb_refl.
  split; [reflexivity|]. split; [eauto|]. split.
  - intros Hfirst. destruct (Hop Hfirst) as [op ->]. split; [eauto|reflexivity].
  - intros _. split; [reflexivity|]. split; [reflexivity|].
    intros Hfirst. destruct (Hop Hfirst) as [op ->]. simpl.
    destruct (Engine3DGRUT.is_materials_dirty s1); reflexivity.
Qed.

(** X16.  A first pass that returns resets both accumulation controllers, so
    the accumulation that follows starts from the controllers' reset state
    whatever they had counted before. *)
Theorem first_pass_resets_accumulation (self self' : Engine3DGRUT.state) (camera : Camera)
  (rb : Engine3DGRUT.RenderBuffers) :
  Engine3DGRUT.render_pass self camera true = Ok (self', rb) ->
  Engine3DGRUT.spp self' = spp_reset_accumulation (Engine3DGRUT.spp self) /\
  Engine3DGRUT.depth_of_field self'
  = dof_reset_accumulation (Engine3DGRUT.depth_of_field self).
Proof.
  intros Hrun. apply render_pass_inv in Hrun as (s1 & rays & h & b & Hbuf & _ & _ & ->).
  unfold Engine3DGRUT.render_pass_buffers in Hbuf.
  apply bind_Ok in Hbuf as ([s0 rays0] & Hgen & Hbuf). simpl in Hgen, Hbuf.
  unfold Engine3DGRUT.raygen in Hgen.
  apply bind_Ok in Hgen as ([s00 packs] & Hloop & Hgen).
  apply raygen_loop_packs in Hloop as (_ & _ & Hsame). specialize (Hsame eq_refl). subst s00.
  simpl in Hgen. destruct packs as [|r0 packs]; [discriminate|].
  apply bind_Ok in Hgen as (ori & _ & Hgen). apply bind_Ok in Hgen as (dir & _ & Hgen).
  injection Hgen as <- _.
  apply bind_Ok in Hbuf as ([s2 rb2] & Hstage & Hbuf). simpl in Hbuf.
  apply bind_Ok in Hstage as ([[s3 rgb] op] & Htr & Hstage). simpl in Hstage.
  injection Hstage as <- _.
  apply trace_rays_frame in Htr as (_ & Hspp & Hdof & _).
  simpl in Hbuf. rewrite <- Hspp, <- Hdof.
  destruct (Engine3DGRUT.use_optix_denoiser s3).
  - apply bind_Ok in Hbuf as (noisy & _ & Hbuf). simpl in Hbuf.
    injection Hbuf as <- _ _. split; reflexivity.
  - injection Hbuf as <- _ _. split; reflexivity.
Qed.

(** X17.  With depth of field and antialiasing both off, [render] is one
    first pass: it returns what [render_pass] with is_first_pass = True
    returns, raises what it raises, and the loop runs no accumulating pass. *)
Theorem render_without_effects_is_one_pass (fuel : nat) (self : Engine3DGRUT.state)
  (camera : Camera) :
  Engine3DGRUT.use_depth_of_field self = false ->
  Engine3DGRUT.use_spp self = false ->
  Engine3DGRUT.render fuel self camera = Engine3DGRUT.render_pass self camera true.
Proof.
  intros Hdof Hspp. unfold Engine3DGRUT.render.
  destruct (Engine3DGRUT.render_pass self camera true) as [[self' rb]|e] eqn:Hrun;
    [|reflexivity].
  apply render_pass_same_settings in Hrun as ((_&_&_&_&_& Hd & Hs &_) & _).
  simpl in Hd, Hs. simpl.
  assert (Hno : Engine3DGRUT.has_progressive_effects_to_render self' = false).
  { unfold Engine3DGRUT.has_progressive_effects_to_render,
      Engine3DGRUT.has_progressive_effects_to_render_reads.
    rewrite Hd, Hs, Hdof, Hspp. reflexivity. }
  destruct fuel; simpl; rewrite Hno; reflexivity.
Qed.

(** X18.  While no surface primitive takes part (registry disabled or without
    a visible object) a pass never marks the materials uploaded: if they were
    invalidated before the pass, the engine is still dirty after it, for
    every camera, and still without a primitive taking part. *)
Theorem invalidated_materials_stay_dirty (self self' : Engine3DGRUT.state) (camera : Camera)
  (is_first_pass : bool) (rb : Engine3DGRUT.RenderBuffers) :
  volumetric_only (Engine3DGRUT.invalidate_materials_on_gpu self) ->
  Engine3DGRUT.render_pass (Engine3DGRUT.invalidate_materials_on_gpu self) camera is_first_pass
  = Ok (self', rb) ->
  volumetric_only self' /\
  forall other, Engine3DGRUT.is_dirty self' other = true.
Proof.
  intros Hvol Hrun. apply render_pass_same_settings in Hrun as (_ & _ & Hkeep).
  destruct (Hkeep Hvol) as (_ & _ & Hprims & Hflag). simpl in Hprims, Hflag.
  split.
  - unfold volumetric_only in *. rewrite Hprims. exact Hvol.
  - intros other. unfold Engine3DGRUT.is_dirty. rewrite Hflag. reflexivity.
Qed.

End PassCache.

Lemma render_pass_caches_result_witness :
  exists self' rb,
    Engine3DGRUT.render_pass (H := Simple.collaborators) bare_engine (camera_cuda cpu_camera) true
    = Ok (self', rb) /\
    Engine3DGRUT.ls_rgb (Engine3DGRUT.last_state self') = Some (Engine3DGRUT.rb_rgb rb) /\
    Engine3DGRUT.is_dirty self' (camera_cuda cpu_camera) = false.
Proof.
  destruct (Engine3DGRUT.render_pass (H := Simple.collaborators) bare_engine
              (camera_cuda cpu_camera) true)
    as [[self' rb]|e] eqn:Hrun; [|vm_compute in Hrun; discriminate].
  destruct (render_pass_caches_result (H := Simple.collaborators) _ _ _ _ _ Hrun)
    as (Hlast & _ & _ & Hsame).
  destruct Hsame as (_ & _ & Hdirty); [discriminate|].
  exists self', rb. split; [reflexivity|]. split; [rewrite Hlast; reflexivity|].
  rewrite (Hdirty eq_refl). vm_compute in Hrun. injection Hrun as <- _. reflexivity.
Defined.

Lemma first_pass_resets_accumulation_witness :
  exists self' rb,
    Engine3DGRUT.render_pass (H := Simple.collaborators)
      (Engine3DGRUT.set_spp (mkSPP "msaa" 4 1 3) bare_engine) cpu_camera true
    = Ok (self', rb) /\
    Engine3DGRUT.spp self' = mkSPP "msaa" 4 1 0.
Proof.
  destruct (Engine3DGRUT.render_pass (H := Simple.collaborators)
              (Engine3DGRUT.set_spp (mkSPP "msaa" 4 1 3) bare_engine) cpu_camera true)
    as [[self' rb]|e] eqn:Hrun; [|vm_compute in Hrun; discriminate].
  destruct (first_pass_resets_accumulation (H := Simple.collaborators) _ _ _ _ Hrun)
    as [Hspp _].
  exists self', rb. split; [reflexivity|exact Hspp].
Defined.

Lemma render_without_effects_is_one_pass_witness :
  Engine3DGRUT.render (H := Simple.collaborators) 0
    (configure "Pinhole" false false true bare_engine) cpu_camera
  = Engine3DGRUT.render_pass (H := Simple.collaborators)
      (configure "Pinhole" false false true bare_engine) cpu_camera true /\
  is_ok (Engine3DGRUT.render (H := Simple.collaborators) 0
           (configure "Pinhole" false false true bare_engine) cpu_camera) = true.
Proof.
  split; [|vm_compute; reflexivity].
  apply (render_without_effects_is_one_pass (H := Simple.collaborators)); reflexivity.
Defined.

Lemma invalidated_materials_stay_dirty_witness :
  exists self' rb,
    Engine3DGRUT.render_pass (H := Simple.collaborators)
      (Engine3DGRUT.invalidate_materials_on_gpu empty_engine) cpu_camera true
    = Ok (self', rb) /\
    Engine3DGRUT.is_dirty self' cpu_camera = true.
Proof.
  destruct (Engine3DGRUT.render_pass (H := Simple.collaborators)
              (Engine3DGRUT.invalidate_materials_on_gpu empty_engine) cpu_camera true)
    as [[self' rb]|e] eqn:Hrun; [|vm_compute in Hrun; discriminate].
  assert (Hvol : volumetric_only (Engine3DGRUT.invalidate_materials_on_gpu empty_engine))
    by (vm_compute; reflexivity).
  destruct (invalidated_materials_stay_dirty (H := Simple.collaborators) _ _ _ _ _
              Hvol Hrun) as [_ Hdirty].
  exists self', rb. split; [reflexivity|apply Hdirty].
Defined.

(** ** Engine3DGRUT.__init__ *)

Section Init.
Context `{Collaborators}.

(** Builds asked of the accelerator by one [rebuild_bvh_if_needed]. *)
Lemma rebuild_bvh_if_needed_count (self self' : Primitives.state) (tracer tracer' : Tracer)
  (force rebuild : bool) :
  Primitives.rebuild_bvh_if_needed self tracer force rebuild = Ok (self', tracer') ->
  gs_acc_builds tracer' = gs_acc_builds tracer /\
  rebuild_count tracer'
  = (rebuild_count tracer + (if Primitives.dirty self || force then 1 else 0))%nat /\
  (Primitives.dirty self || force = true -> Primitives.has_visible_objects self = true ->
   is_Some (Primitives.stacked_fields self')).
Proof.
  unfold Primitives.rebuild_bvh_if_needed. intros Hrun.
  apply bind_Ok in Hrun as ([self1 tracer1] & Hstep & Hrun). simpl in Hrun.
  injection Hrun as <- <-. unfold rebuild_count.
  destruct (Primitives.dirty self || force).
  - destruct (Primitives.has_visible_objects self).
    + apply bind_Ok in Hstep as (self2 & _ & Hstep).
      destruct (Primitives.stacked_fields self2) as [fields|] eqn:Ef; [|discriminate].
      injection Hstep as <- <-. simpl. rewrite length_app, Ef. simpl. eauto.
    + injection Hstep as <- <-. simpl. rewrite length_app. simpl.
      repeat split; discriminate.
  - injection Hstep as <- <-. simpl. repeat split; [lia|discriminate].
Qed.

(** X19.  The constructor.  A model without particles is an IndexError (the
    scene scale is a reduction over the positions); an assets folder without
    a "Sphere" is KeyError 'Sphere'.  When the constructor returns, the scene
    holds exactly one object, "Sphere 1", a glass primitive; the registry is
    clean and has its merged buffers; the accelerator was asked for one
    particle build and one mesh build; the frame counter is 0, the camera is
    the pinhole one, antialiasing and the denoiser are on, depth of field is
    off, the materials are not marked dirty, and with nothing cached the
    engine is dirty for every camera. *)
Theorem init_postconditions (scene_mog : MixtureOfGaussians) (scene_name : string)
  (assets : gmap string (option string)) (dof : DepthOfField) (spp : SPP) :
  (mog_positions scene_mog = [] ->
   raises (Engine3DGRUT.init scene_mog scene_name assets dof spp)) /\
  (mog_positions scene_mog <> [] -> assets !! "Sphere"%string = None ->
   Engine3DGRUT.init scene_mog scene_name assets dof spp = Raise (KeyError "Sphere")) /\
  (forall self,
     Engine3DGRUT.init scene_mog scene_name assets dof spp = Ok self ->
     (exists p, Primitives.objects (Engine3DGRUT.primitives self) = [("Sphere 1"%string, p)] /\
                new_primitive "Sphere" GLASS p) /\
     Primitives.instance_counter (Engine3DGRUT.primitives self) = {[ "Sphere"%string := 1 ]} /\
     Primitives.dirty (Engine3DGRUT.primitives self) = false /\
     is_Some (Primitives.stacked_fields (Engine3DGRUT.primitives self)) /\
     gs_acc_builds (Engine3DGRUT.tracer self) = 1%nat /\
     rebuild_count (Engine3DGRUT.tracer self) = 1%nat /\
     Engine3DGRUT.frame_id self = 0 /\
     Engine3DGRUT.camera_type self = "Pinhole"%string /\
     Engine3DGRUT.use_depth_of_field self = false /\
     Engine3DGRUT.use_spp self = true /\
     Engine3DGRUT.use_optix_denoiser self = true /\
     Engine3DGRUT.is_materials_dirty self = false /\
     Engine3DGRUT.spp self = spp /\ Engine3DGRUT.depth_of_field self = dof /\
     forall camera, Engine3DGRUT.is_dirty self camera = true).
Proof.
  split; [|split].
  - intros Hnil. unfold Engine3DGRUT.init. rewrite Hnil. simpl. eexists. reflexivity.
  - intros Hne Hnone. unfold Engine3DGRUT.init.
    destruct (mog_positions scene_mog) as [|r rows]; [contradiction|]. simpl.
    unfold Primitives.add_primitive, Primitives.create_geometry. simpl.
    rewrite lookup_insert_ne by discriminate. rewrite Hnone. reflexivity.
  - intros self Hrun. unfold Engine3DGRUT.init in Hrun.
    apply bind_Ok in Hrun as (hi & _ & Hrun). apply bind_Ok in Hrun as (lo & _ & Hrun).
    apply bind_Ok in Hrun as (prims & Hadd & Hrun).
    apply add_primitive_inv in Hadd as (reg & p & Hp & ->).
    unfold Engine3DGRUT.rebuild_bvh in Hrun.
    apply bind_Ok in Hrun as ([prims' tr] & Hreb & Hrun). injection Hrun as <-.
    pose proof (rebuild_bvh_if_needed_frame _ _ _ _ _ _ Hreb) as (Hclean & Hobj & Hcnt & _).
    apply rebuild_bvh_if_needed_count in Hreb as (Hgs & Hmesh & Hstacked).
    cbn in Hobj, Hcnt, Hgs, Hmesh, Hstacked |- *.
    rewrite Hobj, Hcnt, Hgs, Hmesh, Hclean.
    split; [exists p; split; [reflexivity|exact Hp]|].
    split; [reflexivity|]. split; [reflexivity|].
    split.
    { apply Hstacked; [reflexivity|].
      unfold Primitives.has_visible_objects, Primitives.is_visible. cbn.
      destruct Hp as (_ & -> & _). reflexivity. }
    repeat split.
Qed.

(** X20.  [rebuild_bvh] always asks for a build of the particle BVH, and for
    a build of the mesh BVH only when the registry is dirty; it leaves the
    registry clean with its objects, counters and materials as they were,
    and touches nothing else of the engine. *)
Theorem rebuild_bvh_builds (self self' : Engine3DGRUT.state) :
  Engine3DGRUT.rebuild_bvh self = Ok self' ->
  gs_acc_builds (Engine3DGRUT.tracer self') = S (gs_acc_builds (Engine3DGRUT.tracer self)) /\
  rebuild_count (Engine3DGRUT.tracer self')
  = (rebuild_count (Engine3DGRUT.tracer self)
     + (if Primitives.dirty (Engine3DGRUT.primitives self) then 1 else 0))%nat /\
  Primitives.dirty (Engine3DGRUT.primitives self') = false /\
  Primitives.objects (Engine3DGRUT.primitives self')
  = Primitives.objects (Engine3DGRUT.primitives self) /\
  Primitives.instance_counter (Engine3DGRUT.primitives self')
  = Primitives.instance_counter (Engine3DGRUT.primitives self) /\
  Primitives.registered_materials (Engine3DGRUT.primitives self')
  = Primitives.registered_materials (Engine3DGRUT.primitives self) /\
  self' = Engine3DGRUT.set_tracer (Engine3DGRUT.tracer self')
            (Engine3DGRUT.set_primitives (Engine3DGRUT.primitives self') self).
Proof.
  unfold Engine3DGRUT.rebuild_bvh. intros Hrun.
  apply bind_Ok in Hrun as ([prims tr] & Hreb & Hrun). injection Hrun as <-.
  pose proof (rebuild_bvh_if_needed_frame _ _ _ _ _ _ Hreb) as (Hclean & Hobj & Hcnt & Hreg).
  apply rebuild_bvh_if_needed_count in Hreb as (Hgs & Hmesh & _).
  rewrite orb_false_r in Hmesh. cbn. rewrite Hgs, Hmesh, Hclean, Hobj, Hcnt, Hreg.
  repeat split.
Qed.

End Init.

Lemma init_postconditions_witness :
  Engine3DGRUT.init (H := Simple.collaborators) example_mog "scene" ∅
    (mkDepthOfField (1 # 100) 1 2 0) (mkSPP "msaa" 4 1 0)
  = Raise (KeyError "Sphere") /\
  Primitives.instance_counter (Engine3DGRUT.primitives started_engine)
  = {[ "Sphere"%string := 1 ]} /\
  rebuild_count (Engine3DGRUT.tracer started_engine) = 1%nat.
Proof.
  split.
  - apply (init_postconditions (H := Simple.collaborators)); [discriminate|reflexivity].
  - destruct (init_postconditions (H := Simple.collaborators) example_mog "scene"
                {[ "Sphere"%string := Some "sphere.obj"%string ]}
                (mkDepthOfField (1 # 100) 1 2 0) (mkSPP "msaa" 4 1 0)) as (_ & _ & Hok).
    destruct (Hok started_engine example_engine_starts) as (_ & Hcnt & _ & _ & _ & Hmesh & _).
    split; [exact Hcnt|exact Hmesh].
Defined.

Lemma rebuild_bvh_builds_witness :
  exists self',
    Engine3DGRUT.rebuild_bvh (H := Simple.collaborators)
      (Engine3DGRUT.set_primitives one_quad bare_engine) = Ok self' /\
    gs_acc_builds (Engine3DGRUT.tracer self') = 1%nat /\
    rebuild_count (Engine3DGRUT.tracer self') = 2%nat.
Proof.
  destruct (Engine3DGRUT.rebuild_bvh (H := Simple.collaborators)
              (Engine3DGRUT.set_primitives one_quad bare_engine))
    as [self'|e] eqn:Hrun; [|vm_compute in Hrun; discriminate].
  destruct (rebuild_bvh_builds (H := Simple.collaborators) _ _ Hrun) as (Hgs & Hmesh & _).
  exists self'. split; [reflexivity|]. split; [exact Hgs|exact Hmesh].
Defined.
